(** * The benchmarking harness of botorchsampler-candidate_funcs

    A shallow embedding of [main.py] (the observation-replay driver and the
    experiment runner) and of [plot.py] (the best-so-far transform), with the
    properties the specification states about them.

    Python floats are IEEE-754 binary64 values: they are modelled by Rocq's
    primitive floats, whose comparisons are the hardware ones (a comparison
    with NaN is false). *)

From Stdlib Require Import ZArith List Bool Floats Sorted Lia.
From stdpp Require Import base option list gmap strings.
Import ListNotations.


(** ** The order of binary64 values *)

Module F.

Definition lt (x y : float) : bool := PrimFloat.ltb x y.
Definition le (x y : float) : bool := PrimFloat.leb x y.
Definition is_nan (x : float) : bool := PrimFloat.is_nan x.

(** [np.inf] and [float('nan')]. *)
Definition inf : float := PrimFloat.infinity.
Definition nan : float := PrimFloat.nan.

(** The rank of a value that is not NaN: comparing two such values is
    comparing their ranks in the lexicographic order. *)
Definition rank (f : spec_float) : Z * Z * Z :=
  match f with
  | S754_nan => (0, 0, 0)
  | S754_infinity true => (-2, 0, 0)
  | S754_infinity false => (2, 0, 0)
  | S754_zero _ => (0, 0, 0)
  | S754_finite true m e => (-1, - e, - Z.pos m)
  | S754_finite false m e => (1, e, Z.pos m)
  end%Z.

Definition lex (a b : Z * Z * Z) : comparison :=
  let '(a1, a2, a3) := a in
  let '(b1, b2, b3) := b in
  match (a1 ?= b1)%Z with
  | Eq => match (a2 ?= b2)%Z with Eq => (a3 ?= b3)%Z | c => c end
  | c => c
  end.

Definition sf_nan (f : spec_float) : bool :=
  match f with S754_nan => true | _ => false end.

End F.

(** The two optimisation directions ([direction] in [main.py], as
    [optuna.create_study] accepts them). *)
Inductive direction := minimize | maximize.

(** ** [plot.py]: the best-so-far transform *)

Module Plot.

(** One turn of the loop of [get_best_ys]; the loop state is
    [(best_y, best_ys)]. *)
Definition step (st : float * list float) (y : float) : float * list float :=
  let '(best_y, best_ys) := st in
  let best_y := if F.lt y best_y then y else best_y in
  (best_y, best_ys ++ [best_y]).

Definition get_best_ys (ys : list float) : list float :=
  snd (fold_left step ys (F.inf, [])).

(** The same loop, by recursion on the remaining input. *)
Fixpoint running (best_y : float) (ys : list float) : list float :=
  match ys with
  | [] => []
  | y :: ys' =>
      let best_y' := if F.lt y best_y then y else best_y in
      best_y' :: running best_y' ys'
  end.

(** [m] is the minimum of [l]: an element of [l] that is below or equal to
    every element. *)
Definition is_minimum (m : float) (l : list float) : Prop :=
  m ∈ l /\ Forall (fun y => F.le m y = true) l.

(** [out] is the running minimum of [ys]. *)
Definition running_minimum (ys out : list float) : Prop :=
  length out = length ys /\
  forall i, i < length ys ->
    exists m, out !! i = Some m /\ is_minimum m (take (S i) ys).

Definition non_increasing (l : list float) : Prop :=
  forall i j x y, i <= j -> l !! i = Some x -> l !! j = Some y ->
    F.le y x = true.

Definition non_decreasing (l : list float) : Prop :=
  forall i j x y, i <= j -> l !! i = Some x -> l !! j = Some y ->
    F.le x y = true.

(** The monotonicity the running best of a run in direction [d] is to
    have. *)
Definition monotone_for (d : direction) (l : list float) : Prop :=
  match d with
  | minimize => non_increasing l
  | maximize => non_decreasing l
  end.

Definition no_nan (l : list float) : Prop :=
  Forall (fun y => F.is_nan y = false) l.

End Plot.

(** ** Exceptions and results *)

(** The Python exceptions the driver can meet. [InvalidRef] is the model's
    own: a reference to no object, which a Python name never holds. *)
Inductive exn :=
  AttributeError | IndexError | TypeError | ValueError | InvalidRef.

Inductive result (A : Type) : Type :=
| Ok (a : A)
| Raise (e : exn).

Arguments Ok {A} a.
Arguments Raise {A} e.

(** ** [numpy]: two-dimensional arrays *)

Module np.

(** An array of shape [(length rows, ncols)]. *)
Record ndarray := array2 { ncols : nat; rows : list (list float) }.

Definition well_shaped (a : ndarray) : Prop :=
  Forall (fun r => length r = ncols a) (rows a).

(** [np.concatenate([a, b])], along the first axis: the other axis has to
    agree. *)
Definition concatenate (a b : ndarray) : result ndarray :=
  if decide (ncols a = ncols b)
  then Ok {| ncols := ncols a; rows := rows a ++ rows b |}
  else Raise ValueError.

(** [np.array(l).reshape(1, len(l))]. *)
Definition row_vector (l : list float) : ndarray :=
  {| ncols := length l; rows := [l] |}.

(** What [a.squeeze()] is: the axes of length one are dropped. *)
Inductive squeezed :=
| scalar (x : float)
| vector (xs : list float)
| matrix (a : ndarray).

Definition squeeze (a : ndarray) : squeezed :=
  if bool_decide (length (rows a) = 1 \/ ncols a = 1) then
    match concat (rows a) with
    | [x] => if bool_decide (length (rows a) = 1 /\ ncols a = 1)
             then scalar x else vector [x]
    | xs => vector xs
    end
  else matrix a.

(** [len(c)]; an array with no axis has no length. *)
Definition len (c : squeezed) : result nat :=
  match c with
  | scalar _ => Raise TypeError
  | vector xs => Ok (length xs)
  | matrix a => Ok (length (rows a))
  end.

End np.

Import np.

(** ** The store and the world *)

(** Arrays are objects: a name holds a reference into the heap, an array is
    allocated at the end of it, and the driver has no operation that writes
    into an allocated one.  [world] is the state of everything random
    outside the driver (the generators behind [random_x] and behind the
    samplers). *)
Abbreviation loc := nat.

Record mem (W : Type) := Mem { heap : list ndarray; world : W }.

Arguments Mem {W} heap world.
Arguments heap {W} m.
Arguments world {W} m.

(** A statement: it runs in a memory, and returns a value and the memory it
    leaves, or raises. *)
Definition M (W A : Type) : Type := mem W -> result (A * mem W).

Definition ret {W A} (a : A) : M W A := fun s => Ok (a, s).

Definition bind {W A B} (m : M W A) (k : A -> M W B) : M W B :=
  fun s => match m s with
           | Ok (a, s') => k a s'
           | Raise e => Raise e
           end.

Notation "'let*' x ':=' m 'in' k" := (bind m (fun x => k))
  (at level 10, x pattern, m at level 200, k at level 200,
   format "'[v' 'let*'  x  ':='  m  'in' '/' k ']'").

Definition raise {W A} (e : exn) : M W A := fun _ => Raise e.

Definition lift {W A} (r : result A) : M W A :=
  match r with Ok a => ret a | Raise e => raise e end.

Definition alloc {W} (a : ndarray) : M W loc :=
  fun s => Ok (length (heap s), Mem (heap s ++ [a]) (world s)).

Definition read {W} (l : loc) : M W ndarray :=
  fun s => match heap s !! l with
           | Some a => Ok (a, s)
           | None => Raise InvalidRef
           end.

(** A call that only touches the world. *)
Definition extern {W A} (g : W -> A * W) : M W A :=
  fun s => let '(a, w) := g (world s) in Ok (a, Mem (heap s) w).

Definition extern_try {W A} (g : W -> result (A * W)) : M W A :=
  fun s => match g (world s) with
           | Ok (a, w) => Ok (a, Mem (heap s) w)
           | Raise e => Raise e
           end.

(** [for x in l: st = body(st, x)] and [for _ in range(n): st = body(st)]. *)
Fixpoint for_each {W A S} (l : list A) (body : S -> A -> M W S) (st : S)
  : M W S :=
  match l with
  | [] => ret st
  | x :: l' => let* st' := body st x in for_each l' body st'
  end.

Fixpoint for_range {W S} (n : nat) (body : S -> M W S) (st : S) : M W S :=
  match n with
  | O => ret st
  | S n' => let* st' := body st in for_range n' body st'
  end.

(** [x.copy()] and [np.concatenate([x, y])] on references. *)
Definition np_copy {W} (x : loc) : M W loc :=
  let* a := read x in alloc a.

Definition np_concatenate {W} (x y : loc) : M W loc :=
  let* a := read x in
  let* b := read y in
  let* c := lift (concatenate a b) in
  alloc c.

(** A [dict] with string keys, in insertion order; [d[k] = v]. *)
Fixpoint dict_set {A} (d : list (string * A)) (k : string) (v : A)
  : list (string * A) :=
  match d with
  | [] => [(k, v)]
  | (k', v') :: d' =>
      if String.eqb k' k then (k', v) :: d' else (k', v') :: dict_set d' k v
  end.

(** ** [optuna], as the driver uses it *)

(** The acquisition functions [main.py] imports; they are plugged into the
    sampler and never called by the driver. *)
Inductive CandidatesFunc :=
| lcb | ei_gammma_prior | ei_dim_scaled_prior | ei_saas
| logei_gammma_prior | logei_dim_scaled_prior | thompson_sampling
| experimental.

Inductive Sampler :=
| TPESampler
| BoTorchSampler (candidates_func : CandidatesFunc).

(** The descriptors of a search space.  The driver tells [FloatDistribution]
    and [CategoricalDistribution] apart by their type and passes over any
    other descriptor, which [IntDistribution] stands for.  The choices of a
    categorical feature are numbers, as the vectors of [Xs] are numeric. *)
Inductive Distribution :=
| FloatDistribution (low high : float)
| CategoricalDistribution (choices : list float)
| IntDistribution (low high : Z).

Abbreviation Distributions := (list (string * Distribution)).

Inductive TrialState := RUNNING | COMPLETE.

Record FrozenTrial := Trial {
  state : TrialState;
  params : list (string * float);
  trial_distributions : Distributions;
  value : option float
}.

(** A study: its direction, its sampler, and its trials in the order they
    were added or asked for. *)
Record Study := mkStudy {
  study_direction : direction;
  study_sampler : Sampler;
  trials : list FrozenTrial
}.

(** What the library decides: which trials [create_trial] accepts, and the
    value a sampler proposes for a feature of the running trial, from the
    study as it stands and the state of the world. *)
Record Optuna (W : Type) := {
  valid_trial : FrozenTrial -> bool;
  sample_float :
    Study -> nat -> string -> float -> float -> W -> result (float * W);
  sample_categorical :
    Study -> nat -> string -> list float -> W -> result (float * W)
}.

Arguments valid_trial {W} o t.
Arguments sample_float {W} o st number name low high w.
Arguments sample_categorical {W} o st number name choices w.

(** [optuna.create_study(direction=d, sampler=sampler)]: a study with no
    trial. *)
Definition optuna_create_study (d : string) (sampler : Sampler)
  : result Study :=
  if String.eqb d "minimize" then Ok (mkStudy minimize sampler [])
  else if String.eqb d "maximize" then Ok (mkStudy maximize sampler [])
  else Raise ValueError.

(** [optuna.trial.create_trial(params=, distributions=, value=)]. *)
Definition create_trial {W} (lib : Optuna W) (ps : list (string * float))
    (ds : Distributions) (v : float) : result FrozenTrial :=
  let t := Trial COMPLETE ps ds (Some v) in
  if valid_trial lib t then Ok t else Raise ValueError.

(** [study.add_trial(trial)]. *)
Definition add_trial (st : Study) (t : FrozenTrial) : Study :=
  mkStudy (study_direction st) (study_sampler st) (trials st ++ [t]).

(** [study.ask()]: a new running trial, known by its number. *)
Definition ask (st : Study) : nat * Study :=
  (length (trials st),
   mkStudy (study_direction st) (study_sampler st)
     (trials st ++ [Trial RUNNING [] [] None])).

(** The running trial records what was suggested for it. *)
Definition set_param (name : string) (d : Distribution) (v : float)
    (t : FrozenTrial) : FrozenTrial :=
  Trial (state t) (dict_set (params t) name v)
    (dict_set (trial_distributions t) name d) (value t).

Definition record_param (st : Study) (number : nat) (name : string)
    (d : Distribution) (v : float) : Study :=
  mkStudy (study_direction st) (study_sampler st)
    (alter (set_param name d v) number (trials st)).

(** [trial.suggest_float(name, low, high)] and
    [trial.suggest_categorical(name, choices)], for the trial [number] of
    [st]. *)
Definition suggest_float {W} (lib : Optuna W) (st : Study) (number : nat)
    (name : string) (low high : float) : M W (float * Study) :=
  let* v := extern_try (sample_float lib st number name low high) in
  ret (v, record_param st number name (FloatDistribution low high) v).

Definition suggest_categorical {W} (lib : Optuna W) (st : Study)
    (number : nat) (name : string) (choices : list float)
  : M W (float * Study) :=
  let* v := extern_try (sample_categorical lib st number name choices) in
  ret (v, record_param st number name (CategoricalDistribution choices) v).

(** ** The test function *)

(** [TargetFunction]: the objective [f], from a batch of rows to a batch of
    values, the random point [random_x], and the search space. *)
Record TargetFunction (W : Type) := {
  f : ndarray -> ndarray;
  random_x : W -> ndarray * W;
  distributions : Distributions
}.

Arguments f {W} t a.
Arguments random_x {W} t w.
Arguments distributions {W} t.

(** [func.f(X)] and [func.random_x()]: each returns a new array. *)
Definition call_f {W} (func : TargetFunction W) (X : loc) : M W loc :=
  let* a := read X in alloc (f func a).

Definition call_random_x {W} (func : TargetFunction W) : M W loc :=
  let* a := extern (random_x func) in alloc a.

(** ** [main.py] *)

Inductive SamplerName :=
| TPE | EIGammaPrior | EIDimScaledPrior | EISaas | LogEIGammaPrior
| LogEIDimScaledPrior | LCB | ThompsonSampling | EXPERIMENTAL.

(** [SamplerName] is a [str] enumeration: a member is equal to its value. *)
Definition SamplerName_value (n : SamplerName) : string :=
  match n with
  | TPE => "TPE"
  | EIGammaPrior => "EI GammaPrior"
  | EIDimScaledPrior => "EI DimScaledPrior"
  | EISaas => "EI Saas"
  | LogEIGammaPrior => "LogEI GammaPrior"
  | LogEIDimScaledPrior => "LogEI DimScaledPrior"
  | LCB => "LCB"
  | ThompsonSampling => "thompson sampling"
  | EXPERIMENTAL => "experimental"
  end.

(** An [Optimizer] object: an attribute is [None] until it is assigned. *)
Record Optimizer := mkOptimizer {
  sampler : option Sampler;
  study : option Study
}.

(** Reading an attribute. *)
Definition attr {W A} (a : option A) : M W A :=
  match a with
  | Some x => ret x
  | None => raise AttributeError
  end.

Definition is_name (sampler_name : string) (n : SamplerName) : bool :=
  String.eqb sampler_name (SamplerName_value n).

(** [Optimizer.__init__] *)
Definition __init__ (sampler_name : string) : Optimizer :=
  if is_name sampler_name TPE then
    mkOptimizer (Some TPESampler) None
  else if is_name sampler_name LCB then
    mkOptimizer (Some (BoTorchSampler lcb)) None
  else if is_name sampler_name EIGammaPrior then
    mkOptimizer (Some (BoTorchSampler ei_gammma_prior)) None
  else if is_name sampler_name EIDimScaledPrior then
    mkOptimizer (Some (BoTorchSampler ei_dim_scaled_prior)) None
  else if is_name sampler_name EISaas then
    mkOptimizer (Some (BoTorchSampler ei_saas)) None
  else if is_name sampler_name LogEIGammaPrior then
    mkOptimizer (Some (BoTorchSampler logei_gammma_prior)) None
  else if is_name sampler_name LogEIDimScaledPrior then
    mkOptimizer (Some (BoTorchSampler logei_dim_scaled_prior)) None
  else if is_name sampler_name ThompsonSampling then
    mkOptimizer (Some (BoTorchSampler thompson_sampling)) None
  else if is_name sampler_name EXPERIMENTAL then
    mkOptimizer (Some (BoTorchSampler experimental)) None
  else
    mkOptimizer None None.

(** [params] of one observation: [params[feature] = x] over
    [zip(features, X)]. *)
Definition make_params (features : list string) (X : list float)
  : list (string * float) :=
  fold_left (fun ps '(feature, x) => dict_set ps feature x)
    (zip features X) [].

(** [y[0]] *)
Definition item0 (y : list float) : result float :=
  match y with
  | v :: _ => Ok v
  | [] => Raise IndexError
  end.

(** The body of the loop of [_set_samples]. *)
Definition register {W} (lib : Optuna W) (ds : Distributions)
    (self : Optimizer) (Xy : list float * list float) : M W Optimizer :=
  let '(X, y) := Xy in
  let ps := make_params (map fst ds) X in
  let* v := lift (item0 y) in
  let* trial := lift (create_trial lib ps ds v) in
  let* st := attr (study self) in
  ret (mkOptimizer (sampler self) (Some (add_trial st trial))).

(** [Optimizer._set_samples] *)
Definition _set_samples {W} (lib : Optuna W) (self : Optimizer)
    (Xs ys : loc) (ds : Distributions) : M W Optimizer :=
  let* Xa := read Xs in
  let* ya := read ys in
  for_each (zip (rows Xa) (rows ya)) (register lib ds) self.

(** [Optimizer.create_study] *)
Definition create_study {W} (self : Optimizer) (d : string)
  : M W Optimizer :=
  let* s := attr (sampler self) in
  let* st := lift (optuna_create_study d s) in
  ret (mkOptimizer (sampler self) (Some st)).

(** The body of the loop of [get_candidate]; the loop state is the study
    the trial belongs to and [new_X]. *)
Definition suggest {W} (lib : Optuna W) (number : nat)
    (acc : Study * list float) (item : string * Distribution)
  : M W (Study * list float) :=
  let '(st, new_X) := acc in
  let '(feature, dist) := item in
  match dist with
  | FloatDistribution low high =>
      let* r := suggest_float lib st number feature low high in
      ret (snd r, new_X ++ [fst r])
  | CategoricalDistribution choices =>
      let* r := suggest_categorical lib st number feature choices in
      ret (snd r, new_X ++ [fst r])
  | _ => ret (st, new_X)
  end.

(** [Optimizer.get_candidate] *)
Definition get_candidate {W} (lib : Optuna W) (self : Optimizer)
    (Xs ys : loc) (ds : Distributions) : M W (Optimizer * loc) :=
  let* self := _set_samples lib self Xs ys ds in
  let* st := attr (study self) in
  let '(number, st) := ask st in
  let* r := for_each ds (suggest lib number) (st, []) in
  let* new_X := alloc (row_vector (snd r)) in
  ret (mkOptimizer (sampler self) (Some (fst r)), new_X).

(** The body of the loop of [run_optimization]; the loop state is
    [(sampler, Xs, ys)]. *)
Definition iteration {W} (lib : Optuna W) (func : TargetFunction W)
    (d : string) (st : Optimizer * loc * loc) : M W (Optimizer * loc * loc) :=
  let '(sampler, Xs, ys) := st in
  let* sampler := create_study sampler d in
  let* c := get_candidate lib sampler Xs ys (distributions func) in
  let* new_y := call_f func (snd c) in
  let* Xs := np_concatenate Xs (snd c) in
  let* ys := np_concatenate ys new_y in
  ret (fst c, Xs, ys).

(** The state of [run_optimization] after [iters] turns of its loop. *)
Definition run_iterations {W} (lib : Optuna W) (func : TargetFunction W)
    (d : string) (X_init y_init : loc) (sampler_name : string) (iters : nat)
  : M W (Optimizer * loc * loc) :=
  let sampler := __init__ sampler_name in
  let* Xs := np_copy X_init in
  let* ys := np_copy y_init in
  for_range iters (iteration lib func d) (sampler, Xs, ys).

Definition run_optimization {W} (lib : Optuna W) (func : TargetFunction W)
    (d : string) (X_init y_init : loc) (sampler_name : string) (iters : nat)
  : M W loc :=
  let* st := run_iterations lib func d X_init y_init sampler_name iters in
  ret (snd st).

(** The result table of a trial, [serch_fs]: a column is the squeezed view
    of an array, held by reference. *)
Abbreviation Table := (gmap string nat).

Definition column (h : list ndarray) (t : Table) (name : string)
  : option squeezed :=
  l ← t !! name; a ← h !! l; Some (squeeze a).

(** The three loops of a trial in [main]. *)
Definition draw_initial {W} (func : TargetFunction W) (st : loc * loc)
  : M W (loc * loc) :=
  let '(X_init, y_init) := st in
  let* X := call_random_x func in
  let* y := call_f func X in
  let* X_init := np_concatenate X_init X in
  let* y_init := np_concatenate y_init y in
  ret (X_init, y_init).

Definition random_search {W} (func : TargetFunction W) (ys_random : loc)
  : M W loc :=
  let* x := call_random_x func in
  let* new_y := call_f func x in
  np_concatenate ys_random new_y.

Definition search_with {W} (lib : Optuna W) (func : TargetFunction W)
    (d : string) (X_init y_init : loc) (SERCH_NUM : nat)
    (serch_fs : Table) (method : SamplerName) : M W Table :=
  let* ys := run_optimization lib func d X_init y_init
             (SamplerName_value method) SERCH_NUM in
  ret (<[SamplerName_value method := ys]> serch_fs).

(** The initial batch of a trial. *)
Definition initial_batch {W} (func : TargetFunction W) (INIT_NUM : nat)
  : M W (loc * loc) :=
  let* X_init := call_random_x func in
  let* y_init := call_f func X_init in
  for_range (INIT_NUM - 1) (draw_initial func) (X_init, y_init).

(** One trial of [main]: the body of its loop over [j], up to the table
    [serch_fs] it writes out. *)
Definition trial {W} (lib : Optuna W) (func : TargetFunction W) (d : string)
    (INIT_NUM SERCH_NUM : nat) (use_methods : list SamplerName)
  : M W (loc * loc * Table) :=
  let* init := initial_batch func INIT_NUM in
  let* ys_random := np_copy (snd init) in
  let* ys_random := for_range SERCH_NUM (random_search func) ys_random in
  let serch_fs : Table := <["Random" := ys_random]> ∅ in
  let* serch_fs := for_each use_methods
                   (search_with lib func d (fst init) (snd init) SERCH_NUM)
                   serch_fs in
  ret (init, serch_fs).

(** The settings of [main]. *)
Definition direction_ : string := "minimize".
Definition EXP_NUM : nat := 3.
Definition SERCH_NUM : nat := 100.
Definition INIT_NUM : nat := 10.
Definition use_methods : list SamplerName :=
  [EIGammaPrior; EIDimScaledPrior; LogEIGammaPrior; LogEIDimScaledPrior].

(** [main], for the test function [func] that [get_target_function]
    returns: the tables of its trials. *)
Definition main {W} (lib : Optuna W) (func : TargetFunction W)
  : M W (list Table) :=
  for_range EXP_NUM
    (fun tables =>
       let* t := trial lib func direction_ INIT_NUM SERCH_NUM use_methods in
       ret (tables ++ [snd t]))
    [].

(** ** What the properties speak of *)

(** The trial that registers the observation [(X, y)]. *)
Definition observation_trial (ds : Distributions)
    (Xy : list float * list float) : FrozenTrial :=
  Trial COMPLETE (make_params (map fst ds) (fst Xy)) ds (head (snd Xy)).

(** The descriptors [get_candidate] asks a value for. *)
Definition supported (item : string * Distribution) : bool :=
  match snd item with
  | FloatDistribution _ _ | CategoricalDistribution _ => true
  | IntDistribution _ _ => false
  end.

(** [v] is a value the library proposed for the feature [item]. *)
Definition proposed {W} (lib : Optuna W) (item : string * Distribution)
    (v : float) : Prop :=
  match snd item with
  | FloatDistribution low high =>
      exists st number w w',
        sample_float lib st number (fst item) low high w = Ok (v, w')
  | CategoricalDistribution choices =>
      exists st number w w',
        sample_categorical lib st number (fst item) choices w = Ok (v, w')
  | IntDistribution _ _ => False
  end.

(** [v] is a value of the feature [item]: within the range of a continuous
    feature, one of the choices of a categorical one. *)
Definition within (item : string * Distribution) (v : float) : Prop :=
  match snd item with
  | FloatDistribution low high => F.le low v = true /\ F.le v high = true
  | CategoricalDistribution choices => v ∈ choices
  | IntDistribution _ _ => False
  end.

(** What [optuna] promises of a suggested value. *)
Definition suggests_in_range {W} (lib : Optuna W) : Prop :=
  forall st number name low high w v w',
    sample_float lib st number name low high w = Ok (v, w') ->
    F.le low v = true /\ F.le v high = true.

Definition suggests_a_choice {W} (lib : Optuna W) : Prop :=
  forall st number name choices w v w',
    sample_categorical lib st number name choices w = Ok (v, w') ->
    v ∈ choices.

(** What a test function promises: [f] maps a batch of [n] rows to a batch
    of [n] values, one to a row, and [random_x] returns one row. *)
Definition evaluates_rows {W} (func : TargetFunction W) : Prop :=
  forall a, ncols (f func a) = 1 /\
            length (rows (f func a)) = length (rows a) /\
            well_shaped (f func a).

Definition draws_one_row {W} (func : TargetFunction W) : Prop :=
  forall w, length (rows (fst (random_x func w))) = 1.

(** The first [n] points [random_x] draws from the world [w], and the
    values of the objective at them, in the order they are drawn. *)
Fixpoint drawn {W} (func : TargetFunction W) (n : nat) (w : W)
  : list ndarray :=
  match n with
  | O => []
  | S n' => let '(x, w') := random_x func w in x :: drawn func n' w'
  end.

Definition values_of {W} (func : TargetFunction W) (xs : list ndarray)
  : list float :=
  concat (flat_map (fun x => rows (f func x)) xs).

(** No name of a sampler is the identifier [name]. *)
Definition unrecognized (name : string) : Prop :=
  forall n, is_name name n = false.

(** [a] is the sequence [y0] grown by [k] values, one to a row. *)
Definition grown (y0 : ndarray) (k : nat) (a : ndarray) : Prop :=
  ncols a = ncols y0 /\
  exists newy, rows a = rows y0 ++ newy /\ length newy = k /\
               Forall (fun r => length r = 1) newy.

(** A batch of [n] values, one to a row. *)
Definition column_of (n : nat) (a : ndarray) : Prop :=
  ncols a = 1 /\ length (rows a) = n /\ Forall (fun r => length r = 1) (rows a).

(** The array behind the reference [l] is the same in both heaps. *)
Definition unchanged (l : loc) (h h' : list ndarray) : Prop :=
  is_Some (h !! l) /\ h' !! l = h !! l.

(** The run of [run_optimization] that starts in [s1] begins its
    observation history with two new arrays that hold what [X_init] and
    [y_init] hold in the heap [h0]. *)
Definition starts_from {W} (lib : Optuna W) (func : TargetFunction W)
    (d : string) (X_init y_init : loc) (name : string)
    (h0 : list ndarray) (s1 : mem W) : Prop :=
  exists self Xs ys si,
    run_iterations lib func d X_init y_init name 0 s1
    = Ok ((self, Xs, ys), si) /\
    length (heap s1) <= Xs /\ length (heap s1) <= ys /\
    heap si !! Xs = h0 !! X_init /\ heap si !! ys = h0 !! y_init.

(** ** What the runs need *)

(** The trial of the observation [(X, y)] over the search space [ds], as
    [create_trial] is to be given it: every feature with the entry of [X]
    at its position, the search space, and [y[0]]. *)
Definition replayed (ds : Distributions) (Xy : list float * list float)
  : FrozenTrial :=
  Trial COMPLETE (zip (map fst ds) (fst Xy)) ds (head (snd Xy)).

(** The library accepts the trial of the observation [Xy]. *)
Definition accepts {W} (lib : Optuna W) (ds : Distributions)
    (Xy : list float * list float) : Prop :=
  valid_trial lib (replayed ds Xy) = true.

(** [row] is what the trial [number] of the study [st] was suggested, in
    the world [w]: for every continuous or categorical feature of [ds], in
    the order of the keys, the value the library gave for the study as it
    stood, which the trial then records; [st'] and [w'] are the study and
    the world this leaves. *)
Fixpoint asked {W} (lib : Optuna W) (number : nat) (ds : Distributions)
    (st : Study) (w : W) (row : list float) (st' : Study) (w' : W) : Prop :=
  match ds with
  | [] => row = [] /\ st' = st /\ w' = w
  | (feature, FloatDistribution low high) :: ds' =>
      exists v w1 row',
        sample_float lib st number feature low high w = Ok (v, w1) /\
        row = v :: row' /\
        asked lib number ds'
          (record_param st number feature (FloatDistribution low high) v)
          w1 row' st' w'
  | (feature, CategoricalDistribution choices) :: ds' =>
      exists v w1 row',
        sample_categorical lib st number feature choices w = Ok (v, w1) /\
        row = v :: row' /\
        asked lib number ds'
          (record_param st number feature
             (CategoricalDistribution choices) v)
          w1 row' st' w'
  | (_, IntDistribution _ _) :: ds' =>
      asked lib number ds' st w row st' w'
  end.

(** The library proposes a value for the feature [item], whatever the study
    and the world. *)
Definition answers {W} (lib : Optuna W) (item : string * Distribution)
  : Prop :=
  match snd item with
  | FloatDistribution low high =>
      forall st number w, exists v w',
        sample_float lib st number (fst item) low high w = Ok (v, w')
  | CategoricalDistribution choices =>
      forall st number w, exists v w',
        sample_categorical lib st number (fst item) choices w = Ok (v, w')
  | IntDistribution _ _ => True
  end.

(** Every row of [a] has an entry at index 0. *)
Definition has_values (a : ndarray) : Prop :=
  Forall (fun r => r <> []) (rows a).

(** [d] is a direction [optuna.create_study] knows, and the direction it
    names. *)
Definition is_direction (d : string) : Prop :=
  d = "minimize"%string \/ d = "maximize"%string.

Definition direction_of (d : string) : direction :=
  if String.eqb d "minimize" then minimize else maximize.

(** The value of the objective at every row of [newX], evaluated one row at
    a time. *)
Definition values_at {W} (func : TargetFunction W)
    (newX : list (list float)) : list (list float) :=
  flat_map (fun row => rows (f func (row_vector row))) newX.

(** The world after [n] points were drawn from [w]. *)
Fixpoint drawn_world {W} (func : TargetFunction W) (n : nat) (w : W) : W :=
  match n with
  | O => w
  | S n' => drawn_world func n' (snd (random_x func w))
  end.

(** A point [random_x] draws has an entry for every feature
    [get_candidate] asks a value for. *)
Definition draws_in_space {W} (func : TargetFunction W) : Prop :=
  forall w, ncols (fst (random_x func w))
            = length (filter supported (distributions func)).

(** The library accepts every candidate it proposed, with the value the
    objective gives it, and every point [random_x] draws, with its
    value. *)
Definition accepts_candidates {W} (lib : Optuna W) (func : TargetFunction W)
  : Prop :=
  forall row,
    Forall2 (proposed lib) (filter supported (distributions func)) row ->
    Forall (fun y => accepts lib (distributions func) (row, y))
      (rows (f func (row_vector row))).

Definition accepts_drawn {W} (lib : Optuna W) (func : TargetFunction W)
  : Prop :=
  forall w,
    Forall (accepts lib (distributions func))
      (zip (rows (fst (random_x func w)))
           (rows (f func (fst (random_x func w))))).

(** A batch that fits the search space: a reference to points with a
    column a feature, and one to as many values, one to a row, that the
    library accepts as observations. *)
Definition fits {W} (lib : Optuna W) (func : TargetFunction W)
    (h : list ndarray) (X y : loc) : Prop :=
  exists Xa ya, h !! X = Some Xa /\ h !! y = Some ya /\
    ncols Xa = length (filter supported (distributions func)) /\
    ncols ya = 1 /\ Forall (fun r => length r = 1) (rows ya) /\
    length (rows Xa) = length (rows ya) /\
    Forall (accepts lib (distributions func)) (zip (rows Xa) (rows ya)).

(** ** An instance for the examples *)

Module Example.

(** The world is a counter: every random draw advances it. *)
Definition to_float (n : nat) : float :=
  PrimFloat.of_uint63 (Uint63.of_Z (Z.of_nat n)).

(** A sum of squares over [[-5, 5]^2]. *)
Definition square_sum (r : list float) : float :=
  fold_left (fun acc x => PrimFloat.add acc (PrimFloat.mul x x)) r 0%float.

Definition sum_of_squares : TargetFunction nat := {|
  f := fun a => array2 1 (map (fun r => [square_sum r]) (rows a));
  random_x := fun w =>
    (array2 2 [[PrimFloat.sub (to_float (w mod 11)) 5%float;
                PrimFloat.sub 5%float (to_float (w mod 7))]], S w);
  distributions :=
    [("x0"%string, FloatDistribution (-5)%float 5%float);
     ("x1"%string, FloatDistribution (-5)%float 5%float)]
|}.

(** A library whose samplers walk through the range, and pick the first
    choice of a categorical feature; a range or a list of choices with no
    value in it is refused. *)
Definition walker : Optuna nat := {|
  valid_trial := fun _ => true;
  sample_float := fun st number name low high w =>
    let v := PrimFloat.add low (to_float (w mod 3)) in
    if F.le low v && F.le v high then Ok (v, S w)
    else if F.le low high then Ok (low, S w)
    else Raise ValueError;
  sample_categorical := fun st number name choices w =>
    match choices with
    | c :: _ => Ok (c, S w)
    | [] => Raise ValueError
    end
|}.

(** A library that validates a trial as [optuna] does: the parameters are
    those of the search space, every value lies in its descriptor, and the
    value of the trial is a number.  Its samplers are those of [walker]. *)
Definition Z_to_float (z : Z) : float :=
  if (z <? 0)%Z
  then PrimFloat.opp (PrimFloat.of_uint63 (Uint63.of_Z (- z)))
  else PrimFloat.of_uint63 (Uint63.of_Z z).

Definition contains (d : Distribution) (v : float) : bool :=
  match d with
  | FloatDistribution low high => F.le low v && F.le v high
  | CategoricalDistribution choices => existsb (PrimFloat.eqb v) choices
  | IntDistribution low high =>
      existsb (fun z => PrimFloat.eqb v (Z_to_float z))
        (seqZ low (high - low + 1))
  end.

Fixpoint described (ps : list (string * float)) (ds : Distributions)
  : bool :=
  match ps, ds with
  | [], [] => true
  | (k, v) :: ps', (k', d) :: ds' =>
      String.eqb k k' && contains d v && described ps' ds'
  | _, _ => false
  end.

Definition checks (t : FrozenTrial) : bool :=
  described (params t) (trial_distributions t) &&
  match value t with
  | Some v => negb (F.is_nan v)
  | None => false
  end.

Definition checker : Optuna nat := {|
  valid_trial := checks;
  sample_float := sample_float walker;
  sample_categorical := sample_categorical walker
|}.

Definition start : mem nat := Mem [] 0.

(** What a statement returned and the memory it left; the defaults stand
    for a statement that raised. *)
Definition returned {A} (d : A) (r : result (A * mem nat)) : A :=
  match r with Ok (a, _) => a | Raise _ => d end.

Definition left_mem {A} (r : result (A * mem nat)) : mem nat :=
  match r with Ok (_, s) => s | Raise _ => start end.

(** Whether a statement returned. *)
Definition returns {A} (r : result (A * mem nat)) : bool :=
  match r with Ok _ => true | Raise _ => false end.

(** The memory after an initial batch of three points (the batch is the
    last two arrays allocated), a session on it, and two turns of the loop
    of [run_optimization] from it. *)
Definition batch : result (nat * nat * mem nat) :=
  initial_batch sum_of_squares 3 start.

Definition X_batch : nat := fst (returned (0, 0) batch).
Definition y_batch : nat := snd (returned (0, 0) batch).

Definition session : Optimizer :=
  returned (mkOptimizer None None)
    (create_study (__init__ "LCB") "minimize" (left_mem batch)).

(** A search space with a descriptor of each kind, and the same without
    the one the driver passes over. *)
Definition mixed : Distributions :=
  [("x0"%string, FloatDistribution (-5)%float 5%float);
   ("n"%string, IntDistribution 0 3);
   ("c"%string, CategoricalDistribution [1%float; 2%float])].

Definition plain : Distributions :=
  [("x0"%string, FloatDistribution (-5)%float 5%float);
   ("c"%string, CategoricalDistribution [1%float; 2%float])].

Definition candidate (ds : Distributions)
  : result (Optimizer * nat * mem nat) :=
  get_candidate walker session X_batch y_batch ds (left_mem batch).

Definition turns (k : nat) : result (Optimizer * nat * nat * mem nat) :=
  run_iterations walker sum_of_squares "minimize" X_batch y_batch "LCB" k
    (left_mem batch).

(** The array a reference holds. *)
Definition array_at (s : mem nat) (l : nat) : ndarray :=
  default (array2 0 []) (heap s !! l).

Definition no_session : Optimizer * nat * nat :=
  (mkOptimizer None None, 0, 0).

(** The same objective over the search space [ds]. *)
Definition over (ds : Distributions) : TargetFunction nat := {|
  f := f sum_of_squares;
  random_x := random_x sum_of_squares;
  distributions := ds
|}.

(** A memory with one observation of three columns and its value, and one
    with an observation whose value has no column. *)
Definition one_point : mem nat :=
  Mem [array2 3 [[0%float; 0%float; 1%float]]; array2 1 [[1%float]]] 0.

Definition no_value : mem nat :=
  Mem [array2 1 [[1%float]]; array2 0 [[]]] 0.

(** [main] and its first trial, on the example. *)
Abbreviation main_run := (main walker sum_of_squares start).

Abbreviation first_trial :=
  (trial walker sum_of_squares direction_ INIT_NUM SERCH_NUM use_methods
     start).

(** A trial of three initial points and two turns, with two methods. *)
Abbreviation small_trial :=
  (trial walker sum_of_squares "minimize" 3 2 [LCB; TPE] start).

Abbreviation first_table := (snd (returned (0, 0, ∅) first_trial)).

Abbreviation main_table := (default ∅ (returned [] main_run !! 0)).

End Example.

(** * Properties *)

(** ** The order of binary64 values *)

Module FOrder.
Import F.

Lemma lex_refl a : lex a a = Eq.
Proof. destruct a as [[a1 a2] a3]; simpl. by rewrite !Z.compare_refl. Qed.

Lemma lex_antisym a b : lex b a = CompOpp (lex a b).
Proof.
  destruct a as [[a1 a2] a3], b as [[b1 b2] b3]; simpl.
  rewrite (Z.compare_antisym a1 b1), (Z.compare_antisym a2 b2),
    (Z.compare_antisym a3 b3).
  by destruct (a1 ?= b1)%Z, (a2 ?= b2)%Z, (a3 ?= b3)%Z.
Qed.

Lemma lex_Lt a b :
  lex a b = Lt <->
  let '(a1, a2, a3) := a in
  let '(b1, b2, b3) := b in
  (a1 < b1 \/ (a1 = b1 /\ (a2 < b2 \/ (a2 = b2 /\ a3 < b3))))%Z.
Proof.
  destruct a as [[a1 a2] a3], b as [[b1 b2] b3]; simpl.
  destruct (Z.compare_spec a1 b1), (Z.compare_spec a2 b2),
    (Z.compare_spec a3 b3); split; intros; try discriminate; try lia; done.
Qed.

Lemma lex_Eq a b : lex a b = Eq <-> a = b.
Proof.
  destruct a as [[a1 a2] a3], b as [[b1 b2] b3]; simpl.
  destruct (Z.compare_spec a1 b1), (Z.compare_spec a2 b2),
    (Z.compare_spec a3 b3); split; intros E; try discriminate;
    try (injection E; lia); subst; done.
Qed.

Lemma lex_Lt_trans a b c : lex a b = Lt -> lex b c = Lt -> lex a c = Lt.
Proof.
  rewrite !lex_Lt.
  destruct a as [[a1 a2] a3], b as [[b1 b2] b3], c as [[c1 c2] c3]. lia.
Qed.

(** Comparing two values that are not NaN compares their ranks. *)
Lemma compare_rank a b :
  sf_nan a = false -> sf_nan b = false ->
  SFcompare a b = Some (lex (rank a) (rank b)).
Proof.
  destruct a as [sa|sa| |sa ma ea], b as [sb|sb| |sb mb eb];
    try discriminate; intros _ _;
    try (by destruct sa); try (by destruct sb); try (by destruct sa, sb).
  destruct sa, sb; simpl; try done.
  rewrite Z.compare_opp, (Z.compare_antisym ea eb).
  by destruct (ea ?= eb)%Z.
Qed.

Lemma compare_nan_l a b : sf_nan a = true -> SFcompare a b = None.
Proof. by destruct a, b. Qed.

Lemma compare_nan_r a b : sf_nan b = true -> SFcompare a b = None.
Proof. by destruct a, b. Qed.

(** The rank determines a value that is not NaN up to the sign of zero. *)
Lemma is_nan_spec x : is_nan x = sf_nan (Prim2SF x).
Proof.
  unfold is_nan, PrimFloat.is_nan. rewrite FloatAxioms.eqb_spec. unfold SFeqb.
  destruct (sf_nan (Prim2SF x)) eqn:E.
  - by rewrite compare_nan_l.
  - by rewrite compare_rank, lex_refl.
Qed.

Lemma lt_spec x y :
  lt x y = true <->
  is_nan x = false /\ is_nan y = false /\
  lex (rank (Prim2SF x)) (rank (Prim2SF y)) = Lt.
Proof.
  unfold lt. rewrite FloatAxioms.ltb_spec, !is_nan_spec. unfold SFltb.
  destruct (sf_nan (Prim2SF x)) eqn:Ex.
  { rewrite compare_nan_l by done. naive_solver. }
  destruct (sf_nan (Prim2SF y)) eqn:Ey.
  { rewrite compare_nan_r by done. naive_solver. }
  rewrite compare_rank by done.
  destruct (lex _ _); naive_solver.
Qed.

Lemma le_spec x y :
  le x y = true <->
  is_nan x = false /\ is_nan y = false /\
  lex (rank (Prim2SF x)) (rank (Prim2SF y)) <> Gt.
Proof.
  unfold le. rewrite FloatAxioms.leb_spec, !is_nan_spec. unfold SFleb.
  destruct (sf_nan (Prim2SF x)) eqn:Ex.
  { rewrite compare_nan_l by done. naive_solver. }
  destruct (sf_nan (Prim2SF y)) eqn:Ey.
  { rewrite compare_nan_r by done. naive_solver. }
  rewrite compare_rank by done.
  destruct (lex _ _); naive_solver.
Qed.

Lemma lt_irrefl x : lt x x = false.
Proof.
  apply not_true_is_false. rewrite lt_spec, lex_refl. naive_solver.
Qed.

Lemma lt_not_nan x y : lt x y = true -> is_nan x = false /\ is_nan y = false.
Proof. rewrite lt_spec. naive_solver. Qed.

Lemma lt_le x y : lt x y = true -> le x y = true.
Proof. rewrite lt_spec, le_spec. intros (? & ? & ->). done. Qed.

Lemma le_refl x : is_nan x = false -> le x x = true.
Proof. rewrite le_spec, lex_refl. done. Qed.

Lemma le_not_nan x y : le x y = true -> is_nan x = false /\ is_nan y = false.
Proof. rewrite le_spec. naive_solver. Qed.

Lemma not_lt_le x y :
  is_nan x = false -> is_nan y = false -> lt y x = false -> le x y = true.
Proof.
  intros Hx Hy H. apply le_spec. repeat split; try done.
  intros E. apply not_true_iff_false in H. apply H, lt_spec.
  repeat split; try done. by rewrite lex_antisym, E.
Qed.

Lemma le_trans x y z : le x y = true -> le y z = true -> le x z = true.
Proof.
  rewrite !le_spec. intros (Hx & _ & Hxy) (_ & Hz & Hyz).
  repeat split; try done. intros E.
  destruct (lex (rank (Prim2SF x)) (rank (Prim2SF y))) eqn:E1; try done.
  - apply lex_Eq in E1. by rewrite E1 in E.
  - destruct (lex (rank (Prim2SF y)) (rank (Prim2SF z))) eqn:E2; try done.
    + apply lex_Eq in E2. by rewrite <- E2, E1 in E.
    + by rewrite (lex_Lt_trans _ _ _ E1 E2) in E.
Qed.

Lemma le_lt_false x y : le x y = true -> lt y x = false.
Proof.
  rewrite le_spec. intros (Hx & Hy & H). apply not_true_is_false.
  rewrite lt_spec. intros (_ & _ & E). by rewrite lex_antisym, E in H.
Qed.

(** [inf] is the greatest value, and the only one no value is below. *)
Lemma le_inf x : is_nan x = false -> le x inf = true.
Proof.
  intros Hx. apply le_spec. repeat split; try done.
  rewrite is_nan_spec in Hx.
  destruct (Prim2SF x) as [s|s| |s m e]; try done; by destruct s.
Qed.

Lemma not_lt_inf x : is_nan x = false -> lt x inf = false -> x = inf.
Proof.
  intros Hx H. apply not_true_iff_false in H.
  rewrite <- (SF2Prim_Prim2SF x). rewrite is_nan_spec in Hx.
  destruct (Prim2SF x) as [s|s| |s m e] eqn:E; try done.
  - exfalso. apply H, lt_spec. rewrite is_nan_spec, E. by destruct s.
  - destruct s; [|done].
    exfalso. apply H, lt_spec. by rewrite is_nan_spec, E.
  - exfalso. apply H, lt_spec. rewrite is_nan_spec, E. by destruct s.
Qed.

End FOrder.

(** ** [plot.py] *)

Module PlotFacts.
Import Plot.

Lemma fold_step ys : forall best_y best_ys,
  snd (fold_left step ys (best_y, best_ys)) = best_ys ++ running best_y ys.
Proof.
  induction ys as [|y ys IH]; intros b acc; simpl.
  - by rewrite app_nil_r.
  - by rewrite IH, <- app_assoc.
Qed.

Lemma get_best_ys_running ys : get_best_ys ys = running F.inf ys.
Proof. unfold get_best_ys. by rewrite fold_step. Qed.

Lemma running_length ys : forall b, length (running b ys) = length ys.
Proof. induction ys; intros; simpl; auto. Qed.

Lemma get_best_ys_length ys : length (get_best_ys ys) = length ys.
Proof. rewrite get_best_ys_running. apply running_length. Qed.

(** The best value so far is never NaN and never goes up. *)
Lemma best_step b y :
  F.is_nan b = false ->
  let b' := if F.lt y b then y else b in
  F.is_nan b' = false /\ F.le b' b = true.
Proof.
  intros Hb. simpl. destruct (F.lt y b) eqn:E.
  - split; [by apply FOrder.lt_not_nan in E as []|by apply FOrder.lt_le].
  - split; [done|by apply FOrder.le_refl].
Qed.

Lemma running_below ys : forall b,
  F.is_nan b = false -> Forall (fun m => F.le m b = true) (running b ys).
Proof.
  induction ys as [|y ys IH]; intros b Hb; simpl; [constructor|].
  destruct (best_step b y Hb) as [Hn Hle]. constructor; [done|].
  eapply Forall_impl; [by apply IH|].
  intros m Hm. simpl in Hm. by eapply FOrder.le_trans.
Qed.

Lemma running_sorted ys : forall b,
  F.is_nan b = false ->
  StronglySorted (fun x y => F.le y x = true) (running b ys).
Proof.
  induction ys as [|y ys IH]; intros b Hb; simpl; [constructor|].
  destruct (best_step b y Hb) as [Hn Hle].
  constructor; [by apply IH|by apply running_below].
Qed.

Lemma running_not_nan ys : forall b,
  F.is_nan b = false -> no_nan (running b ys).
Proof.
  induction ys as [|y ys IH]; intros b Hb; simpl; [constructor|].
  destruct (best_step b y Hb) as [Hn Hle]. constructor; [done|by apply IH].
Qed.

Lemma sorted_non_increasing l :
  no_nan l -> StronglySorted (fun x y => F.le y x = true) l ->
  non_increasing l.
Proof.
  intros Hn Hs. induction Hs as [|a l Hs IH Ha]; intros i j x y Hij Hi Hj.
  - by rewrite lookup_nil in Hi.
  - apply Forall_cons in Hn as [Hna Hnl].
    destruct i as [|i]; simpl in Hi.
    + injection Hi as <-. destruct j as [|j]; simpl in Hj.
      * injection Hj as <-. by apply FOrder.le_refl.
      * rewrite Forall_forall in Ha.
        by apply Ha, list_elem_of_lookup_2 with j.
    + destruct j as [|j]; [lia|]. simpl in Hj.
      apply (IH Hnl i j); [lia|done..].
Qed.

Lemma running_idem ys : forall b, running b (running b ys) = running b ys.
Proof.
  induction ys as [|y ys IH]; intros b; simpl; [done|].
  destruct (F.lt y b) eqn:E.
  - by rewrite E, IH.
  - by rewrite FOrder.lt_irrefl, IH.
Qed.

(** After any prefix, the best value is [b] itself or an element of the
    prefix, and nothing in a prefix without NaN is below it. *)
Lemma running_lookup ys : forall b i m,
  no_nan ys -> F.is_nan b = false ->
  running b ys !! i = Some m ->
  (m = b \/ m ∈ take (S i) ys) /\
  F.le m b = true /\
  Forall (fun y => F.le m y = true) (take (S i) ys).
Proof.
  induction ys as [|y ys IH]; intros b i m Hn Hb Hi; [done|].
  apply Forall_cons in Hn as [Hy Hn]. simpl in Hi.
  destruct (best_step b y Hb) as [Hb' Hle]. simpl in Hb', Hle.
  assert (Hy' : F.le (if F.lt y b then y else b) y = true).
  { destruct (F.lt y b) eqn:E; [by apply FOrder.le_refl|by apply FOrder.not_lt_le]. }
  destruct i as [|i]; simpl in Hi.
  - injection Hi as <-. change (take 1 (y :: ys)) with [y].
    split; [|split; [done|]].
    + destruct (F.lt y b); [right; apply list_elem_of_here|by left].
    + by constructor.
  - destruct (IH _ _ _ Hn Hb' Hi) as (Hin & Hle' & Hall).
    split; [|split].
    + destruct Hin as [->|Hin].
      * destruct (F.lt y b); [right; apply list_elem_of_here|by left].
      * right. by apply list_elem_of_further.
    + by eapply FOrder.le_trans.
    + change (take (S (S i)) (y :: ys)) with (y :: take (S i) ys).
      constructor; [by eapply FOrder.le_trans|done].
Qed.

End PlotFacts.

(** ** Statements: what a run that returned went through *)

Section Statements.
Context {W : Type}.

Lemma bind_Ok {A B} (m : M W A) (k : A -> M W B) s b s' :
  bind m k s = Ok (b, s') <->
  exists a s1, m s = Ok (a, s1) /\ k a s1 = Ok (b, s').
Proof.
  unfold bind. destruct (m s) as [[a s1]|e]; split.
  - intros H. by exists a, s1.
  - by intros (a' & s1' & [= <- <-] & H).
  - done.
  - by intros (a' & s1' & H & _).
Qed.

Lemma ret_Ok {A} (a b : A) (s s' : mem W) :
  ret a s = Ok (b, s') <-> b = a /\ s' = s.
Proof. unfold ret. split; [by intros [= <- <-]|by intros [-> ->]]. Qed.

Lemma lift_Ok {A} (r : result A) (s s' : mem W) a :
  lift r s = Ok (a, s') <-> r = Ok a /\ s' = s.
Proof.
  destruct r; simpl; [rewrite ret_Ok|]; split; try done.
  - by intros [-> ->].
  - by intros [[= ->] ->].
  - by intros [? _].
Qed.

Lemma attr_Ok {A} (o : option A) (s s' : mem W) a :
  attr o s = Ok (a, s') <-> o = Some a /\ s' = s.
Proof.
  destruct o; simpl; [rewrite ret_Ok|]; split; try done.
  - by intros [-> ->].
  - by intros [[= ->] ->].
  - by intros [? _].
Qed.

Lemma read_Ok l (s s' : mem W) a :
  read l s = Ok (a, s') <-> heap s !! l = Some a /\ s' = s.
Proof.
  unfold read. destruct (heap s !! l); split; try done.
  - by intros [= -> ->].
  - by intros [[= ->] ->].
  - by intros [? _].
Qed.

Lemma alloc_Ok a (s s' : mem W) l :
  alloc a s = Ok (l, s') <->
  l = length (heap s) /\ s' = Mem (heap s ++ [a]) (world s).
Proof. unfold alloc. split; [by intros [= <- <-]|by intros [-> ->]]. Qed.

Lemma extern_Ok {A} (g : W -> A * W) (s s' : mem W) a :
  extern g s = Ok (a, s') <->
  exists w, g (world s) = (a, w) /\ s' = Mem (heap s) w.
Proof.
  unfold extern. destruct (g (world s)) as [a' w]. split.
  - intros [= <- <-]. by exists w.
  - by intros (w' & [= -> ->] & ->).
Qed.

Lemma extern_try_Ok {A} (g : W -> result (A * W)) (s s' : mem W) a :
  extern_try g s = Ok (a, s') <->
  exists w, g (world s) = Ok (a, w) /\ s' = Mem (heap s) w.
Proof.
  unfold extern_try. destruct (g (world s)) as [[a' w]|e]; split; try done.
  - intros [= <- <-]. by exists w.
  - by intros (w' & [= -> ->] & ->).
  - by intros (w' & ? & _).
Qed.

Lemma np_copy_Ok x (s s' : mem W) l :
  np_copy x s = Ok (l, s') <->
  exists a, heap s !! x = Some a /\ l = length (heap s) /\
            s' = Mem (heap s ++ [a]) (world s).
Proof.
  unfold np_copy. rewrite bind_Ok. split.
  - intros (a & s1 & [Ha ->]%read_Ok & [-> ->]%alloc_Ok). by exists a.
  - intros (a & Ha & -> & ->). exists a, s. by rewrite read_Ok, alloc_Ok.
Qed.

Lemma np_concatenate_Ok x y (s s' : mem W) l :
  np_concatenate x y s = Ok (l, s') <->
  exists a b, heap s !! x = Some a /\ heap s !! y = Some b /\
              ncols a = ncols b /\ l = length (heap s) /\
              s' = Mem (heap s ++ [array2 (ncols a) (rows a ++ rows b)])
                     (world s).
Proof.
  unfold np_concatenate. rewrite bind_Ok. split.
  - intros (a & s1 & [Ha ->]%read_Ok & H).
    apply bind_Ok in H as (b & s1 & [Hb ->]%read_Ok & H).
    apply bind_Ok in H as (c & s1 & [Hc ->]%lift_Ok & [-> ->]%alloc_Ok).
    unfold concatenate in Hc. destruct (decide _); [|done].
    injection Hc as <-. by exists a, b.
  - intros (a & b & Ha & Hb & Hc & -> & ->).
    exists a, s. rewrite read_Ok. split; [done|].
    apply bind_Ok. exists b, s. rewrite read_Ok. split; [done|].
    apply bind_Ok. eexists _, s. rewrite lift_Ok, alloc_Ok.
    unfold concatenate. by rewrite decide_True.
Qed.

Lemma call_f_Ok (func : TargetFunction W) X (s s' : mem W) l :
  call_f func X s = Ok (l, s') <->
  exists a, heap s !! X = Some a /\ l = length (heap s) /\
            s' = Mem (heap s ++ [f func a]) (world s).
Proof.
  unfold call_f. rewrite bind_Ok. split.
  - intros (a & s1 & [Ha ->]%read_Ok & [-> ->]%alloc_Ok). by exists a.
  - intros (a & Ha & -> & ->). exists a, s. by rewrite read_Ok, alloc_Ok.
Qed.

Lemma call_random_x_Ok (func : TargetFunction W) (s s' : mem W) l :
  call_random_x func s = Ok (l, s') <->
  exists a w, random_x func (world s) = (a, w) /\ l = length (heap s) /\
              s' = Mem (heap s ++ [a]) w.
Proof.
  unfold call_random_x. rewrite bind_Ok. split.
  - intros (a & s1 & (w & Hw & ->)%extern_Ok & [-> ->]%alloc_Ok).
    by exists a, w.
  - intros (a & w & Hw & -> & ->). exists a, (Mem (heap s) w).
    rewrite extern_Ok, alloc_Ok. split; [by exists w|done].
Qed.

(** The loops, turn by turn. *)
Lemma for_range_last {S} n (body : S -> M W S) st s r s' :
  for_range (Datatypes.S n) body st s = Ok (r, s') <->
  exists st1 s1, for_range n body st s = Ok (st1, s1) /\
                 body st1 s1 = Ok (r, s').
Proof.
  revert st s. induction n as [|n IH]; intros st s.
  - simpl. rewrite bind_Ok. split.
    + intros (a & s1 & Ha & [-> ->]%ret_Ok). exists st, s.
      by rewrite ret_Ok.
    + intros (st1 & s1 & [-> ->]%ret_Ok & H). exists r, s'.
      by rewrite ret_Ok.
  - change (for_range (Datatypes.S (Datatypes.S n)) body st)
      with (bind (body st) (for_range (Datatypes.S n) body)).
    rewrite bind_Ok. split.
    + intros (a & s0 & Ha & (st1 & s1 & Hn & Hb)%IH).
      exists st1, s1. split; [|done]. simpl. rewrite bind_Ok. by exists a, s0.
    + intros (st1 & s1 & Hn & Hb). simpl in Hn.
      apply bind_Ok in Hn as (a & s0 & Ha & Hn).
      exists a, s0. split; [done|]. apply IH. by exists st1, s1.
Qed.

Lemma for_each_app {A S} (l1 l2 : list A) (body : S -> A -> M W S) st s r s' :
  for_each (l1 ++ l2) body st s = Ok (r, s') <->
  exists st1 s1, for_each l1 body st s = Ok (st1, s1) /\
                 for_each l2 body st1 s1 = Ok (r, s').
Proof.
  revert st s. induction l1 as [|x l1 IH]; intros st s; simpl.
  - split.
    + intros H. exists st, s. by rewrite ret_Ok.
    + by intros (st1 & s1 & [-> ->]%ret_Ok & H).
  - rewrite bind_Ok. split.
    + intros (a & s0 & Ha & (st1 & s1 & H1 & H2)%IH).
      exists st1, s1. split; [|done]. rewrite bind_Ok. by exists a, s0.
    + intros (st1 & s1 & (a & s0 & Ha & H1)%bind_Ok & H2).
      exists a, s0. split; [done|]. apply IH. by exists st1, s1.
Qed.

(** A property every turn keeps holds when the loop is left. *)
Lemma for_range_inv {S} (P : S -> mem W -> Prop) n (body : S -> M W S) :
  (forall st s st' s', P st s -> body st s = Ok (st', s') -> P st' s') ->
  forall st s r s', P st s -> for_range n body st s = Ok (r, s') -> P r s'.
Proof.
  intros Hbody. induction n as [|n IH]; intros st s r s' HP H; simpl in H.
  - apply ret_Ok in H as [-> ->]. done.
  - apply bind_Ok in H as (st1 & s1 & Hb & H). eauto.
Qed.

Lemma for_each_inv {A S} (P : S -> mem W -> Prop) (l : list A)
    (body : S -> A -> M W S) :
  (forall st x s st' s', x ∈ l -> P st s -> body st x s = Ok (st', s') ->
                         P st' s') ->
  forall st s r s', P st s -> for_each l body st s = Ok (r, s') -> P r s'.
Proof.
  induction l as [|x l IH]; intros Hbody st s r s' HP H; simpl in H.
  - apply ret_Ok in H as [-> ->]. done.
  - apply bind_Ok in H as (st1 & s1 & Hb & H).
    eapply IH; [|by eapply Hbody; [left|..]|done].
    intros ???????. eapply Hbody; [by right|done..].
Qed.

(** *** The heap only grows *)

(** A statement extends the heap when every array that was allocated before
    it ran is unchanged, at the same reference, after it. *)
Definition extends {A} (m : M W A) : Prop :=
  forall s a s', m s = Ok (a, s') -> heap s `prefix_of` heap s'.

Lemma extends_ret {A} (a : A) : extends (ret a).
Proof. by intros s b s' [-> ->]%ret_Ok. Qed.

Lemma extends_bind {A B} (m : M W A) (k : A -> M W B) :
  extends m -> (forall a, extends (k a)) -> extends (bind m k).
Proof.
  intros Hm Hk s b s' (a & s1 & H1 & H2)%bind_Ok.
  etrans; [by eapply Hm|by eapply Hk].
Qed.

Lemma extends_raise {A} e : extends (raise e : M W A).
Proof. by intros s a s' H. Qed.

Lemma extends_lift {A} (r : result A) : extends (lift r).
Proof. by intros s a s' [_ ->]%lift_Ok. Qed.

Lemma extends_attr {A} (o : option A) : extends (attr o).
Proof. by intros s a s' [_ ->]%attr_Ok. Qed.

Lemma extends_read l : extends (read l).
Proof. by intros s a s' [_ ->]%read_Ok. Qed.

Lemma extends_alloc a : extends (alloc a).
Proof. intros s l s' [_ ->]%alloc_Ok. simpl. by apply prefix_app_r. Qed.

Lemma extends_extern {A} (g : W -> A * W) : extends (extern g).
Proof. by intros s a s' (w & _ & ->)%extern_Ok. Qed.

Lemma extends_extern_try {A} (g : W -> result (A * W)) :
  extends (extern_try g).
Proof. by intros s a s' (w & _ & ->)%extern_try_Ok. Qed.

Lemma extends_for_each {A S} (l : list A) (body : S -> A -> M W S) st :
  (forall st x, extends (body st x)) -> extends (for_each l body st).
Proof.
  intros Hb. revert st. induction l as [|x l IH]; intros st; simpl.
  - apply extends_ret.
  - apply extends_bind; auto.
Qed.

Lemma extends_for_range {S} n (body : S -> M W S) st :
  (forall st, extends (body st)) -> extends (for_range n body st).
Proof.
  intros Hb. revert st. induction n as [|n IH]; intros st; simpl.
  - apply extends_ret.
  - apply extends_bind; auto.
Qed.

End Statements.

Create HintDb extends.

#[export] Hint Resolve extends_ret extends_raise extends_lift extends_attr
  extends_read extends_alloc extends_extern extends_extern_try : extends.

(** Splits a run that returned into the runs of its statements. *)
Ltac run_inv H :=
  repeat match type of H with
  | bind _ _ _ = Ok _ =>
      let a := fresh "a" in let s := fresh "s" in let H1 := fresh "H" in
      apply bind_Ok in H as (a & s & H1 & H)
  end.

(** Proves [extends] of a statement built from statements that extend. *)
Ltac extends_tac :=
  repeat first
    [ progress intros
    | apply extends_bind
    | apply extends_for_each
    | apply extends_for_range
    | solve [auto with extends]
    | match goal with
      | |- extends (match ?x with _ => _ end) => destruct x
      | |- extends (let '(_, _) := ?x in _) => destruct x
      end ].

(** ** [main.py]: the optimizer session *)

Section Session.
Context {W : Type} (lib : Optuna W).

Lemma register_Ok ds self Xy (s s' : mem W) self' :
  register lib ds self Xy s = Ok (self', s') ->
  s' = s /\
  exists st, study self = Some st /\
    self' = mkOptimizer (sampler self)
              (Some (add_trial st (observation_trial ds Xy))) /\
    valid_trial lib (observation_trial ds Xy) = true.
Proof.
  destruct Xy as [X y]. unfold register. intros H. run_inv H.
  apply lift_Ok in H0 as [Hv ->]. apply lift_Ok in H1 as [Ht ->].
  apply attr_Ok in H2 as [Hst ->]. apply ret_Ok in H as [-> ->].
  split; [done|]. exists a1. split; [done|].
  unfold create_trial in Ht. unfold observation_trial. simpl.
  destruct y as [|v y]; [done|]. injection Hv as <-. simpl.
  destruct (valid_trial lib _) eqn:E; [|done]. by injection Ht as <-.
Qed.

(** Replaying observations adds their trials to the study, in their
    order. *)
Lemma register_all ds pairs : forall self (s s' : mem W) self',
  for_each pairs (register lib ds) self s = Ok (self', s') ->
  s' = s /\ sampler self' = sampler self /\
  match study self with
  | Some st =>
      study self' =
        Some (mkStudy (study_direction st) (study_sampler st)
                (trials st ++ map (observation_trial ds) pairs))
  | None => pairs = [] /\ study self' = None
  end.
Proof.
  induction pairs as [|Xy pairs IH]; intros self s s' self' H; simpl in H.
  - apply ret_Ok in H as [-> ->]. repeat split.
    destruct (study self) as [[d sm ts]|] eqn:E; [|done].
    simpl. by rewrite app_nil_r.
  - apply bind_Ok in H as (self1 & s1 & H1 & H).
    apply register_Ok in H1 as (-> & st & Hst & -> & _).
    apply IH in H as (-> & Hs & H). simpl in *.
    rewrite Hst. repeat split; [done|]. rewrite H. by rewrite <- app_assoc.
Qed.

Lemma set_samples_Ok self Xs ys ds (s s' : mem W) self' :
  _set_samples lib self Xs ys ds s = Ok (self', s') ->
  s' = s /\ sampler self' = sampler self /\
  exists Xa ya, heap s !! Xs = Some Xa /\ heap s !! ys = Some ya /\
    match study self with
    | Some st =>
        study self' =
          Some (mkStudy (study_direction st) (study_sampler st)
                  (trials st ++
                   map (observation_trial ds) (zip (rows Xa) (rows ya))))
    | None => study self' = None
    end.
Proof.
  unfold _set_samples. intros H. run_inv H.
  apply read_Ok in H0 as [HX ->]. apply read_Ok in H1 as [Hy ->].
  apply register_all in H as (-> & Hs & H).
  repeat split; [done|]. exists a, a0. repeat split; [done..|].
  destruct (study self); [done|]. by destruct H.
Qed.

Lemma record_param_running pre t st name d v :
  trials st = pre ++ [t] ->
  trials (record_param st (length pre) name d v)
  = pre ++ [set_param name d v t].
Proof.
  intros Ht. unfold record_param. simpl. rewrite Ht.
  replace (length pre) with (length pre + 0) by lia.
  by rewrite alter_app_r.
Qed.

Lemma suggest_float_Ok st number name low high (s s' : mem W) r :
  suggest_float lib st number name low high s = Ok (r, s') ->
  heap s' = heap s /\
  snd r = record_param st number name (FloatDistribution low high) (fst r) /\
  exists w w', sample_float lib st number name low high w = Ok (fst r, w').
Proof.
  unfold suggest_float. intros H. run_inv H.
  apply extern_try_Ok in H0 as (w & Hw & ->).
  apply ret_Ok in H as [-> ->]. simpl. eauto.
Qed.

Lemma suggest_categorical_Ok st number name choices (s s' : mem W) r :
  suggest_categorical lib st number name choices s = Ok (r, s') ->
  heap s' = heap s /\
  snd r = record_param st number name (CategoricalDistribution choices)
            (fst r) /\
  exists w w', sample_categorical lib st number name choices w
               = Ok (fst r, w').
Proof.
  unfold suggest_categorical. intros H. run_inv H.
  apply extern_try_Ok in H0 as (w & Hw & ->).
  apply ret_Ok in H as [-> ->]. simpl. eauto.
Qed.

(** The loop of [get_candidate] appends, for every feature it asks a value
    for and in their order, the value the library proposed; it leaves the
    heap as it is and only touches the running trial of the study. *)
Lemma suggest_all pre ds : forall st acc t (s s' : mem W) r,
  for_each ds (suggest lib (length pre)) (st, acc) s = Ok (r, s') ->
  trials st = pre ++ [t] -> state t = RUNNING ->
  heap s' = heap s /\
  exists vals t',
    snd r = acc ++ vals /\
    Forall2 (proposed lib) (filter supported ds) vals /\
    trials (fst r) = pre ++ [t'] /\ state t' = RUNNING /\
    study_direction (fst r) = study_direction st /\
    study_sampler (fst r) = study_sampler st.
Proof.
  induction ds as [|[name d] ds IH]; intros st acc t s s' r H Ht Hr;
    simpl in H.
  - apply ret_Ok in H as [-> ->]. split; [done|]. exists [], t. simpl.
    rewrite app_nil_r. repeat split; try done; constructor.
  - apply bind_Ok in H as ([st1 acc1] & s1 & H1 & H).
    destruct d as [low high|choices|low high]; simpl in H1.
    + run_inv H1. apply ret_Ok in H1 as [[= -> ->] ->].
      apply suggest_float_Ok in H0 as (Hh0 & Hst & w & w' & Hw).
      rewrite Hst in H.
      eapply IH in H as (Hh & vals & t' & Hv & HF & Ht' & Hr' & Hd & Hs);
        [|by apply record_param_running|done].
      split; [congruence|]. exists (fst a :: vals), t'. simpl in *.
      rewrite Hv, <- app_assoc. repeat split; try done.
      rewrite filter_cons_True by done. constructor; [|done].
      unfold proposed. simpl. eauto.
    + run_inv H1. apply ret_Ok in H1 as [[= -> ->] ->].
      apply suggest_categorical_Ok in H0 as (Hh0 & Hst & w & w' & Hw).
      rewrite Hst in H.
      eapply IH in H as (Hh & vals & t' & Hv & HF & Ht' & Hr' & Hd & Hs);
        [|by apply record_param_running|done].
      split; [congruence|]. exists (fst a :: vals), t'. simpl in *.
      rewrite Hv, <- app_assoc. repeat split; try done.
      rewrite filter_cons_True by done. constructor; [|done].
      unfold proposed. simpl. eauto.
    + apply ret_Ok in H1 as [[= -> ->] ->].
      eapply IH in H as (Hh & vals & t' & Hv & HF & Ht' & Hr' & Hd & Hs);
        [|done..].
      split; [done|]. exists vals, t'. repeat split; done.
Qed.

(** What a call of [get_candidate] that returned did. *)
Lemma get_candidate_Ok self Xs ys ds (s s' : mem W) self' new_X :
  get_candidate lib self Xs ys ds s = Ok ((self', new_X), s') ->
  exists Xa ya st row running,
    heap s !! Xs = Some Xa /\ heap s !! ys = Some ya /\
    study self = Some st /\
    new_X = length (heap s) /\
    heap s' = heap s ++ [row_vector row] /\
    sampler self' = sampler self /\
    study self' =
      Some (mkStudy (study_direction st) (study_sampler st)
              ((trials st ++
                map (observation_trial ds) (zip (rows Xa) (rows ya)))
               ++ [running])) /\
    state running = RUNNING /\
    Forall2 (proposed lib) (filter supported ds) row.
Proof.
  unfold get_candidate. intros H. run_inv H.
  apply set_samples_Ok in H0 as (-> & Hs & Xa & ya & HX & Hy & Hst).
  apply attr_Ok in H1 as [Ha ->].
  destruct (study self) as [st|] eqn:Est; [|congruence].
  rewrite Ha in Hst. injection Hst as ->. unfold ask in H. simpl in H.
  apply bind_Ok in H as ([st' row] & s2 & Hl & H).
  apply bind_Ok in H as (l & s3 & Hal & H).
  eapply suggest_all in Hl as (Hh & vals & t' & Hv & HF & Ht' & Hr' & Hd & Hsm);
    [|done..].
  apply alloc_Ok in Hal as [-> ->]. apply ret_Ok in H as [[= -> ->] ->].
  simpl in *. subst row.
  exists Xa, ya, st, vals, t'. rewrite Hh. repeat split; try done.
  destruct st' as [d' sm' ts']. simpl in *. by subst.
Qed.

Lemma get_candidate_no_study self Xs ys ds (s : mem W) :
  study self = None ->
  exists e, get_candidate lib self Xs ys ds s = Raise e.
Proof.
  intros Hst. destruct (get_candidate lib self Xs ys ds s) as [[[o l] s']|e]
    eqn:E; [|by exists e].
  apply get_candidate_Ok in E as (? & ? & ? & ? & ? & _ & _ & ? & _).
  congruence.
Qed.

Lemma create_study_Ok self d (s s' : mem W) self' :
  create_study self d s = Ok (self', s') ->
  s' = s /\ exists sm dir,
    sampler self = Some sm /\
    self' = mkOptimizer (Some sm) (Some (mkStudy dir sm [])).
Proof.
  unfold create_study. intros H. run_inv H.
  apply attr_Ok in H0 as [Hs ->]. apply lift_Ok in H1 as [Hc ->].
  apply ret_Ok in H as [-> ->]. split; [done|].
  unfold optuna_create_study in Hc. rewrite Hs.
  destruct (String.eqb d "minimize"); [injection Hc as <-; eauto|].
  destruct (String.eqb d "maximize"); [injection Hc as <-; eauto|done].
Qed.

End Session.

(** ** [main.py]: the loop of [run_optimization] *)

Section Run.
Context {W : Type} (lib : Optuna W) (func : TargetFunction W).

(** One turn of the loop: the study it builds, the candidate it asks for,
    and the four arrays it allocates (the candidate, its value, and the two
    grown sequences). *)
Lemma iteration_Ok d self Xs ys (s s' : mem W) self' Xs' ys' :
  iteration lib func d (self, Xs, ys) s = Ok ((self', Xs', ys'), s') ->
  exists sm dir Xa ya row running,
    sampler self = Some sm /\
    heap s !! Xs = Some Xa /\ heap s !! ys = Some ya /\
    sampler self' = Some sm /\
    study self' =
      Some (mkStudy dir sm
              (map (observation_trial (distributions func))
                 (zip (rows Xa) (rows ya)) ++ [running])) /\
    state running = RUNNING /\
    Forall2 (proposed lib) (filter supported (distributions func)) row /\
    heap s' =
      heap s ++ [row_vector row; f func (row_vector row);
                 array2 (ncols Xa) (rows Xa ++ [row]);
                 array2 (ncols ya)
                   (rows ya ++ rows (f func (row_vector row)))] /\
    Xs' = length (heap s) + 2 /\ ys' = length (heap s) + 3.
Proof.
  unfold iteration. intros H.
  apply bind_Ok in H as (self1 & s1 & Hc & H).
  apply bind_Ok in H as ([self2 new_X] & s2 & Hg & H).
  apply bind_Ok in H as (new_y & s3 & Hf & H).
  apply bind_Ok in H as (Xs1 & s4 & HX & H).
  apply bind_Ok in H as (ys1 & s5 & Hy & H).
  apply ret_Ok in H as [[= -> -> ->] ->]. simpl in *.
  apply create_study_Ok in Hc as (-> & sm & dir & Hsm & ->).
  apply get_candidate_Ok in Hg
    as (Xa & ya & st & row & running & HXa & Hya & Hst & -> & Hh2 & Hs2
        & Hst2 & Hrun & Hrow).
  simpl in *. injection Hst as <-. simpl in *.
  apply call_f_Ok in Hf as (a & Ha & -> & ->).
  rewrite Hh2 in Ha. rewrite lookup_app_r, Nat.sub_diag in Ha by done.
  injection Ha as <-.
  apply np_concatenate_Ok in HX as (a & b & Ha & Hb & Hcols & -> & ->).
  simpl in *. rewrite Hh2 in Ha, Hb.
  rewrite <- app_assoc in Ha, Hb.
  rewrite lookup_app_l in Ha by (by eapply lookup_lt_Some).
  rewrite lookup_app_r, Nat.sub_diag in Hb by done. simpl in Hb.
  assert (a = Xa) as -> by congruence. injection Hb as <-.
  apply np_concatenate_Ok in Hy as (a' & b' & Ha' & Hb' & Hcols' & -> & ->).
  simpl in *. rewrite Hh2 in Ha', Hb'. rewrite <- !app_assoc in Ha', Hb'.
  rewrite lookup_app_l in Ha' by (by eapply lookup_lt_Some).
  rewrite lookup_app_r in Hb' by (rewrite !length_app; simpl; lia).
  replace (length (heap s ++ [row_vector row]) - length (heap s)) with 1
    in Hb' by (rewrite length_app; simpl; lia).
  simpl in Hb'.
  assert (a' = ya) as -> by congruence. injection Hb' as <-.
  exists sm, dir, Xa, ya, row, running.
  rewrite Hh2, <- !app_assoc, !length_app. simpl.
  repeat split; try done; lia.
Qed.

Lemma run_iterations_O d X_init y_init name (s s' : mem W) st :
  run_iterations lib func d X_init y_init name 0 s = Ok (st, s') ->
  exists X0 y0,
    heap s !! X_init = Some X0 /\ (heap s ++ [X0]) !! y_init = Some y0 /\
    st = (__init__ name, length (heap s), S (length (heap s))) /\
    s' = Mem (heap s ++ [X0; y0]) (world s).
Proof.
  unfold run_iterations. simpl. intros H.
  apply bind_Ok in H as (Xs & s1 & HX & H).
  apply bind_Ok in H as (ys & s2 & Hy & H).
  apply ret_Ok in H as [-> ->].
  apply np_copy_Ok in HX as (X0 & HX0 & -> & ->).
  apply np_copy_Ok in Hy as (y0 & Hy0 & -> & ->). simpl in *.
  exists X0, y0. rewrite length_app, <- app_assoc. simpl.
  repeat split; try done. repeat f_equal. lia.
Qed.

Lemma run_iterations_S d X_init y_init name k (s s' : mem W) st :
  run_iterations lib func d X_init y_init name (S k) s = Ok (st, s') <->
  exists st1 s1,
    run_iterations lib func d X_init y_init name k s = Ok (st1, s1) /\
    iteration lib func d st1 s1 = Ok (st, s').
Proof.
  unfold run_iterations. rewrite !bind_Ok. split.
  - intros (Xs & s1 & HX & (ys & s2 & Hy & H)%bind_Ok).
    apply for_range_last in H as (st1 & s3 & H & Hi).
    exists st1, s3. split; [|done].
    apply bind_Ok. exists Xs, s1. split; [done|].
    apply bind_Ok. by exists ys, s2.
  - intros (st1 & s3 & (Xs & s1 & HX & (ys & s2 & Hy & H)%bind_Ok)%bind_Ok
            & Hi).
    exists Xs, s1. split; [done|]. apply bind_Ok. exists ys, s2.
    split; [done|]. apply for_range_last. by exists st1, s3.
Qed.

(** The value of one candidate is one row of one entry. *)
Lemma evaluates_one_row row :
  evaluates_rows func ->
  exists v, rows (f func (row_vector row)) = [[v]].
Proof.
  intros Hf. destruct (Hf (row_vector row)) as (Hc & Hl & Hw). simpl in Hl.
  unfold well_shaped in Hw. rewrite Hc in Hw.
  destruct (rows (f func (row_vector row))) as [|r [|??]]; try done.
  apply Forall_cons in Hw as [Hr _].
  destruct r as [|v [|??]]; try done. by exists v.
Qed.

(** After [k] turns the two sequences are the initial batch followed by
    [k] new elements, in new arrays; the heap that was there is intact. *)
Lemma run_iterations_rows d X_init y_init name X0 y0 k :
  forall (s s' : mem W) self Xs ys,
  evaluates_rows func ->
  heap s !! X_init = Some X0 -> heap s !! y_init = Some y0 ->
  run_iterations lib func d X_init y_init name k s = Ok ((self, Xs, ys), s') ->
  exists Xa ya newX newy,
    heap s' !! Xs = Some Xa /\ heap s' !! ys = Some ya /\
    ncols Xa = ncols X0 /\ ncols ya = ncols y0 /\
    rows Xa = rows X0 ++ newX /\ rows ya = rows y0 ++ newy /\
    length newX = k /\ length newy = k /\
    Forall (fun r => length r = 1) newy /\
    heap s `prefix_of` heap s' /\
    length (heap s) <= Xs /\ length (heap s) <= ys /\ Xs <> ys.
Proof.
  induction k as [|k IH]; intros s s' self Xs ys Hf HX0 Hy0 H.
  - apply run_iterations_O in H as (X0' & y0' & HX0' & Hy0' & [= -> -> ->] & ->).
    rewrite lookup_app_l in Hy0' by (by eapply lookup_lt_Some).
    assert (X0' = X0) as -> by congruence.
    assert (y0' = y0) as -> by congruence.
    exists X0, y0, [], []. simpl. rewrite !app_nil_r.
    repeat split; try done; try lia.
    + by rewrite lookup_app_r, Nat.sub_diag.
    + rewrite lookup_app_r by lia. by replace (_ - _) with 1 by lia.
    + by apply prefix_app_r.
  - apply run_iterations_S in H as ([[self1 Xs1] ys1] & s1 & Hk & Hi).
    apply IH in Hk
      as (Xa & ya & newX & newy & HXa & Hya & HcX & Hcy & HrX & Hry & HlX
          & Hly & Hone & Hpre & HXs & Hys & Hne); [|done..].
    apply iteration_Ok in Hi
      as (sm & dir & Xa' & ya' & row & running & _ & HXa' & Hya' & _ & _ & _
          & _ & Hh & -> & ->).
    assert (Xa' = Xa) as -> by congruence.
    assert (ya' = ya) as -> by congruence.
    destruct (evaluates_one_row row Hf) as [v Hv]. rewrite Hv in Hh.
    exists (array2 (ncols Xa) (rows Xa ++ [row])),
      (array2 (ncols ya) (rows ya ++ [[v]])), (newX ++ [row]),
      (newy ++ [[v]]).
    apply prefix_length in Hpre as Hlen.
    simpl. rewrite Hh, HrX, Hry, <- !app_assoc, !length_app. simpl.
    repeat split; try done; try lia.
    + rewrite lookup_app_r by lia. by replace (_ - _) with 2 by lia.
    + rewrite lookup_app_r by lia. by replace (_ - _) with 3 by lia.
    + apply Forall_app. split; [done|]. by repeat constructor.
    + etrans; [done|]. by apply prefix_app_r.
Qed.

End Run.

(** ** [main.py]: what a turn asks the library *)

Lemma dict_set_new {A} (d : list (string * A)) k v :
  k ∉ map fst d -> dict_set d k v = d ++ [(k, v)].
Proof.
  induction d as [|[k' v'] d IH]; intros Hk; simpl; [done|].
  simpl in Hk. apply not_elem_of_cons in Hk as [Hne Hk].
  destruct (String.eqb k' k) eqn:E.
  - apply String.eqb_eq in E. congruence.
  - by rewrite IH.
Qed.

Lemma make_params_from features : forall (X : list float) acc,
  NoDup (map fst acc ++ features) ->
  fold_left (fun ps '(feature, x) => dict_set ps feature x)
    (zip features X) acc
  = acc ++ zip features X.
Proof.
  induction features as [|k features IH]; intros X acc Hnd; simpl.
  - by rewrite app_nil_r.
  - destruct X as [|x X]; simpl; [by rewrite app_nil_r|].
    apply NoDup_app in Hnd as (Hacc & Hdis & Hfs).
    apply NoDup_cons in Hfs as [Hk Hfs].
    rewrite dict_set_new.
    2:{ intros Hin. apply (Hdis _ Hin). apply list_elem_of_here. }
    rewrite IH.
    + by rewrite <- app_assoc.
    + rewrite map_app. simpl. rewrite <- app_assoc. simpl.
      apply NoDup_app. split; [done|]. split.
      * intros k' Hin Hin'. apply elem_of_cons in Hin' as [->|Hin'].
        -- apply (Hdis _ Hin). apply list_elem_of_here.
        -- apply (Hdis _ Hin). by apply list_elem_of_further.
      * by apply NoDup_cons.
Qed.

(** For the keys of a [dict], the trial [_set_samples] builds for an
    observation is the one to be replayed. *)
Lemma observation_trial_replayed ds Xy :
  NoDup (map fst ds) -> observation_trial ds Xy = replayed ds Xy.
Proof.
  intros Hnd. unfold observation_trial, replayed, make_params.
  by rewrite make_params_from.
Qed.

Section Asked.
Context {W : Type} (lib : Optuna W) (func : TargetFunction W).

Lemma create_study_exact self d (s s' : mem W) self' :
  create_study self d s = Ok (self', s') ->
  exists sm, sampler self = Some sm /\ is_direction d /\
    self' = mkOptimizer (Some sm) (Some (mkStudy (direction_of d) sm [])).
Proof.
  unfold create_study. intros H.
  apply bind_Ok in H as (sm & s1 & [Hs ->]%attr_Ok & H).
  apply bind_Ok in H as (st & s2 & [Hc ->]%lift_Ok & [-> ->]%ret_Ok).
  exists sm. split; [done|]. rewrite Hs.
  unfold optuna_create_study, direction_of, is_direction in *.
  destruct (String.eqb d "minimize") eqn:E1.
  - apply String.eqb_eq in E1. injection Hc as <-. auto.
  - destruct (String.eqb d "maximize") eqn:E2; [|done].
    apply String.eqb_eq in E2. injection Hc as <-. auto.
Qed.

(** The loop of [get_candidate] asks the library, feature after feature,
    for the study as the suggestions made so far have left it. *)
Lemma suggest_asked number ds : forall st acc (s s' : mem W) r,
  for_each ds (suggest lib number) (st, acc) s = Ok (r, s') ->
  exists row,
    snd r = acc ++ row /\
    asked lib number ds st (world s) row (fst r) (world s') /\
    heap s' = heap s.
Proof.
  induction ds as [|[name d] ds IH]; intros st acc s s' r H; simpl in H.
  - apply ret_Ok in H as [-> ->]. exists []. simpl.
    by rewrite app_nil_r.
  - apply bind_Ok in H as ([st1 acc1] & s1 & H1 & H).
    destruct d as [low high|choices|low high]; simpl in H1.
    + apply bind_Ok in H1 as (r0 & s2 & Hs & [[= -> ->] ->]%ret_Ok).
      unfold suggest_float in Hs.
      apply bind_Ok in Hs
        as (v & s3 & (w1 & Hw & ->)%extern_try_Ok & [-> ->]%ret_Ok).
      simpl in H.
      apply IH in H as (row & Hrow & Hasked & Hh). simpl in *.
      exists (v :: row). rewrite Hrow, <- app_assoc. split; [done|].
      split; [|done]. by exists v, w1, row.
    + apply bind_Ok in H1 as (r0 & s2 & Hs & [[= -> ->] ->]%ret_Ok).
      unfold suggest_categorical in Hs.
      apply bind_Ok in Hs
        as (v & s3 & (w1 & Hw & ->)%extern_try_Ok & [-> ->]%ret_Ok).
      simpl in H.
      apply IH in H as (row & Hrow & Hasked & Hh). simpl in *.
      exists (v :: row). rewrite Hrow, <- app_assoc. split; [done|].
      split; [|done]. by exists v, w1, row.
    + apply ret_Ok in H1 as [[= -> ->] ->]. by apply IH in H.
Qed.

(** What a trial is suggested changes nothing of the study but this
    trial, which stays the running one. *)
Lemma asked_running pre ds : forall st (w w' : W) row st' t,
  asked lib (length pre) ds st w row st' w' ->
  trials st = pre ++ [t] -> state t = RUNNING ->
  exists t',
    st' = mkStudy (study_direction st) (study_sampler st) (pre ++ [t']) /\
    state t' = RUNNING.
Proof.
  induction ds as [|[name d] ds IH]; intros st w w' row st' t H Ht Hr;
    simpl in H.
  - destruct H as (_ & -> & _). exists t. split; [|done].
    destruct st as [dir sm ts]. simpl in *. by subst.
  - destruct d as [low high|choices|low high].
    + destruct H as (v & w1 & row' & _ & _ & H).
      eapply IH in H as (t' & -> & Hr');
        [by exists t'|by apply record_param_running|done].
    + destruct H as (v & w1 & row' & _ & _ & H).
      eapply IH in H as (t' & -> & Hr');
        [by exists t'|by apply record_param_running|done].
    + by eapply IH.
Qed.

(** [get_candidate]: the observations are replayed into the study, one
    trial is asked for, and the row returned is what this trial was
    suggested. *)
Lemma get_candidate_asked self Xs ys ds (s s' : mem W) self' new_X :
  get_candidate lib self Xs ys ds s = Ok ((self', new_X), s') ->
  exists Xa ya st row st',
    heap s !! Xs = Some Xa /\ heap s !! ys = Some ya /\
    study self = Some st /\
    asked lib
      (length (trials st
               ++ map (observation_trial ds) (zip (rows Xa) (rows ya))))
      ds
      (mkStudy (study_direction st) (study_sampler st)
         ((trials st ++ map (observation_trial ds) (zip (rows Xa) (rows ya)))
          ++ [Trial RUNNING [] [] None]))
      (world s) row st' (world s') /\
    study self' = Some st' /\
    new_X = length (heap s) /\
    heap s' = heap s ++ [row_vector row].
Proof.
  unfold get_candidate. intros H.
  apply bind_Ok in H as (self1 & s1 & Hset & H).
  apply bind_Ok in H as (st1 & s2 & [Hst1 ->]%attr_Ok & H).
  apply set_samples_Ok in Hset as (-> & Hs & Xa & ya & HX & Hy & Hst).
  destruct (study self) as [st|] eqn:Est; [|congruence].
  rewrite Hst1 in Hst. injection Hst as ->. unfold ask in H. simpl in H.
  apply bind_Ok in H as ([st2 row] & s3 & Hl & H).
  apply bind_Ok in H as (l & s4 & [-> ->]%alloc_Ok & [[= -> ->] ->]%ret_Ok).
  apply suggest_asked in Hl as (row' & Hrow & Hasked & Hh).
  simpl in *. subst row.
  exists Xa, ya, st, row', st2. rewrite Hh. by repeat split.
Qed.

(** One turn of the loop of [run_optimization]: the study is created with
    the sampler of the session and the direction given, the observations
    are replayed into it, and the candidate appended to the points is what
    its one running trial was suggested. *)
Lemma iteration_asked d self Xs ys (s s' : mem W) self' Xs' ys' :
  iteration lib func d (self, Xs, ys) s = Ok ((self', Xs', ys'), s') ->
  exists sm Xa ya row st',
    sampler self = Some sm /\ is_direction d /\
    heap s !! Xs = Some Xa /\ heap s !! ys = Some ya /\
    study self' = Some st' /\
    asked lib (length (zip (rows Xa) (rows ya))) (distributions func)
      (mkStudy (direction_of d) sm
         (map (observation_trial (distributions func))
            (zip (rows Xa) (rows ya))
          ++ [Trial RUNNING [] [] None]))
      (world s) row st' (world s') /\
    heap s' !! Xs' = Some (array2 (ncols Xa) (rows Xa ++ [row])) /\
    heap s' !! ys'
    = Some (array2 (ncols ya)
              (rows ya ++ rows (f func (row_vector row)))).
Proof.
  intros H. pose proof H as H'.
  apply iteration_Ok in H'
    as (sm0 & dir & Xa0 & ya0 & row0 & running & _ & HXa0 & Hya0 & _ & _ & _
        & _ & Hh & -> & ->).
  unfold iteration in H.
  apply bind_Ok in H as (self1 & s1 & Hc & H).
  apply bind_Ok in H as ([self2 new_X] & s2 & Hg & H).
  apply bind_Ok in H as (new_y & s3 & Hf & H).
  apply bind_Ok in H as (Xs1 & s4 & HX & H).
  apply bind_Ok in H as (ys1 & s5 & Hy & [[= -> _ _] ->]%ret_Ok).
  pose proof Hc as Hs1. apply create_study_Ok in Hs1 as (-> & _).
  apply create_study_exact in Hc as (sm & Hsm & Hd & ->).
  apply get_candidate_asked in Hg
    as (Xa & ya & st & row & st' & HXa & Hya & Hst & Hasked & Hst' & ->
        & Hh2).
  simpl in *. injection Hst as <-. simpl in *.
  rewrite length_map in Hasked.
  apply call_f_Ok in Hf as (a & _ & -> & ->).
  apply np_concatenate_Ok in HX as (? & ? & _ & _ & _ & _ & ->).
  apply np_concatenate_Ok in Hy as (? & ? & _ & _ & _ & _ & ->).
  simpl in *.
  assert (Xa0 = Xa) as -> by congruence.
  assert (ya0 = ya) as -> by congruence.
  assert (row0 = row) as ->.
  { rewrite Hh2, <- !app_assoc in Hh. simpl in Hh.
    apply app_inv_head in Hh. by injection Hh as _ ->. }
  exists sm, Xa, ya, row, st'. rewrite Hh.
  rewrite !lookup_app_r by lia.
  replace (length (heap s) + 2 - length (heap s)) with 2 by lia.
  replace (length (heap s) + 3 - length (heap s)) with 3 by lia.
  by repeat split.
Qed.

End Asked.

(** ** [main.py]: the trials of [main] *)

Section Extends.
Context {W : Type} (lib : Optuna W) (func : TargetFunction W).

Lemma extends_np_copy x : extends (np_copy x : M W loc).
Proof. unfold np_copy. extends_tac. Qed.

Lemma extends_np_concatenate x y : extends (np_concatenate x y : M W loc).
Proof. unfold np_concatenate. extends_tac. Qed.

Lemma extends_call_f X : extends (call_f func X).
Proof. unfold call_f. extends_tac. Qed.

Lemma extends_call_random_x : extends (call_random_x func).
Proof. unfold call_random_x. extends_tac. Qed.

Lemma extends_create_study self d : extends (create_study self d : M W _).
Proof. unfold create_study. extends_tac. Qed.

Lemma extends_get_candidate self Xs ys ds :
  extends (get_candidate lib self Xs ys ds).
Proof.
  intros s [self' l] s' H.
  apply get_candidate_Ok in H as (? & ? & ? & ? & ? & _ & _ & _ & _ & -> & _).
  by apply prefix_app_r.
Qed.

Lemma extends_iteration d st : extends (iteration lib func d st).
Proof.
  intros s [[self' Xs'] ys'] s' H. destruct st as [[self Xs] ys].
  apply iteration_Ok in H
    as (? & ? & ? & ? & ? & ? & _ & _ & _ & _ & _ & _ & _ & -> & _).
  by apply prefix_app_r.
Qed.

Lemma extends_run_iterations d X_init y_init name k :
  extends (run_iterations lib func d X_init y_init name k).
Proof.
  unfold run_iterations.
  apply extends_bind; [apply extends_np_copy|intros Xs].
  apply extends_bind; [apply extends_np_copy|intros ys].
  apply extends_for_range. apply extends_iteration.
Qed.

Lemma extends_run_optimization d X_init y_init name k :
  extends (run_optimization lib func d X_init y_init name k).
Proof.
  unfold run_optimization.
  apply extends_bind; [apply extends_run_iterations|intros].
  apply extends_ret.
Qed.

Lemma extends_draw_initial st : extends (draw_initial func st).
Proof.
  destruct st as [X y]. unfold draw_initial.
  apply extends_bind; [apply extends_call_random_x|intros].
  apply extends_bind; [apply extends_call_f|intros].
  apply extends_bind; [apply extends_np_concatenate|intros].
  apply extends_bind; [apply extends_np_concatenate|intros].
  apply extends_ret.
Qed.

Lemma extends_initial_batch n : extends (initial_batch func n).
Proof.
  unfold initial_batch.
  apply extends_bind; [apply extends_call_random_x|intros].
  apply extends_bind; [apply extends_call_f|intros].
  apply extends_for_range. apply extends_draw_initial.
Qed.

Lemma extends_random_search r : extends (random_search func r).
Proof.
  unfold random_search.
  apply extends_bind; [apply extends_call_random_x|intros].
  apply extends_bind; [apply extends_call_f|intros].
  apply extends_np_concatenate.
Qed.

Lemma extends_search_with d X_init y_init n tbl m :
  extends (search_with lib func d X_init y_init n tbl m).
Proof.
  unfold search_with.
  apply extends_bind; [apply extends_run_optimization|intros].
  apply extends_ret.
Qed.

Lemma extends_trial d n k ms : extends (trial lib func d n k ms).
Proof.
  unfold trial.
  apply extends_bind; [apply extends_initial_batch|intros].
  apply extends_bind; [apply extends_np_copy|intros].
  apply extends_bind;
    [apply extends_for_range; apply extends_random_search|intros].
  apply extends_bind;
    [apply extends_for_each; intros; apply extends_search_with|intros].
  apply extends_ret.
Qed.

End Extends.

Section TrialRows.
Context {W : Type} (lib : Optuna W) (func : TargetFunction W).
Hypothesis Hf : evaluates_rows func.
Hypothesis Hx : draws_one_row func.

Lemma grown_refl a : grown a 0 a.
Proof. split; [done|]. exists []. by rewrite app_nil_r. Qed.

Lemma grown_trans a b c j k : grown a j b -> grown b k c -> grown a (j + k) c.
Proof.
  intros (Hc & n1 & H1 & Hl1 & HF1) (Hc' & n2 & H2 & Hl2 & HF2).
  split; [congruence|]. exists (n1 ++ n2).
  rewrite H2, H1, <- app_assoc, length_app. repeat split; [lia|].
  by apply Forall_app.
Qed.

Lemma column_of_grown n k y0 a :
  column_of n y0 -> grown y0 k a -> column_of (n + k) a.
Proof.
  intros (Hc & Hl & HF) (Hc' & newy & Hr & Hk & HF').
  repeat split; [congruence| |].
  - rewrite Hr, length_app. lia.
  - rewrite Hr. by apply Forall_app.
Qed.

(** The value of a batch of one row is one row of one entry. *)
Lemma evaluates_single x :
  length (rows x) = 1 -> column_of 1 (f func x).
Proof.
  intros Hl. destruct (Hf x) as (Hc & Hn & Hw).
  unfold well_shaped in Hw. rewrite Hc in Hw. repeat split; [done|lia|done].
Qed.

(** [random_x] then [f]: the value of one new point. *)
Lemma draw_value (s s' : mem W) x y :
  call_random_x func s = Ok (x, s') ->
  forall s'', call_f func x s' = Ok (y, s'') ->
  exists xa,
    random_x func (world s) = (xa, world s'') /\
    heap s'' = heap s ++ [xa; f func xa] /\
    x = length (heap s) /\ y = S (length (heap s)) /\
    column_of 1 (f func xa).
Proof.
  intros (xa & w & Hr & -> & ->)%call_random_x_Ok s''
         (a & Ha & -> & ->)%call_f_Ok.
  simpl in *. rewrite lookup_app_r, Nat.sub_diag in Ha by done.
  injection Ha as <-. exists xa. rewrite <- app_assoc, length_app. simpl.
  repeat split; try done; try lia.
  - apply evaluates_single. specialize (Hx (world s)). by rewrite Hr in Hx.
  - apply evaluates_single. specialize (Hx (world s)). by rewrite Hr in Hx.
  - apply evaluates_single. specialize (Hx (world s)). by rewrite Hr in Hx.
Qed.

(** The loop of the random search grows its sequence by one value a
    turn. *)
Lemma random_search_rows k : forall r (s s' : mem W) r' a,
  heap s !! r = Some a ->
  for_range k (random_search func) r s = Ok (r', s') ->
  exists a', heap s' !! r' = Some a' /\ grown a k a'.
Proof.
  induction k as [|k IH]; intros r s s' r' a Ha H; simpl in H.
  - apply ret_Ok in H as [-> ->]. exists a. split; [done|apply grown_refl].
  - apply bind_Ok in H as (r1 & s1 & H1 & H). unfold random_search in H1.
    apply bind_Ok in H1 as (x & s2 & Hd & H1).
    apply bind_Ok in H1 as (y & s3 & Hv & H1).
    destruct (draw_value _ _ _ _ Hd _ Hv) as (xa & _ & Hh & -> & -> & Hcol).
    apply np_concatenate_Ok in H1 as (a1 & b & Ha1 & Hb & Hc & -> & ->).
    rewrite Hh in Ha1, Hb.
    rewrite lookup_app_l in Ha1 by (by eapply lookup_lt_Some).
    rewrite lookup_app_r in Hb by lia.
    replace (S (length (heap s)) - length (heap s)) with 1 in Hb by lia.
    simpl in Hb. injection Hb as <-.
    assert (a1 = a) as -> by congruence.
    eapply IH in H as (a' & Ha' & Hg).
    2:{ simpl. by rewrite lookup_app_r, Nat.sub_diag. }
    exists a'. split; [done|].
    replace (S k) with (1 + k) by lia. eapply grown_trans; [|done].
    destruct Hcol as (_ & Hl & HF). split; [done|]. simpl. eauto.
Qed.

(** A run of [run_optimization] returns, in a new array, the initial
    values grown by one value a turn. *)
Lemma run_optimization_rows d X_init y_init name k X0 y0
    (s s' : mem W) ys :
  heap s !! X_init = Some X0 -> heap s !! y_init = Some y0 ->
  run_optimization lib func d X_init y_init name k s = Ok (ys, s') ->
  exists a, heap s' !! ys = Some a /\ grown y0 k a /\
            length (heap s) <= ys.
Proof.
  intros HX0 Hy0 H. unfold run_optimization in H.
  apply bind_Ok in H as ([[self Xs] ys1] & s1 & H & [-> ->]%ret_Ok).
  eapply run_iterations_rows in H
    as (Xa & ya & newX & newy & _ & Hya & _ & Hc & _ & Hr & _ & Hl & HF & _
        & _ & Hfresh & _); [|done..].
  exists ya. repeat split; try done. by exists newy.
Qed.

Lemma drawn_length n : forall w, length (drawn func n w) = n.
Proof.
  induction n as [|n IH]; intros w; simpl; [done|].
  destruct (random_x func w) as [x w']. simpl. by rewrite IH.
Qed.

Lemma drawn_one_row n : forall w,
  Forall (fun x => length (rows x) = 1) (drawn func n w).
Proof.
  induction n as [|n IH]; intros w; simpl; [constructor|].
  destruct (random_x func w) as [x w'] eqn:E. constructor; [|apply IH].
  specialize (Hx w). by rewrite E in Hx.
Qed.

(** The values of points of one row each: one row of one entry a point. *)
Lemma values_rows xs :
  Forall (fun x => length (rows x) = 1) xs ->
  length (flat_map (fun x => rows (f func x)) xs) = length xs /\
  Forall (fun r => length r = 1) (flat_map (fun x => rows (f func x)) xs).
Proof.
  induction 1 as [|x xs Hx1 _ [IHl IHF]]; simpl; [by split|].
  destruct (evaluates_single x Hx1) as (_ & Hl & HF).
  rewrite length_app, Hl, IHl. split; [done|]. by apply Forall_app.
Qed.

(** The loop that completes the initial batch appends the value of every
    further point, in the order the points are drawn. *)
Lemma draw_initial_rows j : forall X y (s s' : mem W) X' y' Xa ya,
  heap s !! X = Some Xa -> heap s !! y = Some ya ->
  for_range j (draw_initial func) (X, y) s = Ok ((X', y'), s') ->
  exists ya',
    heap s' !! y' = Some ya' /\ is_Some (heap s' !! X') /\
    ncols ya' = ncols ya /\
    rows ya'
    = rows ya ++ flat_map (fun x => rows (f func x))
                   (drawn func j (world s)).
Proof.
  induction j as [|j IH]; intros X y s s' X' y' Xa ya HXa Hya H; simpl in H.
  - apply ret_Ok in H as [[= -> ->] ->]. exists ya. simpl.
    by rewrite app_nil_r.
  - apply bind_Ok in H as ([X1 y1] & s1 & H1 & H). unfold draw_initial in H1.
    apply bind_Ok in H1 as (x & s2 & Hd & H1).
    apply bind_Ok in H1 as (v & s3 & Hv & H1).
    destruct (draw_value _ _ _ _ Hd _ Hv) as (xa & Hw & Hh & -> & -> & Hcol).
    apply bind_Ok in H1 as (Xc & s4 & HXc & H1).
    apply bind_Ok in H1 as (yc & s5 & Hyc & H1).
    apply ret_Ok in H1 as [[= -> ->] ->].
    apply np_concatenate_Ok in HXc as (a1 & b1 & Ha1 & Hb1 & Hc1 & -> & ->).
    apply np_concatenate_Ok in Hyc as (a2 & b2 & Ha2 & Hb2 & Hc2 & -> & ->).
    simpl in *. rewrite Hh in *.
    rewrite <- app_assoc in Ha2, Hb2. simpl in Ha2, Hb2.
    rewrite lookup_app_l in Ha2 by (by eapply lookup_lt_Some).
    rewrite lookup_app_r in Hb2 by lia.
    replace (S (length (heap s)) - length (heap s)) with 1 in Hb2 by lia.
    simpl in Hb2. injection Hb2 as <-.
    assert (a2 = ya) as -> by congruence.
    eapply IH in H as (ya' & Hya' & HX' & Hc' & Hr').
    2:{ simpl. rewrite <- !app_assoc, !length_app. simpl.
        rewrite lookup_app_r by lia.
        by replace (_ - _) with 2 by lia. }
    2:{ simpl. rewrite <- !app_assoc, !length_app. simpl.
        rewrite lookup_app_r by lia.
        by replace (_ - _) with 3 by lia. }
    exists ya'. repeat split; try done. simpl in *.
    rewrite Hw. simpl. by rewrite Hr', <- app_assoc.
Qed.

(** The initial batch of a trial: the values of the points, in the order
    they are drawn, one to a row. *)
Lemma initial_batch_rows n (s s' : mem W) X y :
  initial_batch func n s = Ok ((X, y), s') ->
  exists ya,
    heap s' !! y = Some ya /\ is_Some (heap s' !! X) /\
    column_of (S (n - 1)) ya /\
    concat (rows ya) = values_of func (drawn func (S (n - 1)) (world s)).
Proof.
  unfold initial_batch. intros H.
  apply bind_Ok in H as (x & s1 & Hd & H).
  apply bind_Ok in H as (v & s2 & Hv & H).
  destruct (draw_value _ _ _ _ Hd _ Hv) as (xa & Hw & Hh & -> & -> & Hcol).
  eapply draw_initial_rows in H as (ya & Hya & HX & Hc & Hr).
  2:{ rewrite Hh. by rewrite lookup_app_r, Nat.sub_diag. }
  2:{ rewrite Hh. rewrite lookup_app_r by lia.
      by replace (_ - _) with 1 by lia. }
  exists ya. repeat split; try done.
  - rewrite Hc. by destruct Hcol.
  - pose proof (drawn_one_row (n - 1) (world s2)) as Hone.
    apply values_rows in Hone as [Hl _].
    rewrite Hr, length_app, Hl, drawn_length. by destruct Hcol as (_ & -> & _).
  - rewrite Hr. apply Forall_app. split; [by destruct Hcol as (_ & _ & ?)|].
    by apply values_rows, drawn_one_row.
  - unfold values_of. simpl. rewrite Hw. simpl. by rewrite Hr.
Qed.

(** The loop over the methods: every column of the table is the initial
    values grown by [k] values, and the table gains the column of every
    method. *)
Lemma search_all d X_init y_init k X0 y0 ms : forall tbl (s s' : mem W) tbl',
  heap s !! X_init = Some X0 -> heap s !! y_init = Some y0 ->
  (forall name l, tbl !! name = Some l ->
     exists a, heap s !! l = Some a /\ grown y0 k a) ->
  for_each ms (search_with lib func d X_init y_init k) tbl s
  = Ok (tbl', s') ->
  (forall name l, tbl' !! name = Some l ->
     exists a, heap s' !! l = Some a /\ grown y0 k a) /\
  (forall name, is_Some (tbl' !! name) <->
     is_Some (tbl !! name) \/ name ∈ map SamplerName_value ms) /\
  heap s `prefix_of` heap s'.
Proof.
  induction ms as [|m ms IH]; intros tbl s s' tbl' HX0 Hy0 Hinv H;
    simpl in H.
  - apply ret_Ok in H as [-> ->]. repeat split; try done.
    + by left.
    + intros [?|Hin]; [done|]. by apply elem_of_nil in Hin.
  - apply bind_Ok in H as (tbl1 & s1 & H1 & H). unfold search_with in H1.
    apply bind_Ok in H1 as (ys & s2 & Hrun & [-> ->]%ret_Ok).
    pose proof (extends_run_optimization lib func _ _ _ _ _ _ _ _ Hrun)
      as Hpre.
    eapply run_optimization_rows in Hrun as (a & Ha & Hg & _); [|done..].
    eapply IH in H as (Hinv' & Hdom & Hpre').
    + split; [done|split; [|by etrans]].
      intros name.
      change (map SamplerName_value (m :: ms))
        with (SamplerName_value m :: map SamplerName_value ms).
      rewrite Hdom, lookup_insert_is_Some, elem_of_cons.
      destruct (decide (SamplerName_value m = name)) as [->|]; naive_solver.
    + by eapply prefix_lookup_Some.
    + by eapply prefix_lookup_Some.
    + intros name l Hl. apply lookup_insert_Some in Hl as [[<- <-]|[_ Hl]].
      * by exists a.
      * destruct (Hinv _ _ Hl) as (a' & Ha' & Hg'). exists a'.
        split; [by eapply prefix_lookup_Some|done].
Qed.

(** A trial: the initial batch, and the columns of its table. *)
Lemma trial_columns d n k ms (s s' : mem W) X y tbl :
  trial lib func d n k ms s = Ok ((X, y, tbl), s') ->
  exists y0,
    heap s' !! y = Some y0 /\ is_Some (heap s' !! X) /\
    column_of (S (n - 1)) y0 /\
    concat (rows y0) = values_of func (drawn func (S (n - 1)) (world s)) /\
    (forall name l, tbl !! name = Some l ->
       exists a, heap s' !! l = Some a /\ grown y0 k a) /\
    (forall name, is_Some (tbl !! name) <->
       name = "Random"%string \/ name ∈ map SamplerName_value ms).
Proof.
  unfold trial. intros H.
  apply bind_Ok in H as ([X1 y1] & s1 & Hb & H).
  apply bind_Ok in H as (r0 & s2 & Hc & H).
  apply bind_Ok in H as (r & s3 & Hr & H).
  apply bind_Ok in H as (tbl1 & s4 & Hs & [[= -> -> ->] ->]%ret_Ok).
  simpl in *.
  apply initial_batch_rows in Hb as (y0 & Hy0 & [X0 HX0] & Hcol & Hval).
  apply np_copy_Ok in Hc as (a0 & Ha0 & -> & ->).
  assert (a0 = y0) as -> by congruence.
  pose proof (extends_for_range _ (random_search func) _
                (extends_random_search func) _ _ _ Hr) as Hpre3.
  eapply random_search_rows in Hr as (a & Ha & Hg).
  2:{ simpl. by rewrite lookup_app_r, Nat.sub_diag. }
  simpl in Hpre3.
  assert (Hpre : heap s1 `prefix_of` heap s3).
  { etrans; [|done]. by apply prefix_app_r. }
  eapply search_all in Hs as (Hinv & Hdom & Hpre4).
  - exists y0. repeat split; try done.
    + by do 2 (eapply prefix_lookup_Some; [|done]).
    + exists X0. by do 2 (eapply prefix_lookup_Some; [|done]).
    + by destruct Hcol.
    + by destruct Hcol as (_ & ? & _).
    + by destruct Hcol as (_ & _ & ?).
    + intros Hn. apply Hdom in Hn as [Hn|Hn]; [|by right].
      apply lookup_insert_is_Some in Hn as [<-|[_ Hn]]; [by left|].
      rewrite lookup_empty in Hn. by destruct Hn.
    + intros [->|Hn]; apply Hdom; [left|by right].
      rewrite lookup_insert_eq. eauto.
  - by eapply prefix_lookup_Some.
  - by eapply prefix_lookup_Some.
  - intros name l Hl. apply lookup_insert_Some in Hl as [[<- <-]|[_ Hl]].
    + by exists a.
    + by rewrite lookup_empty in Hl.
Qed.

End TrialRows.

(** *** The columns of a table *)

Lemma concat_single (l : list (list float)) :
  Forall (fun r => length r = 1) l -> length (concat l) = length l.
Proof.
  induction 1 as [|r l Hr _ IH]; simpl; [done|].
  rewrite length_app, Hr, IH. done.
Qed.

(** The squeezed view of a batch of two values or more is the vector of
    the values. *)
Lemma squeeze_column n a :
  column_of n a -> 2 <= n ->
  squeeze a = vector (concat (rows a)) /\ length (concat (rows a)) = n.
Proof.
  intros (Hc & Hl & HF) Hn. apply concat_single in HF.
  split; [|lia]. unfold squeeze.
  rewrite bool_decide_eq_true_2 by (by right).
  destruct (concat (rows a)) as [|x [|x' l]]; simpl in *; try done; lia.
Qed.

Lemma grown_take n k y0 a :
  column_of n y0 -> grown y0 k a ->
  take n (concat (rows a)) = concat (rows y0).
Proof.
  intros (_ & Hl & HF) (_ & newy & -> & _). apply concat_single in HF.
  rewrite concat_app. apply take_app_length'. lia.
Qed.

Section Tables.
Context {W : Type} (lib : Optuna W) (func : TargetFunction W).

Lemma column_Some (h : list ndarray) (tbl : Table) name l a :
  tbl !! name = Some l -> h !! l = Some a ->
  column h tbl name = Some (squeeze a).
Proof. intros Hl Ha. unfold column. rewrite Hl. simpl. by rewrite Ha. Qed.

(** The table of a trial of [n] initial points and [k] turns: its columns
    are those of the random search and of the methods, each is a vector of
    [n + k] values, and each begins with the initial values. *)
Lemma trial_table d n k ms (s s' : mem W) X y tbl :
  evaluates_rows func -> draws_one_row func -> 1 <= n -> 2 <= n + k ->
  trial lib func d n k ms s = Ok ((X, y, tbl), s') ->
  (forall name, is_Some (tbl !! name) <->
     name ∈ "Random"%string :: map SamplerName_value ms) /\
  forall name, is_Some (tbl !! name) ->
    exists xs, column (heap s') tbl name = Some (vector xs) /\
               length xs = n + k /\
               take n xs = values_of func (drawn func n (world s)).
Proof.
  intros Hf Hx Hn Hnk H.
  apply trial_columns in H as (y0 & Hy0 & _ & Hcol & Hval & Hinv & Hdom);
    [|done..].
  replace (S (n - 1)) with n in * by lia. split.
  - intros name. rewrite Hdom. symmetry. apply elem_of_cons.
  - intros name [l Hl]. destruct (Hinv _ _ Hl) as (a & Ha & Hg).
    pose proof (column_of_grown _ _ _ _ Hcol Hg) as Hcol'.
    destruct (squeeze_column _ _ Hcol' Hnk) as [Hsq Hlen].
    exists (concat (rows a)). rewrite <- Hsq, <- Hval.
    split; [by eapply column_Some|]. split; [done|].
    by eapply grown_take.
Qed.

End Tables.

(** ** [main.py]: what a trial shares *)

Section Frame.
Context {W : Type} (lib : Optuna W) (func : TargetFunction W).

Lemma unchanged_prefix l (h h' : list ndarray) :
  h `prefix_of` h' -> is_Some (h !! l) -> unchanged l h h'.
Proof.
  intros Hpre [a Ha]. split; [by exists a|].
  rewrite Ha. by eapply prefix_lookup_Some.
Qed.

Lemma draw_initial_valid st (s s' : mem W) X y :
  draw_initial func st s = Ok ((X, y), s') ->
  is_Some (heap s' !! X) /\ is_Some (heap s' !! y).
Proof.
  destruct st as [X0 y0]. unfold draw_initial. intros H.
  apply bind_Ok in H as (x & s1 & _ & H).
  apply bind_Ok in H as (v & s2 & _ & H).
  apply bind_Ok in H as (Xc & s3 & HX & H).
  apply bind_Ok in H as (yc & s4 & Hy & [[= -> ->] ->]%ret_Ok).
  apply np_concatenate_Ok in HX as (? & ? & _ & _ & _ & -> & ->).
  apply np_concatenate_Ok in Hy as (? & ? & _ & _ & _ & -> & ->).
  simpl. split; apply lookup_lt_is_Some; rewrite !length_app; simpl; lia.
Qed.

Lemma initial_batch_valid n (s s' : mem W) X y :
  initial_batch func n s = Ok ((X, y), s') ->
  is_Some (heap s' !! X) /\ is_Some (heap s' !! y).
Proof.
  unfold initial_batch. intros H.
  apply bind_Ok in H as (x & s1 & Hd & H).
  apply bind_Ok in H as (v & s2 & Hv & H).
  apply call_random_x_Ok in Hd as (xa & w & _ & -> & ->).
  apply call_f_Ok in Hv as (a & _ & -> & ->). simpl in H.
  destruct (n - 1) as [|j].
  - apply ret_Ok in H as [[= -> ->] ->]. simpl.
    split; apply lookup_lt_is_Some; rewrite !length_app; simpl; lia.
  - apply for_range_last in H as ([X1 y1] & s3 & _ & H).
    by apply draw_initial_valid in H.
Qed.

(** The sequence of the random search is the copy it began with or an
    array made later. *)
Lemma random_search_valid k : forall r (s s' : mem W) r',
  is_Some (heap s !! r) ->
  for_range k (random_search func) r s = Ok (r', s') ->
  is_Some (heap s' !! r') /\ (r' = r \/ length (heap s) <= r').
Proof.
  induction k as [|k IH]; intros r s s' r' Hr H.
  - apply ret_Ok in H as [-> ->]. split; [done|by left].
  - apply for_range_last in H as (r1 & s1 & Hk & H).
    pose proof (extends_for_range _ (random_search func) _
                  (extends_random_search func) _ _ _ Hk) as Hpre.
    apply prefix_length in Hpre. unfold random_search in H.
    apply bind_Ok in H as (x & s2 & Hd & H).
    apply bind_Ok in H as (v & s3 & Hv & H).
    apply call_random_x_Ok in Hd as (xa & w & _ & -> & ->).
    apply call_f_Ok in Hv as (a & _ & -> & ->).
    apply np_concatenate_Ok in H as (? & ? & _ & _ & _ & -> & ->).
    simpl. rewrite !length_app. simpl. split; [|right; lia].
    apply lookup_lt_is_Some. rewrite !length_app. simpl. lia.
Qed.

Lemma Random_is_no_method m : SamplerName_value m <> "Random"%string.
Proof. by destruct m. Qed.

(** The loop over the methods keeps the column of the random search. *)
Lemma search_keeps_Random d X_init y_init k r ms :
  forall tbl (s s' : mem W) tbl',
  tbl !! "Random"%string = Some r ->
  for_each ms (search_with lib func d X_init y_init k) tbl s
  = Ok (tbl', s') ->
  tbl' !! "Random"%string = Some r.
Proof.
  induction ms as [|m ms IH]; intros tbl s s' tbl' Hr H; simpl in H.
  - by apply ret_Ok in H as [-> ->].
  - apply bind_Ok in H as (tbl1 & s1 & H1 & H). unfold search_with in H1.
    apply bind_Ok in H1 as (ys & s2 & _ & [-> ->]%ret_Ok).
    eapply IH; [|done].
    rewrite lookup_insert_ne by apply Random_is_no_method. done.
Qed.

(** The run of one method within the loop over the methods. *)
Lemma search_split d X_init y_init k ms1 m ms2 tbl (s s' : mem W) tbl' :
  for_each (ms1 ++ m :: ms2) (search_with lib func d X_init y_init k) tbl s
  = Ok (tbl', s') ->
  exists s1 ys s2,
    run_optimization lib func d X_init y_init (SamplerName_value m) k s1
    = Ok (ys, s2) /\
    heap s `prefix_of` heap s1 /\ heap s1 `prefix_of` heap s2 /\
    heap s2 `prefix_of` heap s'.
Proof.
  intros H. apply for_each_app in H as (tbl1 & s1 & H1 & H). simpl in H.
  apply bind_Ok in H as (tbl2 & s2 & Hm & H2). unfold search_with in Hm.
  apply bind_Ok in Hm as (ys & s3 & Hrun & [-> ->]%ret_Ok).
  exists s1, ys, s3. split; [done|]. repeat split.
  - eapply extends_for_each; [|done]. intros. apply extends_search_with.
  - by eapply extends_run_optimization.
  - eapply extends_for_each; [|done]. intros. apply extends_search_with.
Qed.

(** A run that returned went through the initialization. *)
Lemma run_iterations_begins d X_init y_init name k : forall (s s' : mem W) st,
  run_iterations lib func d X_init y_init name k s = Ok (st, s') ->
  exists st0 s0,
    run_iterations lib func d X_init y_init name 0 s = Ok (st0, s0).
Proof.
  induction k as [|k IH]; intros s s' st H; [by eauto|].
  apply run_iterations_S in H as (st1 & s1 & H & _). by eapply IH.
Qed.

Lemma run_starts_from d X_init y_init name k (s s' : mem W) ys h0 :
  unchanged X_init h0 (heap s) -> unchanged y_init h0 (heap s) ->
  run_optimization lib func d X_init y_init name k s = Ok (ys, s') ->
  starts_from lib func d X_init y_init name h0 s.
Proof.
  intros [_ HX] [[y0 Hy0] Hy] H. unfold run_optimization in H.
  apply bind_Ok in H as (st & s1 & H & _).
  apply run_iterations_begins in H as ([[self Xs] ys0] & si & H).
  exists self, Xs, ys0, si. split; [done|].
  apply run_iterations_O in H as (X0 & y0' & HX0 & Hy0' & [= -> -> ->] & ->).
  rewrite Hy0 in Hy.
  rewrite lookup_app_l in Hy0' by (by eapply lookup_lt_Some).
  simpl. repeat split; try lia.
  - rewrite lookup_app_r, Nat.sub_diag by done. simpl. congruence.
  - rewrite lookup_app_r by lia. replace (_ - _) with 1 by lia. simpl.
    congruence.
Qed.

(** What [run_optimization] returns is an array it made. *)
Lemma run_optimization_new d X_init y_init name k (s s' : mem W) ys :
  run_optimization lib func d X_init y_init name k s = Ok (ys, s') ->
  length (heap s) <= ys.
Proof.
  unfold run_optimization. intros H.
  apply bind_Ok in H as ([[self Xs] ys1] & s1 & H & [-> ->]%ret_Ok).
  simpl. destruct k as [|k].
  - apply run_iterations_O in H as (? & ? & _ & _ & [= -> -> ->] & ->). lia.
  - apply run_iterations_S in H as ([[self0 Xs0] ys0] & s0 & Hk & Hi).
    apply extends_run_iterations, prefix_length in Hk.
    apply iteration_Ok in Hi
      as (? & ? & ? & ? & ? & ? & _ & _ & _ & _ & _ & _ & _ & _ & _ & ->).
    lia.
Qed.

End Frame.

(** ** Runs of the examples *)

(** A run that returned is [Ok] of what it returned and the memory it
    left. *)
Lemma returned_Ok {A} (d : A) (r : result (A * mem nat)) :
  Example.returns r = true ->
  r = Ok (Example.returned d r, Example.left_mem r).
Proof. by destruct r as [[a s]|]. Qed.

Lemma returned_trial {A B C} (d : A * B * C)
    (r : result (A * B * C * mem nat)) :
  Example.returns r = true ->
  r = Ok (fst (fst (Example.returned d r)), snd (fst (Example.returned d r)),
          snd (Example.returned d r), Example.left_mem r).
Proof. by destruct r as [[[[X y] t] s]|]. Qed.

Lemma first_table_of (tables : list Table) :
  length tables = EXP_NUM -> default ∅ (tables !! 0) ∈ tables.
Proof. destruct tables as [|t ts]; [done|]. intros _. simpl. by left. Qed.

(** * The claims *)

(** ** [plot.py] *)

(** C6, as stated, fails on a sequence that holds NaN: the comparison
    [y < best_y] is false for it, so [get_best_ys] of the one-element
    sequence [nan] is [inf], which is no element of the sequence. *)
Lemma get_best_ys_nan :
  Plot.get_best_ys [F.nan] = [F.inf] /\
  ~ Plot.running_minimum [F.nan] (Plot.get_best_ys [F.nan]).
Proof.
  split; [reflexivity|]. intros [_ H].
  destruct (H 0) as (m & Hm & Hin & _); [simpl; lia|].
  injection Hm as <-. apply list_elem_of_singleton in Hin.
  assert (E : F.is_nan F.inf = F.is_nan F.nan) by (by rewrite Hin).
  discriminate E.
Qed.

(** C6 (amended): for every input sequence that holds no NaN,
    [get_best_ys] returns a sequence of the same length whose [i]-th
    element is the minimum of [ys[0..i]]. *)
Theorem get_best_ys_running_minimum ys :
  Plot.no_nan ys -> Plot.running_minimum ys (Plot.get_best_ys ys).
Proof.
  intros Hn. split; [apply PlotFacts.get_best_ys_length|].
  intros i Hi. rewrite PlotFacts.get_best_ys_running.
  destruct (Plot.running F.inf ys !! i) as [m|] eqn:Hm.
  2:{ apply lookup_ge_None in Hm. rewrite PlotFacts.running_length in Hm.
      lia. }
  exists m. split; [done|].
  destruct (PlotFacts.running_lookup ys F.inf i m Hn eq_refl Hm)
    as ([->|Hin] & _ & Hall); [|by split].
  split; [|done].
  destruct ys as [|y ys]; [simpl in Hi; lia|].
  change (take (S i) (y :: ys)) with (y :: take i ys) in *.
  apply Forall_cons in Hall as [Hy _]. apply Forall_cons in Hn as [Hny _].
  rewrite <- (FOrder.not_lt_inf y Hny (FOrder.le_lt_false _ _ Hy)).
  apply list_elem_of_here.
Qed.

Lemma get_best_ys_running_minimum_witness :
  Plot.no_nan [3%float; 1%float; 2%float] /\
  Plot.running_minimum [3%float; 1%float; 2%float]
    (Plot.get_best_ys [3%float; 1%float; 2%float]).
Proof.
  assert (H : Plot.no_nan [3%float; 1%float; 2%float])
    by (repeat constructor).
  split; [exact H|]. exact (get_best_ys_running_minimum _ H).
Defined.

(** C7, as stated, fails for a run that maximizes: [get_best_ys] has no
    direction, it is the running minimum whatever the run was, and the
    running minimum of [2, 1] goes down. *)
Lemma get_best_ys_not_for_maximize :
  Plot.get_best_ys [2%float; 1%float] = [2%float; 1%float] /\
  ~ Plot.monotone_for maximize (Plot.get_best_ys [2%float; 1%float]).
Proof.
  split; [reflexivity|]. intros H.
  specialize (H 0 1 2%float 1%float (Nat.le_succ_diag_r 0) eq_refl eq_refl).
  discriminate H.
Qed.

(** C7 (amended): for every input sequence, [get_best_ys] produces a
    monotonically non-increasing sequence, the one a minimizing run is to
    have, and it is idempotent. *)
Theorem get_best_ys_monotone_idempotent ys :
  Plot.monotone_for minimize (Plot.get_best_ys ys) /\
  Plot.get_best_ys (Plot.get_best_ys ys) = Plot.get_best_ys ys.
Proof.
  rewrite !PlotFacts.get_best_ys_running. split.
  - apply PlotFacts.sorted_non_increasing.
    + by apply PlotFacts.running_not_nan.
    + by apply PlotFacts.running_sorted.
  - apply PlotFacts.running_idem.
Qed.

(** ** [main.py]: the optimizer session *)

(** C8: constructing an [Optimizer] with an identifier that is the name of
    no sampler raises nothing and assigns no sampler; it is the later use
    of the object that fails, [create_study] on the missing attribute and
    [get_candidate] for want of a study. *)
Theorem unrecognized_sampler_name name :
  unrecognized name ->
  __init__ name = mkOptimizer None None /\
  (forall W d (s : mem W),
     create_study (__init__ name) d s = Raise AttributeError) /\
  (forall W (lib : Optuna W) Xs ys ds (s : mem W),
     exists e, get_candidate lib (__init__ name) Xs ys ds s = Raise e).
Proof.
  intros H.
  assert (E : __init__ name = mkOptimizer None None).
  { unfold __init__. by rewrite !H. }
  rewrite E. split; [done|]. split.
  - done.
  - intros. by apply get_candidate_no_study.
Qed.

Lemma unrecognized_sampler_name_witness :
  unrecognized "GP-UCB" /\
  __init__ "GP-UCB" = mkOptimizer None None /\
  create_study (__init__ "GP-UCB") "minimize" Example.start
  = Raise AttributeError.
Proof.
  assert (H : unrecognized "GP-UCB") by (by intros []).
  destruct (unrecognized_sampler_name "GP-UCB" H) as (H1 & H2 & _).
  split; [exact H|]. split; [exact H1|]. apply H2.
Defined.

Section SessionClaims.
Context {W : Type} (lib : Optuna W).

(** C3: in a row [get_candidate] returns, the entry of a continuous feature
    lies within the range of the feature, and the entry of a categorical
    feature is one of its choices; the entries are those of the features
    the driver asks a value for, in their order. *)
Theorem get_candidate_within self Xs ys ds (s s' : mem W) self' new_X :
  suggests_in_range lib -> suggests_a_choice lib ->
  get_candidate lib self Xs ys ds s = Ok ((self', new_X), s') ->
  exists row,
    heap s' !! new_X = Some (row_vector row) /\
    Forall2 within (filter supported ds) row.
Proof.
  intros Hr Hc H.
  apply get_candidate_Ok in H
    as (Xa & ya & st & row & running & _ & _ & _ & -> & Hh & _ & _ & _ & HF).
  exists row. split.
  - rewrite Hh. by rewrite lookup_app_r, Nat.sub_diag.
  - eapply Forall2_impl; [done|]. intros [name d] v Hp.
    unfold proposed, within in *. simpl in *.
    destruct d as [low high|choices|low high]; [| |done].
    + destruct Hp as (st' & n & w & w' & Hp). by eapply Hr.
    + destruct Hp as (st' & n & w & w' & Hp). by eapply Hc.
Qed.

(** C4: when every descriptor of the search space is continuous or
    categorical, [get_candidate] returns an array of shape [1 × dim], for
    [dim] the number of features, whose only row holds, at the place of
    every feature in the order of the keys, the value proposed for it. *)
Theorem get_candidate_row self Xs ys ds (s s' : mem W) self' new_X :
  Forall (fun item => supported item = true) ds ->
  get_candidate lib self Xs ys ds s = Ok ((self', new_X), s') ->
  exists row,
    heap s' !! new_X = Some (array2 (length ds) [row]) /\
    length row = length ds /\
    Forall2 (proposed lib) ds row.
Proof.
  intros Hs H.
  apply get_candidate_Ok in H
    as (Xa & ya & st & row & running & _ & _ & _ & -> & Hh & _ & _ & _ & HF).
  assert (E : filter supported ds = ds).
  { clear HF. induction ds as [|item ds' IH]; [done|].
    apply Forall_cons in Hs as [Hi Hs].
    rewrite filter_cons_True by (by rewrite Hi). f_equal. by apply IH. }
  rewrite E in HF. apply Forall2_length in HF as Hl.
  exists row. repeat split; [|done..].
  rewrite Hh, lookup_app_r, Nat.sub_diag by done. simpl.
  unfold row_vector. by rewrite Hl.
Qed.

End SessionClaims.

(** The library of the examples keeps what [optuna] promises. *)
Lemma walker_in_range : suggests_in_range Example.walker.
Proof.
  intros st n name low high w v w' H. simpl in H.
  destruct (F.le low _ && F.le _ high) eqn:E.
  - injection H as <- <-. by apply andb_prop in E.
  - destruct (F.le low high) eqn:E'; [|done]. injection H as <- <-.
    split; [|done]. apply FOrder.le_refl. by apply FOrder.le_not_nan in E' as [? _].
Qed.

Lemma walker_a_choice : suggests_a_choice Example.walker.
Proof.
  intros st n name choices w v w' H. simpl in H.
  destruct choices as [|c ?]; [done|]. injection H as <- <-.
  apply list_elem_of_here.
Qed.

Lemma get_candidate_within_witness :
  Example.candidate Example.mixed
  = Ok (Example.returned (Example.session, 0) (Example.candidate Example.mixed),
        Example.left_mem (Example.candidate Example.mixed)) /\
  exists row,
    heap (Example.left_mem (Example.candidate Example.mixed))
      !! snd (Example.returned (Example.session, 0) (Example.candidate Example.mixed))
    = Some (row_vector row) /\
    Forall2 within (filter supported Example.mixed) row.
Proof.
  assert (H : Example.candidate Example.mixed
              = Ok (fst (Example.returned (Example.session, 0)
                           (Example.candidate Example.mixed)),
                    snd (Example.returned (Example.session, 0)
                           (Example.candidate Example.mixed)),
                    Example.left_mem (Example.candidate Example.mixed)))
    by (vm_compute; reflexivity).
  split; [vm_compute; reflexivity|].
  exact (get_candidate_within Example.walker _ _ _ _ _ _ _ _
           walker_in_range walker_a_choice H).
Defined.

Lemma get_candidate_row_witness :
  Forall (fun item => supported item = true) Example.plain /\
  exists row,
    heap (Example.left_mem (Example.candidate Example.plain))
      !! snd (Example.returned (Example.session, 0) (Example.candidate Example.plain))
    = Some (array2 (length Example.plain) [row]) /\
    length row = length Example.plain /\
    Forall2 (proposed Example.walker) Example.plain row.
Proof.
  assert (Hs : Forall (fun item => supported item = true) Example.plain)
    by (repeat constructor).
  assert (H : Example.candidate Example.plain
              = Ok (fst (Example.returned (Example.session, 0)
                           (Example.candidate Example.plain)),
                    snd (Example.returned (Example.session, 0)
                           (Example.candidate Example.plain)),
                    Example.left_mem (Example.candidate Example.plain)))
    by (vm_compute; reflexivity).
  split; [exact Hs|].
  exact (get_candidate_row Example.walker _ _ _ _ _ _ _ _ Hs H).
Defined.

(** ** [main.py]: [run_optimization] *)

Section RunClaims.
Context {W : Type} (lib : Optuna W) (func : TargetFunction W).

(** C1: every turn of the loop of [run_optimization] builds a study of its
    own, with the sampler of the session and the direction given: whatever
    the session held before, the study holds one finished trial for every
    pair of [Xs] and [ys] as they stood when the turn began, in the order
    of the two sequences, each pairing every feature with the entry of the
    point at its position and having the value of the point; then one
    trial is asked of this study, and the candidate the turn appends to the
    points is what the library suggested this trial, feature after
    feature, for this study.  The study the turn leaves holds these trials
    and the running one, and nothing else. *)
Theorem fresh_study_every_iteration d X_init y_init name k
    (s s' : mem W) self' Xs' ys' :
  NoDup (map fst (distributions func)) ->
  run_iterations lib func d X_init y_init name (S k) s
  = Ok ((self', Xs', ys'), s') ->
  exists self Xs ys s1 Xa ya sm row running,
    run_iterations lib func d X_init y_init name k s
    = Ok ((self, Xs, ys), s1) /\
    heap s1 !! Xs = Some Xa /\ heap s1 !! ys = Some ya /\
    sampler self = Some sm /\ sampler self' = Some sm /\
    asked lib (length (zip (rows Xa) (rows ya))) (distributions func)
      (mkStudy (direction_of d) sm
         (map (fun Xy =>
                 Trial COMPLETE (zip (map fst (distributions func)) (fst Xy))
                   (distributions func) (head (snd Xy)))
            (zip (rows Xa) (rows ya))
          ++ [Trial RUNNING [] [] None]))
      (world s1) row
      (mkStudy (direction_of d) sm
         (map (fun Xy =>
                 Trial COMPLETE (zip (map fst (distributions func)) (fst Xy))
                   (distributions func) (head (snd Xy)))
            (zip (rows Xa) (rows ya))
          ++ [running]))
      (world s') /\
    study self' =
      Some (mkStudy (direction_of d) sm
              (map (fun Xy =>
                      Trial COMPLETE
                        (zip (map fst (distributions func)) (fst Xy))
                        (distributions func) (head (snd Xy)))
                 (zip (rows Xa) (rows ya))
               ++ [running])) /\
    state running = RUNNING /\
    heap s' !! Xs' = Some (array2 (ncols Xa) (rows Xa ++ [row])).
Proof.
  intros Hnd H.
  apply run_iterations_S in H as ([[self Xs] ys] & s1 & Hk & Hi).
  pose proof Hi as Hi'.
  apply iteration_Ok in Hi'
    as (sm0 & _ & _ & _ & _ & _ & Hsm0 & _ & _ & Hsm' & _).
  apply iteration_asked in Hi
    as (sm & Xa & ya & row & st' & Hsm & _ & HXa & Hya & Hst' & Hasked & HXs'
        & _).
  assert (sm0 = sm) as -> by congruence.
  erewrite map_ext in Hasked
    by (intros Xy; by apply observation_trial_replayed).
  pose proof Hasked as Hrun.
  rewrite <- (length_map (replayed (distributions func))) in Hrun.
  eapply asked_running in Hrun as (running & -> & Hr); [|done..].
  simpl in *.
  by exists self, Xs, ys, s1, Xa, ya, sm, row, running.
Qed.

(** C5: after the initialization and any number [k] of turns, the two
    sequences have the same length; they are the initial batch followed by
    [k] new elements; no array of the heap was written into; and the next
    turn leaves the two arrays as they are and makes, by concatenation,
    two new ones with exactly one more element each. *)
Theorem observations_grow_by_one d X_init y_init name X0 y0 k
    (s s' : mem W) self Xs ys :
  evaluates_rows func ->
  heap s !! X_init = Some X0 -> heap s !! y_init = Some y0 ->
  length (rows X0) = length (rows y0) ->
  run_iterations lib func d X_init y_init name k s
  = Ok ((self, Xs, ys), s') ->
  exists Xa ya newX newy,
    heap s' !! Xs = Some Xa /\ heap s' !! ys = Some ya /\
    length (rows Xa) = length (rows ya) /\
    rows Xa = rows X0 ++ newX /\ rows ya = rows y0 ++ newy /\
    length newX = k /\ length newy = k /\
    heap s `prefix_of` heap s' /\
    forall self2 Xs2 ys2 s2,
      iteration lib func d (self, Xs, ys) s' = Ok ((self2, Xs2, ys2), s2) ->
      exists x y,
        heap s2 !! Xs2 = Some (array2 (ncols Xa) (rows Xa ++ [x])) /\
        heap s2 !! ys2 = Some (array2 (ncols ya) (rows ya ++ [y])) /\
        heap s2 !! Xs = Some Xa /\ heap s2 !! ys = Some ya /\
        heap s' `prefix_of` heap s2.
Proof.
  intros Hf HX0 Hy0 Hlen H.
  eapply run_iterations_rows in H
    as (Xa & ya & newX & newy & HXa & Hya & _ & _ & HrX & Hry & HlX & HlY
        & _ & Hpre & _); [|done..].
  exists Xa, ya, newX, newy. repeat split; try done.
  { rewrite HrX, Hry, !length_app. lia. }
  intros self2 Xs2 ys2 s2 Hi.
  apply iteration_Ok in Hi
    as (sm & dir & Xa' & ya' & row & running & _ & HXa' & Hya' & _ & _ & _
        & _ & Hh & -> & ->).
  assert (Xa' = Xa) as -> by congruence.
  assert (ya' = ya) as -> by congruence.
  destruct (evaluates_one_row func row Hf) as [v Hv]. rewrite Hv in Hh.
  exists row, [v]. rewrite Hh. repeat split.
  - rewrite lookup_app_r by lia. by replace (_ - _) with 2 by lia.
  - rewrite lookup_app_r by lia. by replace (_ - _) with 3 by lia.
  - by apply lookup_app_l_Some.
  - by apply lookup_app_l_Some.
  - by apply prefix_app_r.
Qed.

End RunClaims.

Lemma sum_of_squares_rows : evaluates_rows Example.sum_of_squares.
Proof.
  intros a. simpl. rewrite length_map. repeat split.
  unfold well_shaped. simpl. apply Forall_map. by apply Forall_true.
Qed.

Lemma sum_of_squares_names :
  NoDup (map fst (distributions Example.sum_of_squares)).
Proof.
  simpl. apply NoDup_cons. split.
  - intros Hin. apply list_elem_of_singleton in Hin. discriminate Hin.
  - apply NoDup_singleton.
Qed.

Lemma fresh_study_every_iteration_witness :
  exists self Xs ys s1 Xa ya sm row running,
    Example.turns 1 = Ok ((self, Xs, ys), s1) /\
    heap s1 !! Xs = Some Xa /\ heap s1 !! ys = Some ya /\
    sampler self = Some sm /\
    sampler (fst (fst (Example.returned Example.no_session
                         (Example.turns 2)))) = Some sm /\
    asked Example.walker (length (zip (rows Xa) (rows ya)))
      (distributions Example.sum_of_squares)
      (mkStudy (direction_of "minimize") sm
         (map (fun Xy =>
                 Trial COMPLETE
                   (zip (map fst (distributions Example.sum_of_squares))
                      (fst Xy))
                   (distributions Example.sum_of_squares) (head (snd Xy)))
            (zip (rows Xa) (rows ya))
          ++ [Trial RUNNING [] [] None]))
      (world s1) row
      (mkStudy (direction_of "minimize") sm
         (map (fun Xy =>
                 Trial COMPLETE
                   (zip (map fst (distributions Example.sum_of_squares))
                      (fst Xy))
                   (distributions Example.sum_of_squares) (head (snd Xy)))
            (zip (rows Xa) (rows ya))
          ++ [running]))
      (world (Example.left_mem (Example.turns 2))) /\
    study (fst (fst (Example.returned Example.no_session
                       (Example.turns 2)))) =
      Some (mkStudy (direction_of "minimize") sm
              (map (fun Xy =>
                      Trial COMPLETE
                        (zip (map fst (distributions Example.sum_of_squares))
                           (fst Xy))
                        (distributions Example.sum_of_squares)
                        (head (snd Xy)))
                 (zip (rows Xa) (rows ya))
               ++ [running])) /\
    state running = RUNNING /\
    heap (Example.left_mem (Example.turns 2))
      !! snd (fst (Example.returned Example.no_session (Example.turns 2)))
    = Some (array2 (ncols Xa) (rows Xa ++ [row])).
Proof.
  assert (H : Example.turns 2
              = Ok (fst (fst (Example.returned Example.no_session
                                (Example.turns 2))),
                    snd (fst (Example.returned Example.no_session
                                (Example.turns 2))),
                    snd (Example.returned Example.no_session
                           (Example.turns 2)),
                    Example.left_mem (Example.turns 2)))
    by (vm_compute; reflexivity).
  exact (fresh_study_every_iteration Example.walker Example.sum_of_squares
           _ _ _ _ _ _ _ _ _ _ sum_of_squares_names H).
Defined.

Lemma observations_grow_by_one_witness :
  length (rows (Example.array_at (Example.left_mem Example.batch)
                  Example.X_batch))
  = length (rows (Example.array_at (Example.left_mem Example.batch)
                    Example.y_batch)) /\
  exists Xa ya newX newy,
    heap (Example.left_mem (Example.turns 2))
      !! snd (fst (Example.returned Example.no_session (Example.turns 2)))
    = Some Xa /\
    heap (Example.left_mem (Example.turns 2))
      !! snd (Example.returned Example.no_session (Example.turns 2))
    = Some ya /\
    length (rows Xa) = length (rows ya) /\
    rows Xa
    = rows (Example.array_at (Example.left_mem Example.batch)
              Example.X_batch) ++ newX /\
    rows ya
    = rows (Example.array_at (Example.left_mem Example.batch)
              Example.y_batch) ++ newy /\
    length newX = 2 /\ length newy = 2 /\
    heap (Example.left_mem Example.batch)
      `prefix_of` heap (Example.left_mem (Example.turns 2)) /\
    forall self2 Xs2 ys2 s2,
      iteration Example.walker Example.sum_of_squares "minimize"
        (Example.returned Example.no_session (Example.turns 2))
        (Example.left_mem (Example.turns 2))
      = Ok ((self2, Xs2, ys2), s2) ->
      exists x y,
        heap s2 !! Xs2 = Some (array2 (ncols Xa) (rows Xa ++ [x])) /\
        heap s2 !! ys2 = Some (array2 (ncols ya) (rows ya ++ [y])) /\
        heap s2
          !! snd (fst (Example.returned Example.no_session
                         (Example.turns 2))) = Some Xa /\
        heap s2
          !! snd (Example.returned Example.no_session (Example.turns 2))
        = Some ya /\
        heap (Example.left_mem (Example.turns 2)) `prefix_of` heap s2.
Proof.
  assert (H : Example.turns 2
              = Ok (fst (fst (Example.returned Example.no_session
                                (Example.turns 2))),
                    snd (fst (Example.returned Example.no_session
                                (Example.turns 2))),
                    snd (Example.returned Example.no_session
                           (Example.turns 2)),
                    Example.left_mem (Example.turns 2)))
    by (vm_compute; reflexivity).
  assert (HX : heap (Example.left_mem Example.batch) !! Example.X_batch
               = Some (Example.array_at (Example.left_mem Example.batch)
                         Example.X_batch))
    by (vm_compute; reflexivity).
  assert (Hy : heap (Example.left_mem Example.batch) !! Example.y_batch
               = Some (Example.array_at (Example.left_mem Example.batch)
                         Example.y_batch))
    by (vm_compute; reflexivity).
  assert (Hl : length (rows (Example.array_at
                               (Example.left_mem Example.batch)
                               Example.X_batch))
               = length (rows (Example.array_at
                                 (Example.left_mem Example.batch)
                                 Example.y_batch)))
    by (vm_compute; reflexivity).
  refine (conj Hl _).
  refine (observations_grow_by_one Example.walker Example.sum_of_squares
            "minimize" Example.X_batch Example.y_batch "LCB" _ _ 2
            (Example.left_mem Example.batch)
            (Example.left_mem (Example.turns 2)) _ _ _
            sum_of_squares_rows HX Hy Hl H).
Defined.

(** ** [main.py]: the trials of [main] *)

Section TrialClaims.
Context {W : Type} (lib : Optuna W) (func : TargetFunction W).

(** C10: in the table of a trial of [main], every column, that of the
    random search and that of every method, begins with the same
    [INIT_NUM] entries: the values of the objective at the points of the
    initial batch, in the order the points were drawn. *)
Theorem columns_share_initial_values (s s' : mem W) X_init y_init tbl :
  evaluates_rows func -> draws_one_row func ->
  trial lib func direction_ INIT_NUM SERCH_NUM use_methods s
  = Ok ((X_init, y_init, tbl), s') ->
  (forall name, is_Some (tbl !! name) <->
     name ∈ "Random"%string :: map SamplerName_value use_methods) /\
  forall name, is_Some (tbl !! name) ->
    exists xs, column (heap s') tbl name = Some (vector xs) /\
               take INIT_NUM xs
               = values_of func (drawn func INIT_NUM (world s)).
Proof.
  intros Hf Hx H.
  eapply trial_table in H as [Hdom Hcols]; [|done|done|..].
  - split; [done|]. intros name Hn.
    destruct (Hcols name Hn) as (xs & Hc & _ & Ht). by exists xs.
  - unfold INIT_NUM. lia.
  - unfold INIT_NUM, SERCH_NUM. lia.
Qed.

(** C2: [main] makes [EXP_NUM] tables, one a trial; the columns of each
    are those of the random search and of the configured methods, and
    every column has [INIT_NUM + SERCH_NUM] rows: 10 initial points and 100
    turns, 110 rows. *)
Theorem every_column_has_all_rows (s s' : mem W) tables :
  evaluates_rows func -> draws_one_row func ->
  main lib func s = Ok (tables, s') ->
  length tables = EXP_NUM /\
  INIT_NUM + SERCH_NUM = 110 /\
  forall tbl : Table, tbl ∈ tables ->
    (forall name, is_Some (tbl !! name) <->
       name ∈ "Random"%string :: map SamplerName_value use_methods) /\
    forall name, is_Some (tbl !! name) ->
      exists col, column (heap s') tbl name = Some col /\
                  len col = Ok (INIT_NUM + SERCH_NUM).
Proof.
  intros Hf Hx H. unfold main in H.
  set (body := fun tables : list Table =>
         bind (trial lib func direction_ INIT_NUM SERCH_NUM use_methods)
           (fun t => ret (tables ++ [snd t]))) in H.
  set (good := fun (h : list ndarray) (tbl : Table) =>
         (forall name, is_Some (tbl !! name) <->
            name ∈ "Random"%string :: map SamplerName_value use_methods) /\
         forall name, is_Some (tbl !! name) ->
           exists col, column h tbl name = Some col /\
                       len col = Ok (INIT_NUM + SERCH_NUM)).
  assert (Hmono : forall h h' tbl, h `prefix_of` h' -> good h tbl ->
                                   good h' tbl).
  { intros h h' tbl Hpre [Hdom Hcols]. split; [done|].
    intros name Hn. destruct (Hcols name Hn) as (col & Hc & Hl).
    exists col. split; [|done]. unfold column in *.
    destruct (tbl !! name) as [l|]; [|done]. simpl in *.
    destruct (h !! l) as [a|] eqn:Ea; [|done].
    by rewrite (prefix_lookup_Some _ _ _ _ Ea Hpre). }
  assert (Hinv : forall n tables0 (s0 s1 : mem W) r,
             Forall (good (heap s0)) tables0 ->
             for_range n body tables0 s0 = Ok (r, s1) ->
             length r = length tables0 + n /\ Forall (good (heap s1)) r).
  { induction n as [|n IH]; intros tables0 s0 s1 r HF Hr; simpl in Hr.
    - apply ret_Ok in Hr as [-> ->]. split; [lia|done].
    - apply bind_Ok in Hr as (t1 & s2 & Hb & Hr). unfold body in Hb.
      apply bind_Ok in Hb as ([[X y] tbl] & s3 & Ht & [-> ->]%ret_Ok).
      pose proof (extends_trial lib func _ _ _ _ _ _ _ Ht) as Hpre.
      eapply trial_table in Ht as [Hdom Hcols];
        [|done|done|unfold INIT_NUM; lia|unfold INIT_NUM, SERCH_NUM; lia].
      apply IH in Hr as [Hlen HF'].
      + rewrite length_app in Hlen. simpl in *. split; [lia|done].
      + apply Forall_app. split.
        * eapply Forall_impl; [done|]. intros tbl0. by apply Hmono.
        * constructor; [|done]. split; [done|].
          intros name Hn. destruct (Hcols name Hn) as (xs & Hc & Hl & _).
          exists (vector xs). split; [done|]. simpl. by rewrite Hl. }
  destruct (Hinv EXP_NUM [] s s' tables) as [Hlen HF]; [constructor|exact H|].
  split; [done|]. split; [done|].
  intros tbl Hin. rewrite Forall_forall in HF. by apply HF.
Qed.

End TrialClaims.

Lemma sum_of_squares_one_row : draws_one_row Example.sum_of_squares.
Proof. by intros w. Qed.

Lemma columns_share_initial_values_witness :
  Example.first_trial
  = Ok (Example.returned (0, 0, ∅) Example.first_trial,
        Example.left_mem Example.first_trial) /\
  exists xs,
    column (heap (Example.left_mem Example.first_trial))
      Example.first_table "LogEI GammaPrior"
    = Some (vector xs) /\
    take INIT_NUM xs
    = values_of Example.sum_of_squares
        (drawn Example.sum_of_squares INIT_NUM (world Example.start)).
Proof.
  assert (Hok : Example.returns Example.first_trial = true)
    by vm_cast_no_check (eq_refl true).
  assert (H : trial Example.walker Example.sum_of_squares direction_
                INIT_NUM SERCH_NUM use_methods Example.start
              = Ok (fst (fst (Example.returned (0, 0, ∅)
                                Example.first_trial)),
                    snd (fst (Example.returned (0, 0, ∅)
                                Example.first_trial)),
                    Example.first_table,
                    Example.left_mem Example.first_trial))
    by exact_no_check (returned_trial (0, 0, ∅) Example.first_trial Hok).
  assert (Hin : "LogEI GammaPrior"%string
                ∈ "Random"%string :: map SamplerName_value use_methods)
    by (simpl; repeat constructor).
  refine (conj (returned_Ok _ _ Hok) _).
  exact (proj2 (columns_share_initial_values Example.walker
                  Example.sum_of_squares Example.start _ _ _ _
                  sum_of_squares_rows sum_of_squares_one_row H)
           "LogEI GammaPrior"%string
           (proj2 (proj1 (columns_share_initial_values Example.walker
                            Example.sum_of_squares Example.start _ _ _ _
                            sum_of_squares_rows sum_of_squares_one_row H)
                     "LogEI GammaPrior"%string) Hin)).
Defined.

Lemma every_column_has_all_rows_witness :
  Example.main_run
  = Ok (Example.returned [] Example.main_run,
        Example.left_mem Example.main_run) /\
  length (Example.returned [] Example.main_run) = EXP_NUM /\
  exists col,
    column (heap (Example.left_mem Example.main_run)) Example.main_table
      "Random"
    = Some col /\
    len col = Ok (INIT_NUM + SERCH_NUM).
Proof.
  assert (Hok : Example.returns Example.main_run = true)
    by vm_cast_no_check (eq_refl true).
  assert (H : main Example.walker Example.sum_of_squares Example.start
              = Ok (Example.returned [] Example.main_run,
                    Example.left_mem Example.main_run))
    by exact_no_check (returned_Ok [] Example.main_run Hok).
  assert (Hin : "Random"%string
                ∈ "Random"%string :: map SamplerName_value use_methods)
    by (simpl; repeat constructor).
  assert (Ht : Example.main_table ∈ Example.returned [] Example.main_run)
    by exact_no_check
         (first_table_of _
            (proj1 (every_column_has_all_rows Example.walker
                      Example.sum_of_squares _ _ _
                      sum_of_squares_rows sum_of_squares_one_row H))).
  refine (conj H _).
  refine (conj (proj1 (every_column_has_all_rows Example.walker
                         Example.sum_of_squares _ _ _
                         sum_of_squares_rows sum_of_squares_one_row H)) _).
  exact (proj2 (proj2 (proj2 (every_column_has_all_rows Example.walker
                                Example.sum_of_squares _ _ _
                                sum_of_squares_rows sum_of_squares_one_row
                                H))
                  Example.main_table Ht)
           "Random"%string
           (proj2 (proj1 (proj2 (proj2 (every_column_has_all_rows
                                          Example.walker
                                          Example.sum_of_squares _ _ _
                                          sum_of_squares_rows
                                          sum_of_squares_one_row H))
                            Example.main_table Ht)
                     "Random"%string) Hin)).
Defined.

Section FrameClaims.
Context {W : Type} (lib : Optuna W) (func : TargetFunction W).

(** C9: within a trial, no run writes into the arrays of the initial
    batch: they hold at the end what they held when the batch was made.
    The run of every method is given these two arrays, finds in them what
    they held then, begins its observation history with new copies of
    them, and returns a new array.  The sequence of the random search is an
    array made after the batch, which no run of a method is given and
    which every run leaves as it was. *)
Theorem trial_shares_only_the_initial_batch d n k ms (s s' : mem W)
    X_init y_init tbl :
  trial lib func d n k ms s = Ok ((X_init, y_init, tbl), s') ->
  exists s0 r,
    initial_batch func n s = Ok ((X_init, y_init), s0) /\
    unchanged X_init (heap s0) (heap s') /\
    unchanged y_init (heap s0) (heap s') /\
    tbl !! "Random"%string = Some r /\
    X_init < length (heap s0) /\ y_init < length (heap s0) /\
    length (heap s0) <= r /\
    forall ms1 m ms2, ms = ms1 ++ m :: ms2 ->
      exists s1 ys s2,
        run_optimization lib func d X_init y_init (SamplerName_value m) k s1
        = Ok (ys, s2) /\
        starts_from lib func d X_init y_init (SamplerName_value m)
          (heap s0) s1 /\
        unchanged X_init (heap s1) (heap s2) /\
        unchanged y_init (heap s1) (heap s2) /\
        unchanged r (heap s1) (heap s2) /\
        unchanged r (heap s2) (heap s') /\
        length (heap s1) <= ys.
Proof.
  unfold trial. intros H.
  apply bind_Ok in H as ([X1 y1] & s0 & Hb & H).
  apply bind_Ok in H as (r0 & s2 & Hc & H).
  apply bind_Ok in H as (r & s3 & Hr & H).
  apply bind_Ok in H as (tbl1 & s4 & Hs & [[= -> -> ->] ->]%ret_Ok).
  simpl in *.
  destruct (initial_batch_valid func _ _ _ _ _ Hb) as [HX Hy].
  apply np_copy_Ok in Hc as (a0 & Ha0 & -> & ->).
  pose proof (extends_for_range _ (random_search func) _
                (extends_random_search func) _ _ _ Hr) as Hpre3.
  apply random_search_valid in Hr as [Hrv Hrn].
  2:{ simpl. apply lookup_lt_is_Some. rewrite length_app. simpl. lia. }
  simpl in Hpre3, Hrn. rewrite length_app in Hrn. simpl in Hrn.
  assert (Hpre03 : heap s0 `prefix_of` heap s3).
  { etrans; [|done]. by apply prefix_app_r. }
  assert (Hpre34 : heap s3 `prefix_of` heap s4).
  { eapply extends_for_each; [|done]. intros. apply extends_search_with. }
  exists s0, r. split; [done|].
  split; [apply unchanged_prefix; [by etrans|done]|].
  split; [apply unchanged_prefix; [by etrans|done]|].
  split.
  { eapply search_keeps_Random; [|done]. by rewrite lookup_insert_eq. }
  split; [by apply lookup_lt_is_Some|].
  split; [by apply lookup_lt_is_Some|].
  split; [lia|].
  intros ms1 m ms2 ->.
  apply search_split in Hs as (s1 & ys & s5 & Hrun & Hp1 & Hp2 & Hp3).
  assert (HX1 : unchanged X1 (heap s0) (heap s1))
    by (apply unchanged_prefix; [by etrans|done]).
  assert (Hy1 : unchanged y1 (heap s0) (heap s1))
    by (apply unchanged_prefix; [by etrans|done]).
  assert (Hr1 : is_Some (heap s1 !! r)).
  { destruct Hrv as [a Ha]. exists a. by eapply prefix_lookup_Some. }
  assert (Hr2 : is_Some (heap s5 !! r)).
  { destruct Hr1 as [a Ha]. exists a. by eapply prefix_lookup_Some. }
  exists s1, ys, s5. split; [done|].
  split; [by eapply run_starts_from|].
  split.
  { apply unchanged_prefix; [done|]. destruct HX1 as [_ ->]. done. }
  split.
  { apply unchanged_prefix; [done|]. destruct Hy1 as [_ ->]. done. }
  split; [by apply unchanged_prefix|].
  split; [by apply unchanged_prefix|].
  by eapply run_optimization_new.
Qed.

End FrameClaims.

Lemma trial_shares_only_the_initial_batch_witness :
  exists s0 r,
    initial_batch Example.sum_of_squares 3 Example.start
    = Ok ((fst (fst (Example.returned (0, 0, ∅) Example.small_trial)),
           snd (fst (Example.returned (0, 0, ∅) Example.small_trial))), s0) /\
    unchanged (fst (fst (Example.returned (0, 0, ∅) Example.small_trial)))
      (heap s0) (heap (Example.left_mem Example.small_trial)) /\
    unchanged (snd (fst (Example.returned (0, 0, ∅) Example.small_trial)))
      (heap s0) (heap (Example.left_mem Example.small_trial)) /\
    snd (Example.returned (0, 0, ∅) Example.small_trial) !! "Random"%string
    = Some r /\
    fst (fst (Example.returned (0, 0, ∅) Example.small_trial))
    < length (heap s0) /\
    snd (fst (Example.returned (0, 0, ∅) Example.small_trial))
    < length (heap s0) /\
    length (heap s0) <= r /\
    forall ms1 m ms2, [LCB; TPE] = ms1 ++ m :: ms2 ->
      exists s1 ys s2,
        run_optimization Example.walker Example.sum_of_squares "minimize"
          (fst (fst (Example.returned (0, 0, ∅) Example.small_trial)))
          (snd (fst (Example.returned (0, 0, ∅) Example.small_trial)))
          (SamplerName_value m) 2 s1
        = Ok (ys, s2) /\
        starts_from Example.walker Example.sum_of_squares "minimize"
          (fst (fst (Example.returned (0, 0, ∅) Example.small_trial)))
          (snd (fst (Example.returned (0, 0, ∅) Example.small_trial)))
          (SamplerName_value m) (heap s0) s1 /\
        unchanged (fst (fst (Example.returned (0, 0, ∅) Example.small_trial)))
          (heap s1) (heap s2) /\
        unchanged (snd (fst (Example.returned (0, 0, ∅) Example.small_trial)))
          (heap s1) (heap s2) /\
        unchanged r (heap s1) (heap s2) /\
        unchanged r (heap s2) (heap (Example.left_mem Example.small_trial)) /\
        length (heap s1) <= ys.
Proof.
  assert (H : trial Example.walker Example.sum_of_squares "minimize" 3 2
                [LCB; TPE] Example.start
              = Ok (fst (fst (Example.returned (0, 0, ∅)
                                Example.small_trial)),
                    snd (fst (Example.returned (0, 0, ∅)
                                Example.small_trial)),
                    snd (Example.returned (0, 0, ∅) Example.small_trial),
                    Example.left_mem Example.small_trial))
    by exact_no_check
         (returned_trial (0, 0, ∅) Example.small_trial
            (eq_refl true <: Example.returns Example.small_trial = true)).
  exact (trial_shares_only_the_initial_batch Example.walker
           Example.sum_of_squares _ _ _ _ _ _ _ _ _ H).
Defined.

(** * Further properties *)

(** ** [plot.py] *)

Module PlotMore.
Import Plot.

Lemma running_take ys : forall b n,
  running b (take n ys) = take n (running b ys).
Proof.
  induction ys as [|y ys IH]; intros b [|n]; simpl; try done.
  by rewrite IH.
Qed.

(** Whatever the input holds, the best value after any prefix is not NaN,
    is [b] or an element of the prefix, and is below or equal to every
    element of the prefix that is not NaN. *)
Lemma running_any ys : forall b i m,
  F.is_nan b = false ->
  running b ys !! i = Some m ->
  F.is_nan m = false /\
  (m = b \/ m ∈ take (S i) ys) /\
  F.le m b = true /\
  Forall (fun y => F.is_nan y = false -> F.le m y = true) (take (S i) ys).
Proof.
  induction ys as [|y ys IH]; intros b i m Hb Hi; [done|].
  simpl in Hi.
  destruct (PlotFacts.best_step b y Hb) as [Hb' Hle]. simpl in Hb', Hle.
  assert (Hy' : F.is_nan y = false ->
                F.le (if F.lt y b then y else b) y = true).
  { intros Hy. destruct (F.lt y b) eqn:E;
      [by apply FOrder.le_refl|by apply FOrder.not_lt_le]. }
  destruct i as [|i]; simpl in Hi.
  - injection Hi as <-. change (take 1 (y :: ys)) with [y].
    split; [done|]. split; [|split; [done|]].
    + destruct (F.lt y b); [right; apply list_elem_of_here|by left].
    + by constructor.
  - destruct (IH _ _ _ Hb' Hi) as (Hm & Hin & Hle' & Hall).
    split; [done|]. split; [|split].
    + destruct Hin as [->|Hin].
      * destruct (F.lt y b); [right; apply list_elem_of_here|by left].
      * right. by apply list_elem_of_further.
    + by eapply FOrder.le_trans.
    + change (take (S (S i)) (y :: ys)) with (y :: take (S i) ys).
      constructor; [|done]. intros Hy. eapply FOrder.le_trans; [done|auto].
Qed.

End PlotMore.

(** X1: the best-so-far of the first [n] observations is the first [n]
    entries of the best-so-far of all of them: what is plotted at a turn
    does not depend on the observations made after it. *)
Theorem get_best_ys_take ys n :
  Plot.get_best_ys (take n ys) = take n (Plot.get_best_ys ys).
Proof.
  rewrite !PlotFacts.get_best_ys_running. apply PlotMore.running_take.
Qed.

(** X2: on any input, NaN included, an entry of [get_best_ys] is never NaN;
    it is [inf] or one of the observations up to its index, and it is below
    or equal to every observation up to its index that is not NaN: a NaN is
    passed over. *)
Theorem get_best_ys_passes_over_nan ys i m :
  Plot.get_best_ys ys !! i = Some m ->
  F.is_nan m = false /\
  (m = F.inf \/ m ∈ take (S i) ys) /\
  Forall (fun y => F.is_nan y = false -> F.le m y = true) (take (S i) ys).
Proof.
  rewrite PlotFacts.get_best_ys_running. intros H.
  destruct (PlotMore.running_any ys F.inf i m eq_refl H) as (? & ? & _ & ?).
  done.
Qed.

Lemma get_best_ys_passes_over_nan_witness :
  Plot.get_best_ys [F.nan; 2%float; F.nan; 1%float] !! 2 = Some 2%float /\
  F.is_nan 2%float = false /\
  (2%float = F.inf \/ 2%float ∈ take 3 [F.nan; 2%float; F.nan; 1%float]) /\
  Forall (fun y => F.is_nan y = false -> F.le 2%float y = true)
    (take 3 [F.nan; 2%float; F.nan; 1%float]).
Proof.
  assert (H : Plot.get_best_ys [F.nan; 2%float; F.nan; 1%float] !! 2
              = Some 2%float) by reflexivity.
  split; [exact H|].
  exact (get_best_ys_passes_over_nan _ _ _ H).
Defined.

(** ** [main.py]: the optimizer session *)

(** ** [Optimizer.__init__] *)

Lemma is_name_eq name n : is_name name n = true <-> name = SamplerName_value n.
Proof. unfold is_name. apply String.eqb_eq. Qed.

(** X3: [__init__] assigns a sampler exactly when the identifier is the
    value of a member of [SamplerName], it never assigns a study, and two
    different members are given different samplers. *)
Theorem init_assigns_sampler name :
  (is_Some (sampler (__init__ name)) <-> exists n, name = SamplerName_value n)
  /\ study (__init__ name) = None
  /\ forall n m,
       sampler (__init__ (SamplerName_value n))
       = sampler (__init__ (SamplerName_value m)) -> n = m.
Proof.
  split; [|split].
  - split.
    + unfold __init__.
      repeat match goal with
      | |- context [is_name name ?n] =>
          destruct (is_name name n) eqn:?;
          [exists n; by apply is_name_eq|]
      end.
      simpl. by intros [? ?].
    + intros [n ->]. by destruct n.
  - unfold __init__.
    repeat match goal with
    | |- context [is_name name ?n] => destruct (is_name name n)
    end; done.
  - intros n m. by destruct n, m.
Qed.

(** ** [_set_samples]: the parameters of an observation *)

(** X4: for the keys of a [dict], which are distinct, the parameters of an
    observation pair every feature with the entry of [X] at its position,
    in the order of the keys; what one of the two has beyond the length of
    the other is left out. *)
Theorem make_params_zip features X :
  NoDup features -> make_params features X = zip features X.
Proof.
  intros Hnd. unfold make_params. by rewrite make_params_from.
Qed.

(** ** Runs that return, runs that raise *)

Section Returns.
Context {W : Type} (lib : Optuna W).

Lemma bind_Raise {A B} (m : M W A) (k : A -> M W B) (s : mem W) e :
  m s = Raise e -> bind m k s = Raise e.
Proof. unfold bind. by intros ->. Qed.

Lemma bind_step {A B} (m : M W A) (k : A -> M W B) (s s1 : mem W) a :
  m s = Ok (a, s1) -> bind m k s = k a s1.
Proof. unfold bind. by intros ->. Qed.

Lemma lookup_alloc {A} (h l : list A) i :
  (h ++ l) !! (length h + i) = l !! i.
Proof. rewrite lookup_app_r by lia. f_equal. lia. Qed.

Lemma lookup_alloc_0 {A} (h l : list A) :
  (h ++ l) !! length h = l !! 0.
Proof. rewrite <- (lookup_alloc h l 0). f_equal. lia. Qed.

(** One observation is registered when its value has an entry, the
    library accepts its trial and there is a study. *)
Lemma register_returns ds self X y st (s : mem W) :
  NoDup (map fst ds) -> accepts lib ds (X, y) ->
  study self = Some st -> y <> [] ->
  register lib ds self (X, y) s
  = Ok (mkOptimizer (sampler self)
          (Some (add_trial st (replayed ds (X, y)))), s).
Proof.
  intros Hnd Hv Hst Hy. unfold register. destruct y as [|v y]; [done|].
  unfold accepts in Hv.
  rewrite <- (observation_trial_replayed ds (X, v :: y) Hnd) in Hv |- *.
  unfold observation_trial in Hv. simpl in Hv.
  simpl. unfold create_trial. unfold bind at 1. simpl.
  rewrite Hv. unfold bind at 1. simpl. by rewrite Hst.
Qed.

Lemma register_all_returns ds pairs : forall self st (s : mem W),
  NoDup (map fst ds) -> Forall (accepts lib ds) pairs ->
  study self = Some st ->
  Forall (fun Xy => snd Xy <> []) pairs ->
  for_each pairs (register lib ds) self s
  = Ok (mkOptimizer (sampler self)
          (Some (mkStudy (study_direction st) (study_sampler st)
                   (trials st ++ map (replayed ds) pairs))), s).
Proof.
  induction pairs as [|[X y] pairs IH]; intros self st s Hnd Hv Hst HF;
    simpl.
  - rewrite app_nil_r. destruct self as [sm st']. simpl in *. subst.
    by destruct st.
  - apply Forall_cons in HF as [Hy HF]. simpl in Hy.
    apply Forall_cons in Hv as [Hv0 Hv].
    erewrite bind_step by (by apply register_returns).
    erewrite IH; [|done..]. simpl. by rewrite <- app_assoc.
Qed.

Lemma zip_has_values (Xr yr : list (list float)) :
  Forall (fun r => r <> []) yr -> Forall (fun Xy => snd Xy <> []) (zip Xr yr).
Proof.
  intros H. revert Xr. induction H as [|y yr Hy _ IH]; intros [|X Xr];
    simpl; constructor; auto.
Qed.

Lemma set_samples_returns self Xs ys ds st Xa ya (s : mem W) :
  NoDup (map fst ds) ->
  Forall (accepts lib ds) (zip (rows Xa) (rows ya)) ->
  study self = Some st ->
  heap s !! Xs = Some Xa -> heap s !! ys = Some ya -> has_values ya ->
  _set_samples lib self Xs ys ds s
  = Ok (mkOptimizer (sampler self)
          (Some (mkStudy (study_direction st) (study_sampler st)
                   (trials st ++ map (replayed ds)
                                   (zip (rows Xa) (rows ya))))), s).
Proof.
  intros Hnd Hv Hst HX Hy Hval. unfold _set_samples.
  erewrite bind_step by (by apply read_Ok).
  erewrite bind_step by (by apply read_Ok).
  apply register_all_returns; [done..|]. by apply zip_has_values.
Qed.

(** The loop of [get_candidate] returns when the library answers for every
    feature. *)
Lemma suggest_all_returns number ds : forall st acc (s : mem W),
  Forall (answers lib) ds ->
  exists r s', for_each ds (suggest lib number) (st, acc) s = Ok (r, s').
Proof.
  induction ds as [|[name d] ds IH]; intros st acc s HF; simpl.
  - by eexists _, _.
  - apply Forall_cons in HF as [Ha HF]. unfold answers in Ha. simpl in Ha.
    destruct d as [low high|choices|low high].
    + destruct (Ha st number (world s)) as (v & w' & Hs).
      unfold suggest_float, extern_try, bind at 1 2 3. rewrite Hs. simpl.
      apply IH, HF.
    + destruct (Ha st number (world s)) as (v & w' & Hs).
      unfold suggest_categorical, extern_try, bind at 1 2 3. rewrite Hs.
      simpl. apply IH, HF.
    + unfold bind at 1. simpl. apply IH, HF.
Qed.

Lemma get_candidate_returns self Xs ys ds st Xa ya (s : mem W) :
  NoDup (map fst ds) ->
  Forall (accepts lib ds) (zip (rows Xa) (rows ya)) ->
  Forall (answers lib) ds ->
  study self = Some st ->
  heap s !! Xs = Some Xa -> heap s !! ys = Some ya -> has_values ya ->
  exists self' s',
    get_candidate lib self Xs ys ds s = Ok ((self', length (heap s)), s').
Proof.
  intros Hnd Hv Ha Hst HX Hy Hval. unfold get_candidate.
  erewrite bind_step by (by eapply set_samples_returns).
  unfold bind at 1. simpl. unfold ask.
  match goal with
  | |- context [for_each ds (suggest lib ?n) (?st0, ?acc)] =>
      destruct (suggest_all_returns n ds st0 acc s Ha) as (r & s1 & Hr)
  end.
  erewrite bind_step by exact Hr.
  apply suggest_asked in Hr as (row & _ & _ & Hh).
  unfold alloc, bind, ret. simpl. rewrite Hh. by eexists _, _.
Qed.

End Returns.

Section SessionMore.
Context {W : Type} (lib : Optuna W).

(** X5: when there is a study, every value has an entry and the library
    accepts the trial of every pair of [zip(Xs, ys)], [_set_samples]
    returns and leaves the memory as it is; the study keeps the trials it
    had and gains, for every pair and in order, one finished trial that
    pairs every feature with the entry of [X] at its position and has
    [y[0]] for its value: as many trials as the shorter of the two has
    rows. *)
Theorem set_samples_appends self Xs ys ds st Xa ya (s : mem W) :
  NoDup (map fst ds) ->
  Forall (accepts lib ds) (zip (rows Xa) (rows ya)) ->
  study self = Some st ->
  heap s !! Xs = Some Xa -> heap s !! ys = Some ya -> has_values ya ->
  exists st',
    _set_samples lib self Xs ys ds s
    = Ok (mkOptimizer (sampler self) (Some st'), s) /\
    trials st'
    = trials st
      ++ map (fun Xy => Trial COMPLETE (zip (map fst ds) (fst Xy)) ds
                          (head (snd Xy)))
           (zip (rows Xa) (rows ya)) /\
    length (trials st')
    = length (trials st) + Nat.min (length (rows Xa)) (length (rows ya)) /\
    study_direction st' = study_direction st /\
    study_sampler st' = study_sampler st.
Proof.
  intros Hnd Hv Hst HX Hy Hval. eexists. split.
  - by eapply set_samples_returns.
  - simpl. split; [done|]. split; [|done].
    by rewrite length_app, length_map, length_zip.
Qed.

(** X7: with a study, observations whose values have an entry and whose
    trials the library accepts, and a library that proposes a value for
    every feature, [get_candidate] returns a reference to a new array: one
    row, with an entry for every feature that is continuous or
    categorical, which is what the one trial asked of the study with the
    replayed observations was suggested; the arrays that were there are as
    they were. *)
Theorem get_candidate_new_row self Xs ys ds st Xa ya (s : mem W) :
  NoDup (map fst ds) ->
  Forall (accepts lib ds) (zip (rows Xa) (rows ya)) ->
  Forall (answers lib) ds ->
  study self = Some st ->
  heap s !! Xs = Some Xa -> heap s !! ys = Some ya -> has_values ya ->
  exists self' s' row st',
    get_candidate lib self Xs ys ds s = Ok ((self', length (heap s)), s') /\
    heap s' = heap s ++ [row_vector row] /\
    length row = length (filter supported ds) /\
    study self' = Some st' /\
    asked lib
      (length (trials st) + length (zip (rows Xa) (rows ya))) ds
      (mkStudy (study_direction st) (study_sampler st)
         ((trials st ++ map (replayed ds) (zip (rows Xa) (rows ya)))
          ++ [Trial RUNNING [] [] None]))
      (world s) row st' (world s').
Proof.
  intros Hnd Hv Ha Hst HX Hy Hval.
  destruct (get_candidate_returns lib self Xs ys ds st Xa ya s)
    as (self' & s' & H); try done.
  pose proof H as H'.
  apply get_candidate_Ok in H'
    as (_ & _ & _ & row & _ & _ & _ & _ & _ & Hh & _ & _ & _ & Hrow).
  pose proof H as H''.
  apply get_candidate_asked in H''
    as (Xa' & ya' & st0 & row' & st' & HX' & Hy' & Hst0 & Hasked & Hst'
        & _ & Hh').
  assert (Xa' = Xa) as -> by congruence.
  assert (ya' = ya) as -> by congruence.
  assert (st0 = st) as -> by congruence.
  assert (row' = row) as ->.
  { rewrite Hh' in Hh. apply app_inv_head in Hh. by injection Hh as _ ->. }
  exists self', s', row, st'. split; [done|]. split; [done|].
  split; [symmetry; by eapply Forall2_length|]. split; [done|].
  rewrite length_app, length_map in Hasked.
  erewrite map_ext in Hasked; [exact Hasked|].
  intros Xy. by apply observation_trial_replayed.
Qed.

End SessionMore.

Section SessionErrors.
Context {W : Type} (lib : Optuna W).

(** X6: observations whose values have no column cannot be replayed: with
    at least one observation, [_set_samples] raises [IndexError] at [y[0]]
    of the first one, before the library or the study is used. *)
Theorem set_samples_without_value self Xs ys ds Xa ya (s : mem W) :
  heap s !! Xs = Some Xa -> heap s !! ys = Some ya ->
  well_shaped ya -> ncols ya = 0 -> rows Xa <> [] -> rows ya <> [] ->
  _set_samples lib self Xs ys ds s = Raise IndexError.
Proof.
  intros HX Hy Hw Hc HXr Hyr. unfold _set_samples.
  erewrite bind_step by (by apply read_Ok).
  erewrite bind_step by (by apply read_Ok).
  unfold well_shaped in Hw. rewrite Hc in Hw.
  destruct (rows Xa) as [|X Xr]; [done|].
  destruct (rows ya) as [|y yr]; [done|].
  apply Forall_cons in Hw as [H0 _]. destruct y; [|done]. done.
Qed.

(** X8: [get_candidate] on an optimizer that has no study raises
    [AttributeError]: at [self.study.ask()] when there is no observation,
    and at [self.study.add_trial] when the first observation has a value
    and the library accepts its trial. *)
Theorem get_candidate_without_study self Xs ys ds Xa ya (s : mem W) :
  NoDup (map fst ds) -> study self = None ->
  heap s !! Xs = Some Xa -> heap s !! ys = Some ya ->
  (forall Xy, head (zip (rows Xa) (rows ya)) = Some Xy ->
     snd Xy <> [] /\ accepts lib ds Xy) ->
  get_candidate lib self Xs ys ds s = Raise AttributeError.
Proof.
  intros Hnd Hst HX Hy Hfirst. unfold get_candidate. unfold _set_samples.
  unfold bind at 1. unfold bind at 1.
  rewrite (proj2 (read_Ok Xs s s Xa) (conj HX eq_refl)).
  unfold bind at 1.
  rewrite (proj2 (read_Ok ys s s ya) (conj Hy eq_refl)).
  destruct (zip (rows Xa) (rows ya)) as [|[X y] pairs]; simpl.
  - by rewrite Hst.
  - destruct (Hfirst (X, y) eq_refl) as [Hy0 Hv]. simpl in Hy0.
    destruct y as [|v y]; [done|]. unfold accepts in Hv.
    rewrite <- (observation_trial_replayed ds (X, v :: y) Hnd) in Hv.
    unfold observation_trial in Hv. simpl in Hv.
    unfold register. simpl.
    unfold bind at 1. unfold bind at 1. simpl.
    unfold create_trial. unfold bind at 1. rewrite Hv. simpl.
    unfold bind at 1. by rewrite Hst.
Qed.

End SessionErrors.

(** The library of the examples proposes a value for a range that is not
    empty and for a list of choices that is not; and it accepts the observations of the initial batch. *)
Lemma checker_answers (item : string * Distribution) :
  match snd item with
  | FloatDistribution low high => F.le low high = true
  | CategoricalDistribution choices => choices <> []
  | IntDistribution _ _ => True
  end ->
  answers Example.checker item.
Proof.
  destruct item as [name [low high|choices|low high]]; unfold answers; simpl;
    [| |done].
  - intros Hle st number w. rewrite Hle.
    destruct (_ && _); by eexists _, _.
  - intros Hc st number w. destruct choices as [|c cs]; [done|].
    by eexists _, _.
Qed.

Lemma checker_answers_squares :
  Forall (answers Example.checker) (distributions Example.sum_of_squares).
Proof. repeat constructor; by apply checker_answers. Qed.

Lemma batch_accepted :
  Forall (accepts Example.checker (distributions Example.sum_of_squares))
    (zip (rows (Example.array_at (Example.left_mem Example.batch)
                  Example.X_batch))
         (rows (Example.array_at (Example.left_mem Example.batch)
                  Example.y_batch))).
Proof. vm_compute. repeat constructor. Qed.

Lemma make_params_zip_witness :
  NoDup ["x0"; "x1"]%string /\
  make_params ["x0"; "x1"]%string [1%float; 2%float; 3%float]
  = zip ["x0"; "x1"]%string [1%float; 2%float; 3%float].
Proof.
  assert (H : NoDup ["x0"; "x1"]%string).
  { apply NoDup_cons. split.
    - intros Hin. apply list_elem_of_singleton in Hin. discriminate Hin.
    - apply NoDup_singleton. }
  split; [exact H|]. exact (make_params_zip _ _ H).
Defined.

Lemma set_samples_appends_witness :
  exists st',
    _set_samples Example.checker Example.session Example.X_batch
      Example.y_batch (distributions Example.sum_of_squares)
      (Example.left_mem Example.batch)
    = Ok (mkOptimizer (sampler Example.session) (Some st'),
          Example.left_mem Example.batch) /\
    trials st'
    = trials (mkStudy minimize (BoTorchSampler lcb) [])
      ++ map (fun Xy =>
                Trial COMPLETE
                  (zip (map fst (distributions Example.sum_of_squares))
                     (fst Xy))
                  (distributions Example.sum_of_squares) (head (snd Xy)))
           (zip (rows (Example.array_at (Example.left_mem Example.batch)
                         Example.X_batch))
                (rows (Example.array_at (Example.left_mem Example.batch)
                         Example.y_batch))) /\
    length (trials st')
    = length (trials (mkStudy minimize (BoTorchSampler lcb) []))
      + Nat.min
          (length (rows (Example.array_at (Example.left_mem Example.batch)
                           Example.X_batch)))
          (length (rows (Example.array_at (Example.left_mem Example.batch)
                           Example.y_batch))) /\
    study_direction st'
    = study_direction (mkStudy minimize (BoTorchSampler lcb) []) /\
    study_sampler st'
    = study_sampler (mkStudy minimize (BoTorchSampler lcb) []).
Proof.
  refine (set_samples_appends Example.checker Example.session
            Example.X_batch Example.y_batch
            (distributions Example.sum_of_squares)
            (mkStudy minimize (BoTorchSampler lcb) [])
            (Example.array_at (Example.left_mem Example.batch)
               Example.X_batch)
            (Example.array_at (Example.left_mem Example.batch)
               Example.y_batch)
            (Example.left_mem Example.batch)
            sum_of_squares_names batch_accepted _ _ _ _).
  - vm_compute. reflexivity.
  - vm_compute. reflexivity.
  - vm_compute. reflexivity.
  - vm_compute. repeat constructor; discriminate.
Defined.

Lemma set_samples_without_value_witness :
  _set_samples Example.walker Example.session 0 1 Example.plain
    Example.no_value
  = Raise IndexError.
Proof.
  refine (set_samples_without_value Example.walker Example.session 0 1
            Example.plain (array2 1 [[1%float]]) (array2 0 [[]])
            Example.no_value eq_refl eq_refl _ eq_refl _ _).
  - by repeat constructor.
  - by simpl.
  - by simpl.
Defined.

Lemma get_candidate_new_row_witness :
  exists self' s' row st',
    get_candidate Example.checker Example.session Example.X_batch
      Example.y_batch (distributions Example.sum_of_squares)
      (Example.left_mem Example.batch)
    = Ok ((self', length (heap (Example.left_mem Example.batch))), s') /\
    heap s' = heap (Example.left_mem Example.batch) ++ [row_vector row] /\
    length row
    = length (filter supported (distributions Example.sum_of_squares)) /\
    study self' = Some st' /\
    asked Example.checker
      (length (trials (mkStudy minimize (BoTorchSampler lcb) []))
       + length (zip (rows (Example.array_at
                              (Example.left_mem Example.batch)
                              Example.X_batch))
                     (rows (Example.array_at
                              (Example.left_mem Example.batch)
                              Example.y_batch))))
      (distributions Example.sum_of_squares)
      (mkStudy
         (study_direction (mkStudy minimize (BoTorchSampler lcb) []))
         (study_sampler (mkStudy minimize (BoTorchSampler lcb) []))
         ((trials (mkStudy minimize (BoTorchSampler lcb) [])
           ++ map (replayed (distributions Example.sum_of_squares))
                (zip (rows (Example.array_at
                              (Example.left_mem Example.batch)
                              Example.X_batch))
                     (rows (Example.array_at
                              (Example.left_mem Example.batch)
                              Example.y_batch))))
          ++ [Trial RUNNING [] [] None]))
      (world (Example.left_mem Example.batch)) row st' (world s').
Proof.
  refine (get_candidate_new_row Example.checker Example.session
            Example.X_batch Example.y_batch
            (distributions Example.sum_of_squares)
            (mkStudy minimize (BoTorchSampler lcb) [])
            (Example.array_at (Example.left_mem Example.batch)
               Example.X_batch)
            (Example.array_at (Example.left_mem Example.batch)
               Example.y_batch)
            (Example.left_mem Example.batch)
            sum_of_squares_names batch_accepted checker_answers_squares
            _ _ _ _).
  - vm_compute. reflexivity.
  - vm_compute. reflexivity.
  - vm_compute. reflexivity.
  - vm_compute. repeat constructor; discriminate.
Defined.

Lemma get_candidate_without_study_witness :
  get_candidate Example.checker (__init__ "LCB") Example.X_batch
    Example.y_batch (distributions Example.sum_of_squares)
    (Example.left_mem Example.batch)
  = Raise AttributeError.
Proof.
  refine (get_candidate_without_study Example.checker (__init__ "LCB")
            Example.X_batch Example.y_batch
            (distributions Example.sum_of_squares)
            (Example.array_at (Example.left_mem Example.batch)
               Example.X_batch)
            (Example.array_at (Example.left_mem Example.batch)
               Example.y_batch)
            (Example.left_mem Example.batch)
            sum_of_squares_names eq_refl _ _ _).
  - vm_compute. reflexivity.
  - vm_compute. reflexivity.
  - intros Xy HXy. vm_compute in HXy. injection HXy as <-.
    split; [discriminate|]. vm_compute. reflexivity.
Defined.

(** ** [main.py]: [run_optimization] *)

Section RunMore.
Context {W : Type} (lib : Optuna W) (func : TargetFunction W).

(** A turn that returned concatenated arrays whose second axes agree. *)
Lemma iteration_cols d self Xs ys (s s' : mem W) st' :
  iteration lib func d (self, Xs, ys) s = Ok (st', s') ->
  exists Xa, heap s !! Xs = Some Xa /\
             ncols Xa = length (filter supported (distributions func)).
Proof.
  unfold iteration. intros H.
  apply bind_Ok in H as (self1 & s1 & Hc & H).
  apply bind_Ok in H as ([self2 new_X] & s2 & Hg & H).
  apply bind_Ok in H as (new_y & s3 & Hf & H).
  apply bind_Ok in H as (Xs1 & s4 & HX & _).
  apply create_study_Ok in Hc as (-> & _).
  apply get_candidate_Ok in Hg
    as (Xa & ya & st & row & running & HXa & _ & _ & -> & Hh2 & _ & _ & _
        & Hrow).
  apply call_f_Ok in Hf as (a & _ & -> & ->).
  apply np_concatenate_Ok in HX as (a1 & b & Ha & Hb & Hcols & _).
  simpl in *. rewrite Hh2 in Ha, Hb. rewrite <- app_assoc in Ha, Hb.
  rewrite lookup_app_l in Ha by (by eapply lookup_lt_Some).
  rewrite lookup_alloc_0 in Hb. simpl in Hb. injection Hb as <-.
  exists Xa. split; [done|].
  assert (a1 = Xa) as -> by congruence.
  rewrite Hcols. simpl. symmetry. by eapply Forall2_length.
Qed.

Lemma filter_supported_length (ds : Distributions) :
  Exists (fun item => supported item = false) ds ->
  length (filter supported ds) < length ds.
Proof.
  induction 1 as [item ds Hi|item ds _ IH].
  - rewrite filter_cons_False by (rewrite Hi; intros []). simpl.
    pose proof (length_filter supported ds). lia.
  - destruct (supported item) eqn:E.
    + rewrite filter_cons_True by (by rewrite E). simpl. lia.
    + rewrite filter_cons_False by (rewrite E; intros []). simpl. lia.
Qed.

(** X11: a search space with a descriptor that is neither continuous nor
    categorical stops the run at its first turn: the candidate has an entry
    less than the observed points have columns, and nothing is returned. *)
Theorem run_optimization_passed_over d X_init y_init name k X0 (s : mem W) :
  heap s !! X_init = Some X0 ->
  ncols X0 = length (distributions func) ->
  Exists (fun item => supported item = false) (distributions func) ->
  exists e,
    run_optimization lib func d X_init y_init name (S k) s = Raise e.
Proof.
  intros HX0 Hc Hex.
  destruct (run_optimization lib func d X_init y_init name (S k) s)
    as [[ys s']|e] eqn:E; [|by exists e].
  exfalso. unfold run_optimization in E.
  apply bind_Ok in E as ([[self Xs] ys1] & s1 & H & _).
  unfold run_iterations in H.
  apply bind_Ok in H as (Xs0 & s2 & HX & H).
  apply bind_Ok in H as (ys0 & s3 & Hy & H).
  simpl in H. apply bind_Ok in H as (st1 & s4 & Hi & _).
  apply np_copy_Ok in HX as (X0' & HX0' & -> & ->).
  apply np_copy_Ok in Hy as (y0 & Hy0 & -> & ->). simpl in *.
  apply iteration_cols in Hi as (Xa & HXa & Hcols). simpl in HXa.
  rewrite <- app_assoc in HXa. rewrite lookup_alloc_0 in HXa.
  simpl in HXa. injection HXa as <-.
  assert (X0' = X0) as -> by congruence.
  apply filter_supported_length in Hex. lia.
Qed.

(** X9: with no turn to make, [run_optimization] returns a new array that
    holds what [y_init] holds, whatever the identifier of the sampler and
    the direction are: neither is looked at before the first turn. *)
Theorem run_optimization_no_turn d X_init y_init name X0 y0 (s : mem W) :
  heap s !! X_init = Some X0 -> heap s !! y_init = Some y0 ->
  run_optimization lib func d X_init y_init name 0 s
  = Ok (S (length (heap s)), Mem (heap s ++ [X0; y0]) (world s)).
Proof.
  intros HX Hy. unfold run_optimization, run_iterations.
  erewrite bind_step.
  2:{ erewrite bind_step by (apply np_copy_Ok; by exists X0).
      erewrite bind_step.
      2:{ apply np_copy_Ok. exists y0. simpl. split; [|done].
          rewrite lookup_app_l by (by eapply lookup_lt_Some). done. }
      simpl. reflexivity. }
  unfold ret. simpl. rewrite length_app. simpl. rewrite <- app_assoc. simpl.
  repeat f_equal. lia.
Qed.

(** X10: with an identifier that is the name of no sampler,
    [run_optimization] copies the initial batch and raises
    [AttributeError] in its first turn, at [create_study]. *)
Theorem run_optimization_unrecognized d X_init y_init name k X0 y0
    (s : mem W) :
  unrecognized name ->
  heap s !! X_init = Some X0 -> heap s !! y_init = Some y0 ->
  run_optimization lib func d X_init y_init name (S k) s
  = Raise AttributeError.
Proof.
  intros Hn HX Hy. unfold run_optimization, run_iterations.
  apply bind_Raise.
  erewrite bind_step by (apply np_copy_Ok; by exists X0).
  erewrite bind_step.
  2:{ apply np_copy_Ok. exists y0. simpl. split; [|done].
      rewrite lookup_app_l by (by eapply lookup_lt_Some). done. }
  simpl. apply bind_Raise. unfold iteration. apply bind_Raise.
  assert (E : __init__ name = mkOptimizer None None).
  { unfold __init__. by rewrite !Hn. }
  by rewrite E.
Qed.

(** X12: after [k] turns, the points are the initial ones followed by the
    [k] candidates, each made of values the library proposed for the
    features asked for, and the values are the initial ones followed by the
    value of the objective at each candidate, in the same order. *)
Theorem run_iterations_history d X_init y_init name X0 y0 k :
  forall (s s' : mem W) self Xs ys,
  heap s !! X_init = Some X0 -> heap s !! y_init = Some y0 ->
  run_iterations lib func d X_init y_init name k s = Ok ((self, Xs, ys), s') ->
  exists Xa ya newX,
    heap s' !! Xs = Some Xa /\ heap s' !! ys = Some ya /\
    rows Xa = rows X0 ++ newX /\ length newX = k /\
    Forall (Forall2 (proposed lib) (filter supported (distributions func)))
      newX /\
    rows ya = rows y0 ++ values_at func newX.
Proof.
  induction k as [|k IH]; intros s s' self Xs ys HX0 Hy0 H.
  - apply run_iterations_O in H as (X0' & y0' & HX0' & Hy0' & [= -> -> ->] & ->).
    rewrite lookup_app_l in Hy0' by (by eapply lookup_lt_Some).
    assert (X0' = X0) as -> by congruence.
    assert (y0' = y0) as -> by congruence.
    exists X0, y0, []. simpl. rewrite !app_nil_r.
    repeat split; try done.
    + by rewrite lookup_alloc_0.
    + replace (S (length (heap s))) with (length (heap s) + 1) by lia.
      by rewrite lookup_alloc.
  - apply run_iterations_S in H as ([[self1 Xs1] ys1] & s1 & Hk & Hi).
    apply IH in Hk as (Xa & ya & newX & HXa & Hya & HrX & HlX & Hprop & Hry);
      [|done..].
    apply iteration_Ok in Hi
      as (sm & dir & Xa' & ya' & row & running & _ & HXa' & Hya' & _ & _ & _
          & Hrow & Hh & -> & ->).
    assert (Xa' = Xa) as -> by congruence.
    assert (ya' = ya) as -> by congruence.
    exists (array2 (ncols Xa) (rows Xa ++ [row])),
      (array2 (ncols ya) (rows ya ++ rows (f func (row_vector row)))),
      (newX ++ [row]).
    rewrite Hh. rewrite !lookup_alloc. simpl.
    rewrite HrX, Hry, <- !app_assoc, length_app. simpl.
    repeat split; try done; try lia.
    + apply Forall_app. split; [done|]. by constructor.
    + unfold values_at. rewrite flat_map_app. simpl. by rewrite app_nil_r.
Qed.

End RunMore.

Section SamplerOfRun.
Context {W : Type} (lib : Optuna W) (func : TargetFunction W).

Lemma iteration_sampler d self Xs ys (s s' : mem W) self' Xs' ys' :
  iteration lib func d (self, Xs, ys) s = Ok ((self', Xs', ys'), s') ->
  sampler self' = sampler self /\
  exists sm st, sampler self = Some sm /\ study self' = Some st /\
    study_sampler st = sm /\ study_direction st = direction_of d /\
    is_direction d.
Proof.
  unfold iteration. intros H.
  apply bind_Ok in H as (self1 & s1 & Hc & H).
  apply bind_Ok in H as ([self2 new_X] & s2 & Hg & H).
  apply bind_Ok in H as (new_y & s3 & _ & H).
  apply bind_Ok in H as (Xs1 & s4 & _ & H).
  apply bind_Ok in H as (ys1 & s5 & _ & [[= -> -> ->] ->]%ret_Ok).
  apply create_study_exact in Hc as (sm & Hsm & Hd & ->).
  apply get_candidate_Ok in Hg
    as (Xa & ya & st & row & running & _ & _ & Hst & _ & _ & Hs2 & Hst2 & _).
  simpl in *. injection Hst as <-. simpl in *.
  split; [congruence|]. by eexists _, _.
Qed.

(** X13: the sampler is made once, by [__init__], and every turn of
    [run_optimization] creates its study with this sampler and with the
    direction given, which is one [optuna] knows. *)
Theorem run_keeps_sampler d X_init y_init name k :
  forall (s s' : mem W) self Xs ys,
  run_iterations lib func d X_init y_init name (S k) s
  = Ok ((self, Xs, ys), s') ->
  exists sm st,
    sampler (__init__ name) = Some sm /\ sampler self = Some sm /\
    study self = Some st /\ study_sampler st = sm /\
    study_direction st = direction_of d /\ is_direction d.
Proof.
  assert (Hinv : forall j (s s' : mem W) self Xs ys,
            run_iterations lib func d X_init y_init name j s
            = Ok ((self, Xs, ys), s') ->
            sampler self = sampler (__init__ name)).
  { induction j as [|j IH]; intros s s' self Xs ys H.
    - by apply run_iterations_O in H as (_ & _ & _ & _ & [= -> _ _] & _).
    - apply run_iterations_S in H as ([[self1 Xs1] ys1] & s1 & Hj & Hi).
      apply iteration_sampler in Hi as [-> _]. by eapply IH. }
  intros s s' self Xs ys H.
  apply run_iterations_S in H as ([[self1 Xs1] ys1] & s1 & Hk & Hi).
  apply Hinv in Hk.
  apply iteration_sampler in Hi as (Hs & sm & st & Hsm & Hst & ?).
  exists sm, st. rewrite Hs. split; [congruence|]. done.
Qed.

End SamplerOfRun.

Section RunReturns.
Context {W : Type} (lib : Optuna W) (func : TargetFunction W).

Lemma create_study_returns self d sm (s : mem W) :
  sampler self = Some sm -> is_direction d ->
  exists st, create_study self d s
             = Ok (mkOptimizer (Some sm) (Some st), s) /\ trials st = [].
Proof.
  intros Hs [-> | ->]; unfold create_study; rewrite Hs; simpl;
    by eexists.
Qed.

Lemma init_sampler n : is_Some (sampler (__init__ (SamplerName_value n))).
Proof. by destruct n. Qed.

Lemma column_has_values a :
  Forall (fun r => length r = 1) (rows a) -> has_values a.
Proof.
  unfold has_values. intros H. eapply Forall_impl; [done|].
  by intros r Hr ->.
Qed.

(** A turn returns when the observations fit the search space and the
    library does its part. *)
Lemma iteration_returns d self Xs ys sm Xa ya (s : mem W) :
  NoDup (map fst (distributions func)) ->
  Forall (accepts lib (distributions func)) (zip (rows Xa) (rows ya)) ->
  Forall (answers lib) (distributions func) ->
  evaluates_rows func -> is_direction d ->
  sampler self = Some sm ->
  heap s !! Xs = Some Xa -> heap s !! ys = Some ya ->
  ncols Xa = length (filter supported (distributions func)) ->
  ncols ya = 1 -> has_values ya ->
  exists st' s', iteration lib func d (self, Xs, ys) s = Ok (st', s').
Proof.
  intros Hnd Hv Ha Hf Hd Hs HX Hy HcX Hcy Hval. unfold iteration.
  destruct (create_study_returns self d sm s Hs Hd) as (st & Hc & Hts).
  erewrite bind_step by exact Hc.
  destruct (get_candidate_returns lib (mkOptimizer (Some sm) (Some st)) Xs ys
              (distributions func) st Xa ya s Hnd Hv Ha eq_refl HX Hy Hval)
    as (self' & s1 & Hg).
  erewrite bind_step by exact Hg. simpl.
  apply get_candidate_Ok in Hg
    as (Xa' & ya' & st0 & row & running & HXa' & Hya' & _ & _ & Hh & _ & _
        & _ & Hrow).
  assert (Xa' = Xa) as -> by congruence.
  assert (ya' = ya) as -> by congruence.
  erewrite bind_step.
  2:{ apply call_f_Ok. exists (row_vector row). split; [|done].
      rewrite Hh. by rewrite lookup_alloc_0. }
  erewrite bind_step.
  2:{ apply np_concatenate_Ok. exists Xa, (row_vector row). simpl.
      rewrite Hh, <- app_assoc.
      rewrite lookup_app_l by (by eapply lookup_lt_Some).
      rewrite lookup_alloc_0. simpl. repeat split; try done.
      rewrite HcX. by eapply Forall2_length. }
  erewrite bind_step.
  2:{ apply np_concatenate_Ok. exists ya, (f func (row_vector row)). simpl.
      rewrite Hh, <- !app_assoc.
      rewrite lookup_app_l by (by eapply lookup_lt_Some).
      replace (length (heap s ++ [row_vector row]))
        with (length (heap s) + 1) by (rewrite length_app; simpl; lia).
      rewrite lookup_alloc. simpl. repeat split; try done.
      destruct (Hf (row_vector row)) as (-> & _). done. }
  by eexists _, _.
Qed.

(** The loop of [run_optimization] returns, turn after turn, and the
    observations it holds are ones the library accepts. *)
Lemma run_iterations_returns d X_init y_init n X0 y0 k : forall (s : mem W),
  NoDup (map fst (distributions func)) ->
  Forall (accepts lib (distributions func)) (zip (rows X0) (rows y0)) ->
  accepts_candidates lib func ->
  Forall (answers lib) (distributions func) ->
  evaluates_rows func -> is_direction d ->
  heap s !! X_init = Some X0 -> heap s !! y_init = Some y0 ->
  ncols X0 = length (filter supported (distributions func)) ->
  ncols y0 = 1 -> has_values y0 ->
  length (rows X0) = length (rows y0) ->
  exists self Xs ys s' Xa ya,
    run_iterations lib func d X_init y_init (SamplerName_value n) k s
    = Ok ((self, Xs, ys), s') /\
    is_Some (sampler self) /\
    heap s' !! Xs = Some Xa /\ heap s' !! ys = Some ya /\
    ncols Xa = ncols X0 /\ ncols ya = 1 /\ has_values ya /\
    length (rows Xa) = length (rows ya) /\
    Forall (accepts lib (distributions func)) (zip (rows Xa) (rows ya)).
Proof.
  intros s Hnd Hv Hcand Ha Hf Hd HX0 Hy0 HcX Hcy Hval Hlen.
  induction k as [|k IH].
  - unfold run_iterations.
    erewrite bind_step by (apply np_copy_Ok; by exists X0).
    erewrite bind_step.
    2:{ apply np_copy_Ok. exists y0. simpl. split; [|done].
        rewrite lookup_app_l by (by eapply lookup_lt_Some). done. }
    simpl. exists (__init__ (SamplerName_value n)), (length (heap s)),
      (length (heap s ++ [X0])), 
      (Mem ((heap s ++ [X0]) ++ [y0]) (world s)), X0, y0.
    split; [done|]. split; [apply init_sampler|]. simpl.
    rewrite <- app_assoc. simpl. rewrite lookup_alloc_0. simpl.
    rewrite length_app. simpl. rewrite lookup_alloc. simpl. done.
  - destruct IH
      as (self & Xs & ys & s1 & Xa & ya & Hk & [sm Hsm] & HXa & Hya & HcXa
          & Hcya & Hvala & Hlena & Hva).
    destruct (iteration_returns d self Xs ys sm Xa ya s1)
      as ([[self' Xs'] ys'] & s' & Hi); try done; try congruence.
    pose proof Hi as Hi'.
    apply iteration_Ok in Hi'
      as (sm' & dir & Xa' & ya' & row & running & _ & HXa' & Hya' & Hsm' & _
          & _ & Hrow & Hh & -> & ->).
    assert (Xa' = Xa) as -> by congruence.
    assert (ya' = ya) as -> by congruence.
    destruct (evaluates_one_row func row Hf) as [v Hfv].
    pose proof (Hcand row Hrow) as Hacc. rewrite Hfv in Hh, Hacc.
    apply Forall_cons in Hacc as [Hacc _].
    exists self', (length (heap s1) + 2), (length (heap s1) + 3), s',
      (array2 (ncols Xa) (rows Xa ++ [row])),
      (array2 (ncols ya) (rows ya ++ [[v]])).
    split; [apply run_iterations_S; by eexists _, _|].
    split; [by exists sm'|]. rewrite Hh, !lookup_alloc. simpl.
    repeat split; try done.
    + unfold has_values. simpl. apply Forall_app. split; [done|].
      by repeat constructor.
    + rewrite !length_app. simpl. lia.
    + rewrite zip_with_app by done. apply Forall_app. split; [done|].
      by repeat constructor.
Qed.

(** X14: [run_optimization] returns, for any number of turns, when the
    sampler is one of [SamplerName], the direction is one [optuna] knows,
    the keys of the search space are distinct, the library proposes a
    value for every feature and accepts the trials the run registers
    (those of the initial observations, and those of the candidates it
    proposed with the value the objective gives them), the objective gives
    one value a row, and the initial batch fits: as many columns as
    features asked for, one column of values, as many points as
    values. *)
Theorem run_optimization_returns d X_init y_init n X0 y0 k (s : mem W) :
  NoDup (map fst (distributions func)) ->
  Forall (accepts lib (distributions func)) (zip (rows X0) (rows y0)) ->
  accepts_candidates lib func ->
  Forall (answers lib) (distributions func) ->
  evaluates_rows func -> is_direction d ->
  heap s !! X_init = Some X0 -> heap s !! y_init = Some y0 ->
  ncols X0 = length (filter supported (distributions func)) ->
  ncols y0 = 1 -> has_values y0 ->
  length (rows X0) = length (rows y0) ->
  exists ys s',
    run_optimization lib func d X_init y_init (SamplerName_value n) k s
    = Ok (ys, s').
Proof.
  intros Hnd Hv Hcand Ha Hf Hd HX0 Hy0 HcX Hcy Hval Hlen.
  destruct (run_iterations_returns d X_init y_init n X0 y0 k s)
    as (self & Xs & ys & s' & Xa & ya & H & _); try done.
  unfold run_optimization. erewrite bind_step by exact H.
  by eexists _, _.
Qed.

End RunReturns.

Lemma run_optimization_no_turn_witness :
  run_optimization Example.walker Example.sum_of_squares "sideways"
    Example.X_batch Example.y_batch "GP-UCB" 0 (Example.left_mem Example.batch)
  = Ok (S (length (heap (Example.left_mem Example.batch))),
        Mem (heap (Example.left_mem Example.batch)
             ++ [Example.array_at (Example.left_mem Example.batch)
                   Example.X_batch;
                 Example.array_at (Example.left_mem Example.batch)
                   Example.y_batch])
          (world (Example.left_mem Example.batch))).
Proof.
  refine (run_optimization_no_turn Example.walker Example.sum_of_squares
            "sideways" Example.X_batch Example.y_batch "GP-UCB" _ _
            (Example.left_mem Example.batch) _ _).
  - vm_compute. reflexivity.
  - vm_compute. reflexivity.
Defined.

Lemma run_optimization_unrecognized_witness :
  run_optimization Example.walker Example.sum_of_squares "minimize"
    Example.X_batch Example.y_batch "GP-UCB" 1 (Example.left_mem Example.batch)
  = Raise AttributeError.
Proof.
  assert (Hn : unrecognized "GP-UCB") by (by intros []).
  refine (run_optimization_unrecognized Example.walker
            Example.sum_of_squares "minimize" Example.X_batch
            Example.y_batch "GP-UCB" 0
            (Example.array_at (Example.left_mem Example.batch)
               Example.X_batch)
            (Example.array_at (Example.left_mem Example.batch)
               Example.y_batch)
            (Example.left_mem Example.batch) Hn _ _).
  - vm_compute. reflexivity.
  - vm_compute. reflexivity.
Defined.

Lemma run_optimization_passed_over_witness :
  exists e,
    run_optimization Example.walker (Example.over Example.mixed) "minimize"
      0 1 "LCB" 1 Example.one_point
    = Raise e.
Proof.
  refine (run_optimization_passed_over Example.walker
            (Example.over Example.mixed) "minimize" 0 1 "LCB" 0
            (array2 3 [[0%float; 0%float; 1%float]]) Example.one_point
            eq_refl eq_refl _).
  apply Exists_cons_tl, Exists_cons_hd. reflexivity.
Defined.

Lemma run_iterations_history_witness :
  exists Xa ya newX,
    heap (Example.left_mem (Example.turns 2))
      !! snd (fst (Example.returned Example.no_session (Example.turns 2)))
    = Some Xa /\
    heap (Example.left_mem (Example.turns 2))
      !! snd (Example.returned Example.no_session (Example.turns 2))
    = Some ya /\
    rows Xa
    = rows (Example.array_at (Example.left_mem Example.batch)
              Example.X_batch) ++ newX /\
    length newX = 2 /\
    Forall (Forall2 (proposed Example.walker)
              (filter supported (distributions Example.sum_of_squares)))
      newX /\
    rows ya
    = rows (Example.array_at (Example.left_mem Example.batch)
              Example.y_batch)
      ++ values_at Example.sum_of_squares newX.
Proof.
  assert (H : Example.turns 2
              = Ok (fst (fst (Example.returned Example.no_session
                                (Example.turns 2))),
                    snd (fst (Example.returned Example.no_session
                                (Example.turns 2))),
                    snd (Example.returned Example.no_session
                           (Example.turns 2)),
                    Example.left_mem (Example.turns 2)))
    by (vm_compute; reflexivity).
  assert (HX : heap (Example.left_mem Example.batch) !! Example.X_batch
               = Some (Example.array_at (Example.left_mem Example.batch)
                         Example.X_batch))
    by (vm_compute; reflexivity).
  assert (Hy : heap (Example.left_mem Example.batch) !! Example.y_batch
               = Some (Example.array_at (Example.left_mem Example.batch)
                         Example.y_batch))
    by (vm_compute; reflexivity).
  exact (run_iterations_history Example.walker Example.sum_of_squares
           "minimize" Example.X_batch Example.y_batch "LCB" _ _ 2
           (Example.left_mem Example.batch)
           (Example.left_mem (Example.turns 2)) _ _ _ HX Hy H).
Defined.

Lemma run_keeps_sampler_witness :
  exists sm st,
    sampler (__init__ "LCB") = Some sm /\
    sampler (fst (fst (Example.returned Example.no_session
                         (Example.turns 2)))) = Some sm /\
    study (fst (fst (Example.returned Example.no_session
                       (Example.turns 2)))) = Some st /\
    study_sampler st = sm /\
    study_direction st = direction_of "minimize" /\
    is_direction "minimize".
Proof.
  assert (H : Example.turns 2
              = Ok (fst (fst (Example.returned Example.no_session
                                (Example.turns 2))),
                    snd (fst (Example.returned Example.no_session
                                (Example.turns 2))),
                    snd (Example.returned Example.no_session
                           (Example.turns 2)),
                    Example.left_mem (Example.turns 2)))
    by (vm_compute; reflexivity).
  exact (run_keeps_sampler Example.walker Example.sum_of_squares
           "minimize" Example.X_batch Example.y_batch "LCB" 1
           (Example.left_mem Example.batch)
           (Example.left_mem (Example.turns 2)) _ _ _ H).
Defined.

(** The library of the examples proposes one of three values for a
    feature of the sum of squares, and accepts the candidates it proposed
    with their values. *)
Lemma checker_proposes name v :
  proposed Example.checker (name, FloatDistribution (-5)%float 5%float) v ->
  v ∈ [(-5)%float; (-4)%float; (-3)%float].
Proof.
  intros (st & number & w & w' & H).
  cbv beta iota zeta delta
    [sample_float Example.checker Example.walker fst snd] in H.
  pose proof (Nat.mod_upper_bound w 3) as Hm.
  destruct (w mod 3) as [|[|[|m]]]; [| | |lia];
    vm_compute in H; injection H as <- _; set_solver.
Qed.

Lemma checker_accepts_candidates :
  accepts_candidates Example.checker Example.sum_of_squares.
Proof.
  intros row Hrow. simpl in Hrow.
  rewrite filter_cons_True in Hrow by done.
  rewrite filter_cons_True in Hrow by done.
  rewrite filter_nil in Hrow.
  apply Forall2_cons_inv_l in Hrow as (a & row1 & Ha & Hrow & ->).
  apply Forall2_cons_inv_l in Hrow as (b & row2 & Hb & Hrow & ->).
  apply Forall2_nil_inv_l in Hrow as ->.
  apply checker_proposes in Ha, Hb.
  repeat (apply elem_of_cons in Ha as [->|Ha]);
    repeat (apply elem_of_cons in Hb as [->|Hb]);
    try (by apply elem_of_nil in Ha); try (by apply elem_of_nil in Hb);
    vm_compute; by repeat constructor.
Qed.

Lemma run_optimization_returns_witness :
  exists ys s',
    run_optimization Example.checker Example.sum_of_squares "minimize"
      Example.X_batch Example.y_batch (SamplerName_value LCB) 100
      (Example.left_mem Example.batch)
    = Ok (ys, s').
Proof.
  refine (run_optimization_returns Example.checker Example.sum_of_squares
            "minimize" Example.X_batch Example.y_batch LCB
            (Example.array_at (Example.left_mem Example.batch)
               Example.X_batch)
            (Example.array_at (Example.left_mem Example.batch)
               Example.y_batch)
            100 (Example.left_mem Example.batch)
            sum_of_squares_names batch_accepted checker_accepts_candidates
            checker_answers_squares sum_of_squares_rows
            (or_introl eq_refl) _ _ _ _ _ _).
  - vm_compute. reflexivity.
  - vm_compute. reflexivity.
  - vm_compute. reflexivity.
  - vm_compute. reflexivity.
  - vm_compute. repeat constructor; discriminate.
  - vm_compute. reflexivity.
Defined.

(** ** [main.py]: the trials of [main] *)

Section TrialMore.
Context {W : Type} (lib : Optuna W) (func : TargetFunction W).

Lemma drawn_app a : forall b w,
  drawn func (a + b) w
  = drawn func a w ++ drawn func b (drawn_world func a w).
Proof.
  induction a as [|a IH]; intros b w; simpl; [done|].
  destruct (random_x func w) as [x w']. simpl. by rewrite IH.
Qed.

Lemma drawn_world_S n : forall w,
  drawn_world func (S n) w
  = snd (random_x func (drawn_world func n w)).
Proof. induction n as [|n IH]; intros w; [done|]. simpl in *. by rewrite IH. Qed.

(** [random_x] then [f], whatever the objective is. *)
Lemma draw_then_value (s s1 s2 : mem W) x y :
  call_random_x func s = Ok (x, s1) -> call_f func x s1 = Ok (y, s2) ->
  x = length (heap s) /\ y = S (length (heap s)) /\
  heap s2 = heap s ++ [fst (random_x func (world s));
                       f func (fst (random_x func (world s)))] /\
  world s2 = snd (random_x func (world s)).
Proof.
  intros (xa & w & Hr & -> & ->)%call_random_x_Ok
         (a & Ha & -> & ->)%call_f_Ok.
  simpl in *. rewrite lookup_alloc_0 in Ha. injection Ha as <-.
  rewrite Hr, <- app_assoc, length_app. simpl. repeat split; try done; lia.
Qed.

(** The values a loop that draws points appends to its sequence, and the
    world it leaves. *)
Lemma random_search_values k : forall r (s s' : mem W) r' a,
  heap s !! r = Some a ->
  for_range k (random_search func) r s = Ok (r', s') ->
  exists a', heap s' !! r' = Some a' /\ ncols a' = ncols a /\
    rows a' = rows a ++ flat_map (fun x => rows (f func x))
                          (drawn func k (world s)) /\
    world s' = drawn_world func k (world s).
Proof.
  induction k as [|k IH]; intros r s s' r' a Ha H; simpl in H.
  - apply ret_Ok in H as [-> ->]. exists a. simpl. by rewrite app_nil_r.
  - apply bind_Ok in H as (r1 & s1 & H1 & H). unfold random_search in H1.
    apply bind_Ok in H1 as (x & s2 & Hd & H1).
    apply bind_Ok in H1 as (y & s3 & Hv & H1).
    destruct (draw_then_value _ _ _ _ _ Hd Hv) as (-> & -> & Hh & Hw).
    apply np_concatenate_Ok in H1 as (a1 & b & Ha1 & Hb & Hc & -> & ->).
    rewrite Hh in Ha1, Hb.
    rewrite lookup_app_l in Ha1 by (by eapply lookup_lt_Some).
    replace (S (length (heap s))) with (length (heap s) + 1) in Hb by lia.
    rewrite lookup_alloc in Hb. simpl in Hb. injection Hb as <-.
    assert (a1 = a) as -> by congruence.
    eapply IH in H as (a' & Ha' & Hc' & Hr' & Hw').
    2:{ simpl. by rewrite lookup_alloc_0. }
    exists a'. simpl in *. rewrite Hw in Hr', Hw'.
    destruct (random_x func (world s)) as [xa w1]. simpl in *.
    rewrite <- app_assoc in Hr'. done.
Qed.

Lemma draw_initial_values j : forall X y (s s' : mem W) X' y' ya,
  heap s !! y = Some ya ->
  for_range j (draw_initial func) (X, y) s = Ok ((X', y'), s') ->
  exists ya', heap s' !! y' = Some ya' /\ ncols ya' = ncols ya /\
    rows ya' = rows ya ++ flat_map (fun x => rows (f func x))
                            (drawn func j (world s)) /\
    world s' = drawn_world func j (world s).
Proof.
  induction j as [|j IH]; intros X y s s' X' y' ya Hya H; simpl in H.
  - apply ret_Ok in H as [[= -> ->] ->]. exists ya. simpl.
    by rewrite app_nil_r.
  - apply bind_Ok in H as ([X1 y1] & s1 & H1 & H). unfold draw_initial in H1.
    apply bind_Ok in H1 as (x & s2 & Hd & H1).
    apply bind_Ok in H1 as (v & s3 & Hv & H1).
    destruct (draw_then_value _ _ _ _ _ Hd Hv) as (-> & -> & Hh & Hw).
    apply bind_Ok in H1 as (Xc & s4 & HXc & H1).
    apply bind_Ok in H1 as (yc & s5 & Hyc & H1).
    apply ret_Ok in H1 as [[= -> ->] ->].
    apply np_concatenate_Ok in HXc as (a1 & b1 & Ha1 & Hb1 & Hc1 & -> & ->).
    apply np_concatenate_Ok in Hyc as (a2 & b2 & Ha2 & Hb2 & Hc2 & -> & ->).
    simpl in *. rewrite Hh in *.
    rewrite <- app_assoc in Ha2, Hb2. simpl in Ha2, Hb2.
    rewrite lookup_app_l in Ha2 by (by eapply lookup_lt_Some).
    replace (S (length (heap s))) with (length (heap s) + 1) in Hb2 by lia.
    rewrite lookup_alloc in Hb2. simpl in Hb2. injection Hb2 as <-.
    assert (a2 = ya) as -> by congruence.
    eapply IH in H as (ya' & Hya' & Hc' & Hr' & Hw').
    2:{ simpl. rewrite <- !app_assoc, !length_app. simpl.
        replace (length (heap s) + 2 + 1) with (length (heap s) + 3) by lia.
        by rewrite lookup_alloc. }
    exists ya'. simpl in *. rewrite Hw in Hr', Hw'.
    destruct (random_x func (world s)) as [xa w1]. simpl in *.
    rewrite <- app_assoc in Hr'. done.
Qed.

Lemma initial_batch_values n (s s' : mem W) X y :
  initial_batch func n s = Ok ((X, y), s') ->
  exists ya, heap s' !! y = Some ya /\
    rows ya = flat_map (fun x => rows (f func x))
                (drawn func (S (n - 1)) (world s)) /\
    world s' = drawn_world func (S (n - 1)) (world s).
Proof.
  unfold initial_batch. intros H.
  apply bind_Ok in H as (x & s1 & Hd & H).
  apply bind_Ok in H as (v & s2 & Hv & H).
  destruct (draw_then_value _ _ _ _ _ Hd Hv) as (-> & -> & Hh & Hw).
  eapply draw_initial_values in H as (ya & Hya & _ & Hr & Hw').
  2:{ rewrite Hh.
      replace (S (length (heap s))) with (length (heap s) + 1) by lia.
      by rewrite lookup_alloc. }
  exists ya. simpl in *. rewrite Hw in Hr, Hw'.
  destruct (random_x func (world s)) as [xa w1]. simpl in *. done.
Qed.

(** X16: the column of the random search holds the values of the objective
    at the points drawn in the trial, in the order they are drawn: those of
    the initial batch, then those of the search. *)
Theorem random_column_values d n k ms (s s' : mem W) X y tbl :
  evaluates_rows func -> draws_one_row func ->
  2 <= S (n - 1) + k ->
  trial lib func d n k ms s = Ok ((X, y, tbl), s') ->
  column (heap s') tbl "Random"
  = Some (vector (values_of func
                    (drawn func (S (n - 1) + k) (world s)))).
Proof.
  intros Hf Hx Hnk H.
  pose proof H as Hcols.
  eapply trial_columns in Hcols as (y0 & _ & _ & Hcol & _ & Hinv & _);
    [|done..].
  unfold trial in H.
  apply bind_Ok in H as ([X1 y1] & s1 & Hb & H).
  apply bind_Ok in H as (r0 & s2 & Hc & H).
  apply bind_Ok in H as (r & s3 & Hr & H).
  apply bind_Ok in H as (tbl1 & s4 & Hs & [[= -> -> ->] ->]%ret_Ok).
  simpl in *.
  apply initial_batch_values in Hb as (ya & Hya & Hrows & Hw).
  apply np_copy_Ok in Hc as (a0 & Ha0 & -> & ->).
  assert (a0 = ya) as -> by congruence.
  eapply random_search_values in Hr as (a & Ha & _ & Hra & _).
  2:{ simpl. by rewrite lookup_alloc_0. }
  simpl in Hra. rewrite Hw, Hrows, <- flat_map_app, <- drawn_app in Hra.
  pose proof Hs as Hpre.
  eapply extends_for_each in Hpre; [|intros; apply extends_search_with].
  eapply search_keeps_Random in Hs; [|by rewrite lookup_insert_eq].
  destruct (Hinv _ _ Hs) as (a' & Ha' & Hg).
  assert (a' = a) as ->.
  { eapply prefix_lookup_Some in Ha; [|done]. congruence. }
  pose proof (column_of_grown _ _ _ _ Hcol Hg) as Hcol'.
  destruct (squeeze_column _ _ Hcol' Hnk) as [Hsq _].
  erewrite column_Some; [|done..]. rewrite Hsq. unfold values_of.
  by rewrite Hra.
Qed.

(** X15: every column of the table of a trial has [max n 1 + k] entries, for
    [n] initial points asked for and [k] turns: the first point is drawn
    before the loop that draws the others.  A trial that ends with a single
    observation has columns with no axis, which have no length. *)
Theorem trial_column_length d n k ms (s s' : mem W) X y tbl name :
  evaluates_rows func -> draws_one_row func ->
  trial lib func d n k ms s = Ok ((X, y, tbl), s') ->
  is_Some (tbl !! name) ->
  exists c, column (heap s') tbl name = Some c /\
    len c = if decide (n <= 1 /\ k = 0) then Raise TypeError
            else Ok (Nat.max n 1 + k).
Proof.
  intros Hf Hx H [l Hl].
  eapply trial_columns in H as (y0 & _ & _ & Hcol & _ & Hinv & _); [|done..].
  destruct (Hinv _ _ Hl) as (a & Ha & Hg).
  pose proof (column_of_grown _ _ _ _ Hcol Hg) as Hcol'.
  exists (squeeze a). split; [by eapply column_Some|].
  destruct (decide (n <= 1 /\ k = 0)) as [[Hn ->]|Hne].
  - replace (S (n - 1) + 0) with 1 in Hcol' by lia.
    destruct Hcol' as (Hc & Hlen & HF). unfold squeeze.
    rewrite bool_decide_eq_true_2 by (by left).
    destruct (rows a) as [|r [|??]]; try done.
    apply Forall_cons in HF as [Hr _]. destruct r as [|x [|??]]; try done.
    simpl. by rewrite bool_decide_eq_true_2.
  - destruct (squeeze_column _ _ Hcol') as [-> Hlen]; [lia|].
    simpl. rewrite Hlen. f_equal. lia.
Qed.

End TrialMore.

Section TrialReturns.
Context {W : Type} (lib : Optuna W) (func : TargetFunction W).
Hypothesis Hnd : NoDup (map fst (distributions func)).
Hypothesis Hdrawn : accepts_drawn lib func.
Hypothesis Hcand : accepts_candidates lib func.
Hypothesis Ha : Forall (answers lib) (distributions func).
Hypothesis Hf : evaluates_rows func.
Hypothesis Hs : draws_in_space func.

Lemma evaluates_point w :
  ncols (f func (fst (random_x func w))) = 1 /\
  Forall (fun r => length r = 1) (rows (f func (fst (random_x func w)))) /\
  length (rows (f func (fst (random_x func w))))
  = length (rows (fst (random_x func w))).
Proof.
  destruct (Hf (fst (random_x func w))) as (Hc & Hl & Hw).
  unfold well_shaped in Hw. by rewrite Hc in Hw.
Qed.

Lemma draw_initial_returns X y (s : mem W) :
  fits lib func (heap s) X y ->
  exists X' y' s',
    draw_initial func (X, y) s = Ok ((X', y'), s') /\
    fits lib func (heap s') X' y'.
Proof.
  intros (Xa & ya & HX & Hy & HcX & Hcy & Hone & Hlen & Hacc).
  unfold draw_initial.
  destruct (evaluates_point (world s)) as (Hc1 & Hone1 & Hlen1).
  pose proof (Hs (world s)) as Hc0. pose proof (Hdrawn (world s)) as Hacc1.
  destruct (random_x func (world s)) as [xa w] eqn:E.
  simpl in Hc0, Hc1, Hone1, Hlen1, Hacc1.
  erewrite bind_step by (apply call_random_x_Ok; by exists xa, w).
  erewrite bind_step.
  2:{ apply call_f_Ok. exists xa. simpl. by rewrite lookup_alloc_0. }
  erewrite bind_step.
  2:{ apply np_concatenate_Ok. exists Xa, xa. simpl.
      rewrite <- !app_assoc.
      rewrite lookup_app_l by (by eapply lookup_lt_Some).
      rewrite lookup_alloc_0. simpl. repeat split; try done. congruence. }
  erewrite bind_step.
  2:{ apply np_concatenate_Ok. exists ya, (f func xa). simpl.
      rewrite <- !app_assoc.
      rewrite lookup_app_l by (by eapply lookup_lt_Some).
      replace (length ((heap s ++ [xa]) ++ [f func xa]))
        with (length (heap s) + 2) by (rewrite !length_app; simpl; lia).
      rewrite length_app. simpl.
      rewrite lookup_alloc. simpl. repeat split; try done. congruence. }
  eexists _, _, _. split; [done|]. simpl.
  exists (array2 (ncols Xa) (rows Xa ++ rows xa)),
    (array2 (ncols ya) (rows ya ++ rows (f func xa))).
  rewrite <- ?app_assoc, ?length_app. simpl.
  rewrite !lookup_alloc. simpl. repeat split; try done.
  - by apply Forall_app.
  - rewrite !length_app. lia.
  - rewrite zip_with_app by done. by apply Forall_app.
Qed.

Lemma draw_initial_loop_returns j : forall X y (s : mem W),
  fits lib func (heap s) X y ->
  exists X' y' s',
    for_range j (draw_initial func) (X, y) s = Ok ((X', y'), s') /\
    fits lib func (heap s') X' y'.
Proof.
  induction j as [|j IH]; intros X y s Hfit; simpl.
  - by eexists _, _, _.
  - destruct (draw_initial_returns X y s Hfit) as (X1 & y1 & s1 & H1 & Hfit1).
    erewrite bind_step by exact H1. by apply IH.
Qed.

Lemma initial_batch_returns n (s : mem W) :
  exists X y s',
    initial_batch func n s = Ok ((X, y), s') /\ fits lib func (heap s') X y.
Proof.
  unfold initial_batch.
  destruct (evaluates_point (world s)) as (Hc1 & Hone1 & Hlen1).
  pose proof (Hs (world s)) as Hc0. pose proof (Hdrawn (world s)) as Hacc1.
  destruct (random_x func (world s)) as [xa w] eqn:E.
  simpl in Hc0, Hc1, Hone1, Hlen1, Hacc1.
  erewrite bind_step by (apply call_random_x_Ok; by exists xa, w).
  erewrite bind_step.
  2:{ apply call_f_Ok. exists xa. simpl. by rewrite lookup_alloc_0. }
  apply draw_initial_loop_returns. simpl.
  exists xa, (f func xa). rewrite <- app_assoc, length_app. simpl.
  rewrite lookup_alloc_0, lookup_alloc. simpl. done.
Qed.

Lemma random_search_returns k : forall r (s : mem W) a,
  heap s !! r = Some a -> ncols a = 1 ->
  exists r' s', for_range k (random_search func) r s = Ok (r', s').
Proof.
  induction k as [|k IH]; intros r s a Hr Hc; simpl.
  - by eexists _, _.
  - unfold random_search at 1.
    destruct (evaluates_point (world s)) as (Hc1 & _ & _).
    destruct (random_x func (world s)) as [xa w] eqn:E.
    simpl in Hc1.
    erewrite bind_step.
    2:{ erewrite bind_step by (apply call_random_x_Ok; by exists xa, w).
        erewrite bind_step.
        2:{ apply call_f_Ok. exists xa. simpl. by rewrite lookup_alloc_0. }
        apply np_concatenate_Ok. exists a, (f func xa). simpl.
        rewrite <- !app_assoc.
        rewrite lookup_app_l by (by eapply lookup_lt_Some).
        rewrite length_app. simpl. rewrite lookup_alloc. simpl.
        repeat split; try done. congruence. }
    eapply (IH _ _ (array2 (ncols a) (rows a ++ rows (f func xa)))).
    + simpl. rewrite <- ?app_assoc, ?length_app. simpl.
      by rewrite lookup_alloc.
    + done.
Qed.

Lemma fits_prefix h h' X y :
  h `prefix_of` h' -> fits lib func h X y -> fits lib func h' X y.
Proof.
  intros Hpre (Xa & ya & HX & Hy & H). exists Xa, ya.
  split; [by eapply prefix_lookup_Some|].
  split; [by eapply prefix_lookup_Some|done].
Qed.

Lemma search_returns d X y k ms : forall tbl (s : mem W),
  is_direction d -> fits lib func (heap s) X y ->
  exists tbl' s',
    for_each ms (search_with lib func d X y k) tbl s = Ok (tbl', s').
Proof.
  induction ms as [|m ms IH]; intros tbl s Hd Hfit; simpl.
  - by eexists _, _.
  - pose proof Hfit as (Xa & ya & HX & Hy & HcX & Hcy & Hone & Hlen & Hacc).
    destruct (run_iterations_returns lib func d X y m Xa ya k s)
      as (self & Xs & ys & s1 & Xa1 & ya1 & Hrun & _); try done.
    { by apply column_has_values. }
    unfold search_with at 1, run_optimization.
    erewrite bind_step
      by (erewrite bind_step by (erewrite bind_step by exact Hrun;
                                 reflexivity); reflexivity).
    apply IH; [done|]. eapply fits_prefix; [|done].
    by eapply extends_run_iterations.
Qed.

(** X17: the computation of one trial of [main], from the initial batch
    to the table [serch_fs] of the random search and of the run of every
    method, returns, for any number of initial points and of turns and any
    list of methods, when the direction is one [optuna] knows, the keys of
    the search space are distinct, the library proposes a value for every
    feature and accepts the trials the runs register (those of the points
    [random_x] draws and of the candidates it proposed, with the values
    the objective gives them), [random_x] draws points of the search space
    and the objective gives one value a row. *)
Theorem trial_returns d n k ms (s : mem W) :
  is_direction d ->
  exists X_init y_init serch_fs s',
    trial lib func d n k ms s = Ok ((X_init, y_init, serch_fs), s') /\
    fits lib func (heap s') X_init y_init.
Proof.
  intros Hd. unfold trial.
  destruct (initial_batch_returns n s) as (X & y & s1 & Hb & Hfit).
  erewrite bind_step by exact Hb. simpl.
  pose proof Hfit as (Xa & ya & HX & Hy & HcX & Hcy & Hone & _).
  erewrite bind_step by (apply np_copy_Ok; by exists ya).
  destruct (random_search_returns k (length (heap s1))
              (Mem (heap s1 ++ [ya]) (world s1)) ya) as (r & s2 & Hr);
    [simpl; by rewrite lookup_alloc_0|done|].
  erewrite bind_step by exact Hr.
  assert (Hpre : heap s1 `prefix_of` heap s2).
  { etrans; [by apply prefix_app_r|].
    eapply (extends_for_range _ (random_search func)) in Hr; [done|].
    apply extends_random_search. }
  destruct (search_returns d X y k ms (<["Random"%string := r]> ∅) s2)
    as (tbl & s3 & Hsr); [done|by eapply fits_prefix|].
  erewrite bind_step by exact Hsr.
  exists X, y, tbl, s3. split; [done|].
  eapply fits_prefix; [|by eapply fits_prefix].
  eapply extends_for_each; [|done]. intros. apply extends_search_with.
Qed.

End TrialReturns.

Lemma sum_of_squares_in_space : draws_in_space Example.sum_of_squares.
Proof. by intros w. Qed.

Lemma trial_column_length_witness :
  exists c,
    column (heap (Example.left_mem Example.small_trial))
      (snd (Example.returned (0, 0, ∅) Example.small_trial)) "LCB"
    = Some c /\
    len c = if decide (3 <= 1 /\ 2 = 0) then Raise TypeError
            else Ok (Nat.max 3 1 + 2).
Proof.
  assert (H : trial Example.walker Example.sum_of_squares "minimize" 3 2
                [LCB; TPE] Example.start
              = Ok (fst (fst (Example.returned (0, 0, ∅)
                                Example.small_trial)),
                    snd (fst (Example.returned (0, 0, ∅)
                                Example.small_trial)),
                    snd (Example.returned (0, 0, ∅) Example.small_trial),
                    Example.left_mem Example.small_trial))
    by exact_no_check
         (returned_trial (0, 0, ∅) Example.small_trial
            (eq_refl true <: Example.returns Example.small_trial = true)).
  assert (Hn : snd (Example.returned (0, 0, ∅) Example.small_trial)
                 !! "LCB"%string
               = Some (default 0
                         (snd (Example.returned (0, 0, ∅)
                                 Example.small_trial) !! "LCB"%string)))
    by (vm_compute; reflexivity).
  exact (trial_column_length Example.walker Example.sum_of_squares _ _ _ _
           _ _ _ _ _ "LCB"%string sum_of_squares_rows
           sum_of_squares_one_row H (ex_intro _ _ Hn)).
Defined.

Lemma random_column_values_witness :
  column (heap (Example.left_mem Example.small_trial))
    (snd (Example.returned (0, 0, ∅) Example.small_trial)) "Random"
  = Some (vector (values_of Example.sum_of_squares
                    (drawn Example.sum_of_squares (S (3 - 1) + 2)
                       (world Example.start)))).
Proof.
  assert (H : trial Example.walker Example.sum_of_squares "minimize" 3 2
                [LCB; TPE] Example.start
              = Ok (fst (fst (Example.returned (0, 0, ∅)
                                Example.small_trial)),
                    snd (fst (Example.returned (0, 0, ∅)
                                Example.small_trial)),
                    snd (Example.returned (0, 0, ∅) Example.small_trial),
                    Example.left_mem Example.small_trial))
    by exact_no_check
         (returned_trial (0, 0, ∅) Example.small_trial
            (eq_refl true <: Example.returns Example.small_trial = true)).
  assert (Hnk : 2 <= S (3 - 1) + 2) by (simpl; lia).
  exact (random_column_values Example.walker Example.sum_of_squares _ _ _ _
           _ _ _ _ _ sum_of_squares_rows sum_of_squares_one_row Hnk H).
Defined.

(** The library of the examples accepts the points the sum of squares
    draws, with their values. *)
Lemma checker_accepts_drawn :
  accepts_drawn Example.checker Example.sum_of_squares.
Proof.
  assert (Hall :
    forallb (fun a =>
      forallb (fun b =>
        Example.checks
          (replayed (distributions Example.sum_of_squares)
             ([PrimFloat.sub (Example.to_float a) 5%float;
               PrimFloat.sub 5%float (Example.to_float b)],
              [Example.square_sum
                 [PrimFloat.sub (Example.to_float a) 5%float;
                  PrimFloat.sub 5%float (Example.to_float b)]])))
        (seq 0 7)) (seq 0 11) = true) by (vm_compute; reflexivity).
  intros w. simpl. constructor; [|constructor].
  rewrite forallb_forall in Hall.
  specialize (Hall (w mod 11)). rewrite forallb_forall in Hall.
  apply Hall.
  - apply in_seq. pose proof (Nat.mod_upper_bound w 11). lia.
  - apply in_seq. pose proof (Nat.mod_upper_bound w 7). lia.
Qed.

Lemma trial_returns_witness :
  exists X_init y_init serch_fs s',
    trial Example.checker Example.sum_of_squares "minimize" 10 100
      [EIGammaPrior; LogEIGammaPrior] Example.start
    = Ok ((X_init, y_init, serch_fs), s') /\
    fits Example.checker Example.sum_of_squares (heap s') X_init y_init.
Proof.
  exact (trial_returns Example.checker Example.sum_of_squares
           sum_of_squares_names checker_accepts_drawn
           checker_accepts_candidates checker_answers_squares
           sum_of_squares_rows sum_of_squares_in_space
           "minimize" 10 100 [EIGammaPrior; LogEIGammaPrior] Example.start
           (or_introl eq_refl)).
Defined.
